(** * Linpama package manager widget: search, supervision, sudo bridge

    A shallow embedding of [y-package-manager.py] (class
    [LinexinPackageManager]) and the properties of its search
    aggregator, its transaction supervisor, its AUR pipeline, its
    credential bridge and its warning flag.

    Python [str] values are [string]s whose characters are the code
    points below 256; exit codes are [Z]; counters and handles that
    only count up are [nat]; [None] is the [None] of an [option]; the
    dictionary of a search hit is a record; dictionaries used as maps
    (the environment, the files by path) are [gmap]s.

    The widget runs a GLib main loop and worker threads. Handlers of
    the main loop are functions from state to state. A worker thread is
    a small machine whose steps are the stretches of its function
    between two points at which the outside world answers (a child
    process starts, writes a line or ends; a request returns); a run
    of the widget is a list of events, in any interleaving. *)

From Stdlib Require Import String Ascii List ZArith Lia Bool PrimFloat.
From stdpp Require Import gmap strings.
Import ListNotations.

Local Open Scope string_scope.
Local Open Scope list_scope.

(* String concatenation computes under [simpl], as list append does. *)
#[local] Arguments String.append !s1 s2 : simpl nomatch.
(* Character tests stay folded until a proof decides them. *)
#[local] Arguments Ascii.eqb : simpl never.

(** ** Python string primitives *)

Module PyStr.

(** [str.isspace] on one character, for the code points below 256:
    TAB, LF, VT, FF, CR, FS, GS, RS, US, space, NEL, NBSP. *)
Definition isspace (c : ascii) : bool :=
  let n := nat_of_ascii c in
  ((9 <=? n)%nat && (n <=? 13)%nat) || ((28 <=? n)%nat && (n <=? 32)%nat)
  || (n =? 133)%nat || (n =? 160)%nat.

(** [s.lstrip()] *)
Fixpoint lstrip (s : string) : string :=
  match s with
  | EmptyString => EmptyString
  | String c s' => if isspace c then lstrip s' else s
  end.

(** [s.rstrip()] *)
Fixpoint rstrip (s : string) : string :=
  match s with
  | EmptyString => EmptyString
  | String c s' =>
      match rstrip s' with
      | EmptyString => if isspace c then EmptyString else String c EmptyString
      | r => String c r
      end
  end.

(** [s.strip()] *)
Definition strip (s : string) : string := lstrip (rstrip s).

(** [s.split(sep)] for a separator of one character. The result is
    never empty: [''.split(' ')] is [['']]. *)
Fixpoint split (sep : ascii) (s : string) : list string :=
  match s with
  | EmptyString => [EmptyString]
  | String c s' =>
      if Ascii.eqb c sep then EmptyString :: split sep s'
      else match split sep s' with
           | w :: ws => String c w :: ws
           | [] => [String c EmptyString]
           end
  end.

(** [s.startswith(p)] *)
Fixpoint startswith (p s : string) : bool :=
  match p, s with
  | EmptyString, _ => true
  | String _ _, EmptyString => false
  | String a p', String b s' => Ascii.eqb a b && startswith p' s'
  end.

(** [p in s] *)
Fixpoint contains (p s : string) : bool :=
  startswith p s ||
  match s with
  | EmptyString => false
  | String _ s' => contains p s'
  end.

(** [c in s] for one character *)
Fixpoint has_char (c : ascii) (s : string) : bool :=
  match s with
  | EmptyString => false
  | String a s' => Ascii.eqb a c || has_char c s'
  end.

Definition upper_char (c : ascii) : ascii :=
  let n := nat_of_ascii c in
  if ((97 <=? n)%nat && (n <=? 122)%nat)
     || ((224 <=? n)%nat && (n <=? 254)%nat && negb (n =? 247)%nat)
  then ascii_of_nat (n - 32) else c.

Definition lower_char (c : ascii) : ascii :=
  let n := nat_of_ascii c in
  if ((65 <=? n)%nat && (n <=? 90)%nat)
     || ((192 <=? n)%nat && (n <=? 222)%nat && negb (n =? 215)%nat)
  then ascii_of_nat (n + 32) else c.

Fixpoint map_chars (f : ascii -> ascii) (s : string) : string :=
  match s with
  | EmptyString => EmptyString
  | String c s' => String (f c) (map_chars f s')
  end.

(** [s.upper()] and [s.lower()] on the letters whose other case is
    below 256 too (the ASCII and the Latin-1 letters) *)
Definition upper : string -> string := map_chars upper_char.
Definition lower : string -> string := map_chars lower_char.

(** [s.replace(a, b)] for one-character [a] and [b] *)
Definition replace (a b : ascii) : string -> string :=
  map_chars (fun c => if Ascii.eqb c a then b else c).

(** Truth value of a string: [bool(s)] *)
Definition truthy (s : string) : bool :=
  match s with EmptyString => false | _ => true end.

End PyStr.

Definition LF : ascii := ascii_of_nat 10.
Definition nl : string := String LF EmptyString.

(** ** Search aggregator *)

Module Search.

(** The dictionary built for every search hit (keys [name], [repo],
    [version], [installed], [desc], [is_aur]). *)
Record pkg := Pkg {
  name : string;
  repo : string;
  version : string;
  installed : bool;
  desc : string;
  is_aur : bool
}.

Definition set_desc (d : string) (p : pkg) : pkg :=
  {| name := name p; repo := repo p; version := version p;
     installed := installed p; desc := d; is_aur := is_aur p |}.

(** The exceptions the header code can raise: [parts[1]] on a list of
    one element, and unpacking a list of other than two elements into
    [repo, name]. *)
Inductive exn := IndexError | ValueError.

(** [repo, name = full_name.split('/') if '/' in full_name
                  else ("local", full_name)] *)
Definition split_full_name (full_name : string) : exn + (string * string) :=
  if PyStr.has_char "/" full_name then
    match PyStr.split "/" full_name with
    | [r; n] => inr (r, n)
    | _ => inl ValueError
    end
  else inr ("local", full_name).

(** The body of the [if not line.startswith('    ')] branch after the
    pending record was appended: lines 561 to 573. *)
Definition parse_header (line : string) : exn + pkg :=
  match PyStr.split " " line with
  | full_name :: version :: _ =>
      match split_full_name full_name with
      | inl e => inl e
      | inr (r, n) =>
          inr {| name := n; repo := r; version := version;
                 installed := PyStr.contains "[installed]" line;
                 desc := ""; is_aur := false |}
      end
  | _ => inl IndexError
  end.

Definition is_indented (line : string) : bool :=
  PyStr.startswith "    " line.

(** [if current_pkg: results.append(current_pkg)] *)
Definition flush (results : list pkg) (current_pkg : option pkg) : list pkg :=
  match current_pkg with
  | Some p => results ++ [p]
  | None => results
  end.

(** The [for line in lines] loop, lines 557 to 575, as a function of
    the two variables it updates. An exception leaves the loop with
    [results] as it is at that point. *)
Fixpoint for_lines (lines : list string) (results : list pkg)
  (current_pkg : option pkg) : list pkg * option pkg * option exn :=
  match lines with
  | [] => (results, current_pkg, None)
  | line :: rest =>
      if negb (is_indented line) then
        let results := flush results current_pkg in
        match parse_header line with
        | inl e => (results, current_pkg, Some e)
        | inr p => for_lines rest results (Some p)
        end
      else
        for_lines rest results
          (option_map (set_desc (PyStr.strip line)) current_pkg)
  end.

(** The loop followed by the last [results.append], which an
    exception raised inside the loop skips. *)
Definition parse_lines (lines : list string) : list pkg :=
  match for_lines lines [] None with
  | (results, current_pkg, None) => flush results current_pkg
  | (results, _, Some _) => results
  end.

(** What [subprocess.run] gives back: it raises (no [pacman]
    executable, say), or completes with a return code and the
    decoded standard output. *)
Inductive run_result :=
| RunRaises
| Completed (returncode : Z) (stdout : string).

(** [process.stdout.strip().split('\n')] and the loop over it *)
Definition parse_stdout (stdout : string) : list pkg :=
  parse_lines (PyStr.split LF (PyStr.strip stdout)).

(** Lines 553 to 577: the local records that [results] holds when the
    [try] statement is left, by its end or by its handler. *)
Definition local_records (r : run_result) : list pkg :=
  match r with
  | RunRaises => []
  | Completed rc stdout =>
      if (rc =? 0)%Z && PyStr.truthy stdout then parse_stdout stdout else []
  end.


(** *** The line format of the local index *)

Fixpoint all_chars (P : ascii -> bool) (s : string) : bool :=
  match s with
  | EmptyString => true
  | String c s' => P c && all_chars P s'
  end.

(** A character of a repository name, package name or version: not
    white space, not the slash that separates repository and name,
    not the bracket that opens the installed marker. *)
Definition plain_char (c : ascii) : bool :=
  negb (PyStr.isspace c) && negb (Ascii.eqb c "/") && negb (Ascii.eqb c "[").

Definition token (w : string) : bool := all_chars plain_char w.

(** What follows the space after the full name *)
Definition tail (v : string) (inst : bool) : string :=
  v ++ (if inst then " [installed]" else "").

(** The header line [repo/name version [installed]] *)
Definition header_line (r n v : string) (inst : bool) : string :=
  r ++ "/" ++ n ++ " " ++ v ++ (if inst then " [installed]" else "").

(** A line that makes the loop raise: a header line (not indented)
    whose fields cannot be taken apart. *)
Definition malformed (line : string) : bool :=
  negb (is_indented line) &&
  match parse_header line with inl _ => true | inr _ => false end.

(** A line the loop gets past. *)
Definition well_formed (line : string) : bool := negb (malformed line).

(** *** The AUR lookup *)

(** One element of the [results] list of the RPC answer; a key that
    is absent is [None], a key that is present holds a string. *)
Record aur_item := AurItem {
  Name : option string;
  Version : option string;
  Description : option string
}.

(** What lines 584 and 585 give: an exception (no network, time-out,
    a body that is not JSON), or the decoded dictionary, of which
    the code reads the keys [type] and [results]. A document that is
    not a dictionary has no [get]; the [AttributeError] is caught with
    [results] untouched, as for a dictionary with neither key. *)
Inductive aur_response :=
| UrlRaises
| AurData (type : option string) (results : option (list aur_item)).

(** The loop of lines 590 to 599; a missing [Name] or [Version]
    raises [KeyError], which ends the loop with [results] as it is. *)
Fixpoint aur_loop (query : string) (items : list aur_item)
  (results : list pkg) : list pkg :=
  match items with
  | [] => results
  | item :: rest =>
      match Name item with
      | None => results
      | Some nm =>
          if PyStr.contains (PyStr.lower query) (PyStr.lower nm) then
            match Version item with
            | None => results
            | Some ver =>
                aur_loop query rest
                  (results ++
                   [{| name := nm; repo := "AUR"; version := ver;
                       installed := false;
                       desc := match Description item with
                               | Some d => d
                               | None => ""
                               end;
                       is_aur := true |}])
            end
          else aur_loop query rest results
      end
  end.

(** Line 589 and the loop under it *)
Definition aur_records (query : string) (type : option string)
  (items : option (list aur_item)) (results : list pkg) : list pkg :=
  match type, items with
  | Some "error", _ => results
  | _, Some (item :: rest) => aur_loop query (item :: rest) results
  | _, _ => results
  end.

(** The reading of the parser under which a malformed header line is
    passed over: the records are those of the text without that line. *)
Definition skips_malformed_lines : Prop :=
  forall pre bad post,
    malformed bad = true ->
    parse_lines (pre ++ bad :: post) = parse_lines (pre ++ post).

End Search.

(** ** The search view: debounce timer, search threads, result list *)

Module SearchView.
Import Search.

(** Names of the children of [search_stack] *)
Inductive page := welcome | loading | no_results | results.

(** Where a thread running [perform_search] stands. The thread gives
    way to the main loop and to its sibling threads at these points,
    where it waits for the outside world or is about to compare
    [search_id] with [self.search_counter]. A comparison and the simple
    statement it guards ([return], or the assignment of line 604 with
    the [idle_add] after it) are one step: the interpreter is taken not
    to switch threads inside them. *)
Inductive pc :=
| Entry                               (* line 544 is next *)
| LocalLookup                         (* inside subprocess.run, line 549 *)
| RemoteLookup (found : list pkg)     (* inside urlopen and read, 584-585 *)
| Publishing (found : list pkg)       (* line 603 is next *)
| Returned.

Record worker := Worker {
  w_query : string;
  w_search_id : nat;
  w_pc : pc
}.

(** The attributes of the widget that the search code reads and
    writes, the armed GLib time-outs, the threads started by
    [trigger_search] and the number of [update_results_initial] calls
    waiting in the main loop. *)
Record state := State {
  search_timer : option nat;
  search_counter : nat;
  search_in_progress : bool;
  all_search_results : list pkg;
  displayed_count : nat;
  results_listbox : list pkg;
  search_stack : page;
  aur_check : bool;
  timeouts : list (nat * (string * nat));
  next_source : nat;
  workers : list worker;
  idle : nat
}.

Definition batch_size : nat := 30.

(** The fields as [__init__] and [setup_search_view] leave them *)
Definition init : state :=
  {| search_timer := None; search_counter := 0; search_in_progress := false;
     all_search_results := []; displayed_count := 0; results_listbox := [];
     search_stack := welcome; aur_check := false;
     timeouts := []; next_source := 1; workers := []; idle := 0 |}.

Definition set_worker (tid : nat) (w : worker) (s : state) : state :=
  {| search_timer := search_timer s; search_counter := search_counter s;
     search_in_progress := search_in_progress s;
     all_search_results := all_search_results s;
     displayed_count := displayed_count s;
     results_listbox := results_listbox s;
     search_stack := search_stack s; aur_check := aur_check s;
     timeouts := timeouts s; next_source := next_source s;
     workers := <[tid := w]> (workers s); idle := idle s |}.

Definition at_pc (w : worker) (p : pc) : worker :=
  {| w_query := w_query w; w_search_id := w_search_id w; w_pc := p |}.

(** [clear_results] *)
Definition clear_results (s : state) : state :=
  {| search_timer := search_timer s; search_counter := search_counter s;
     search_in_progress := search_in_progress s;
     all_search_results := all_search_results s;
     displayed_count := 0;
     results_listbox := [];
     search_stack := search_stack s; aur_check := aur_check s;
     timeouts := timeouts s; next_source := next_source s;
     workers := workers s; idle := idle s |}.

Definition set_page (p : page) (s : state) : state :=
  {| search_timer := search_timer s; search_counter := search_counter s;
     search_in_progress := search_in_progress s;
     all_search_results := all_search_results s;
     displayed_count := displayed_count s;
     results_listbox := results_listbox s;
     search_stack := p; aur_check := aur_check s;
     timeouts := timeouts s; next_source := next_source s;
     workers := workers s; idle := idle s |}.

(** [load_more_results] *)
Definition load_more_results (s : state) : state :=
  let total := length (all_search_results s) in
  if (total <=? displayed_count s)%nat then s
  else
    let end_idx := Nat.min (displayed_count s + batch_size) total in
    let batch := firstn (end_idx - displayed_count s)
                   (skipn (displayed_count s) (all_search_results s)) in
    {| search_timer := search_timer s; search_counter := search_counter s;
       search_in_progress := search_in_progress s;
       all_search_results := all_search_results s;
       displayed_count := end_idx;
       results_listbox := results_listbox s ++ batch;
       search_stack := search_stack s; aur_check := aur_check s;
       timeouts := timeouts s; next_source := next_source s;
       workers := workers s; idle := idle s |}.

(** [update_results_initial] *)
Definition update_results_initial (s : state) : state :=
  let s := clear_results
    {| search_timer := search_timer s; search_counter := search_counter s;
       search_in_progress := false;
       all_search_results := all_search_results s;
       displayed_count := displayed_count s;
       results_listbox := results_listbox s;
       search_stack := search_stack s; aur_check := aur_check s;
       timeouts := timeouts s; next_source := next_source s;
       workers := workers s; idle := idle s |} in
  match all_search_results s with
  | [] => set_page no_results s
  | _ :: _ => load_more_results (set_page results s)
  end.

(** [GLib.source_remove] *)
Definition source_remove (src : nat) (l : list (nat * (string * nat)))
  : list (nat * (string * nat)) :=
  List.filter (fun t => negb (fst t =? src)%nat) l.

(** [on_search_changed], with [text] the content of the entry *)
Definition on_search_changed (text : string) (s : state) : state :=
  let timeouts1 :=
    match search_timer s with
    | Some src => source_remove src (timeouts s)
    | None => timeouts s
    end in
  let query := PyStr.strip text in
  let counter := S (search_counter s) in
  let current_search_id := counter in
  if (String.length query <? 2)%nat then
    set_page welcome (clear_results
      {| search_timer := None; search_counter := counter;
         search_in_progress := search_in_progress s;
         all_search_results := all_search_results s;
         displayed_count := displayed_count s;
         results_listbox := results_listbox s;
         search_stack := search_stack s; aur_check := aur_check s;
         timeouts := timeouts1; next_source := next_source s;
         workers := workers s; idle := idle s |})
  else
    {| search_timer := Some (next_source s); search_counter := counter;
       search_in_progress := search_in_progress s;
       all_search_results := all_search_results s;
       displayed_count := displayed_count s;
       results_listbox := results_listbox s;
       search_stack := search_stack s; aur_check := aur_check s;
       timeouts := timeouts1 ++ [(next_source s, (query, current_search_id))];
       next_source := S (next_source s);
       workers := workers s; idle := idle s |}.

(** [trigger_search]; it returns [False], which removes the time-out
    that called it (the caller of this function does that). *)
Definition trigger_search (query : string) (search_id : nat) (s : state) : state :=
  {| search_timer := search_timer s; search_counter := search_counter s;
     search_in_progress := true;
     all_search_results := [];
     displayed_count := 0;
     results_listbox := results_listbox s;
     search_stack := loading; aur_check := aur_check s;
     timeouts := timeouts s; next_source := next_source s;
     workers := workers s ++ [Worker query search_id Entry];
     idle := idle s |}.

(** Lines 603 to 605, once the comparison has succeeded *)
Definition publish (found : list pkg) (s : state) : state :=
  {| search_timer := search_timer s; search_counter := search_counter s;
     search_in_progress := search_in_progress s;
     all_search_results := found;
     displayed_count := displayed_count s;
     results_listbox := results_listbox s;
     search_stack := search_stack s; aur_check := aur_check s;
     timeouts := timeouts s; next_source := next_source s;
     workers := workers s; idle := S (idle s) |}.

(** Line 581: the branch on the check box *)
Definition after_local (found : list pkg) (s : state) : pc :=
  if aur_check s then RemoteLookup found else Publishing found.


(** What can happen next: a signal of the user interface handled by
    the main loop, a time-out or an idle call that the main loop
    runs, or one thread running up to its next comparison, with what
    the outside world answered to it. *)
Inductive event :=
| SearchChanged (text : string)
| ToggleAur
| TimerFire (src : nat)
| IdleRun
| ScrollEdge
| WEnter (tid : nat)
| WLocal (tid : nat) (r : run_result)
| WRemote (tid : nat) (resp : aur_response)
| WPublish (tid : nat).

(** A result set written to [all_search_results] by thread [tid]
    searching under [search_id]. *)
Record publication := Pub {
  pub_tid : nat;
  pub_search_id : nat;
  pub_results : list pkg
}.

Definition find_timeout (src : nat) (l : list (nat * (string * nat)))
  : option (string * nat) :=
  match List.filter (fun t => (fst t =? src)%nat) l with
  | t :: _ => Some (snd t)
  | [] => None
  end.

Definition toggle_aur (s : state) : state :=
  {| search_timer := search_timer s; search_counter := search_counter s;
     search_in_progress := search_in_progress s;
     all_search_results := all_search_results s;
     displayed_count := displayed_count s;
     results_listbox := results_listbox s;
     search_stack := search_stack s; aur_check := negb (aur_check s);
     timeouts := timeouts s; next_source := next_source s;
     workers := workers s; idle := idle s |}.

Definition drop_timeout (src : nat) (s : state) : state :=
  {| search_timer := search_timer s; search_counter := search_counter s;
     search_in_progress := search_in_progress s;
     all_search_results := all_search_results s;
     displayed_count := displayed_count s;
     results_listbox := results_listbox s;
     search_stack := search_stack s; aur_check := aur_check s;
     timeouts := source_remove src (timeouts s); next_source := next_source s;
     workers := workers s; idle := idle s |}.

Definition pop_idle (s : state) : state :=
  {| search_timer := search_timer s; search_counter := search_counter s;
     search_in_progress := search_in_progress s;
     all_search_results := all_search_results s;
     displayed_count := displayed_count s;
     results_listbox := results_listbox s;
     search_stack := search_stack s; aur_check := aur_check s;
     timeouts := timeouts s; next_source := next_source s;
     workers := workers s; idle := pred (idle s) |}.

(** One step of a thread of [perform_search]: the new state, and the
    publication if the step is lines 604 and 605. *)
Definition worker_step (tid : nat) (w : worker) (e : event) (s : state)
  : option (state * option publication) :=
  let stale := negb (w_search_id w =? search_counter s)%nat in
  match e, w_pc w with
  | WEnter _, Entry =>
      (* line 544 *)
      if stale then Some (set_worker tid (at_pc w Returned) s, None)
      else Some (set_worker tid (at_pc w LocalLookup) s, None)
  | WLocal _ RunRaises, LocalLookup =>
      (* the handler of line 578, then line 581 *)
      Some (set_worker tid (at_pc w (after_local [] s)) s, None)
  | WLocal _ r, LocalLookup =>
      (* line 551, the parser, then line 581 *)
      if stale then Some (set_worker tid (at_pc w Returned) s, None)
      else Some (set_worker tid (at_pc w (after_local (local_records r) s)) s, None)
  | WRemote _ UrlRaises, RemoteLookup found =>
      (* the handler of line 600 *)
      Some (set_worker tid (at_pc w (Publishing found)) s, None)
  | WRemote _ (AurData ty items), RemoteLookup found =>
      (* line 587, then lines 589 to 599 *)
      if stale then Some (set_worker tid (at_pc w Returned) s, None)
      else Some (set_worker tid
                   (at_pc w (Publishing (aur_records (w_query w) ty items found))) s,
                 None)
  | WPublish _, Publishing found =>
      (* lines 603 to 605 *)
      if stale then Some (set_worker tid (at_pc w Returned) s, None)
      else Some (set_worker tid (at_pc w Returned) (publish found s),
                 Some (Pub tid (w_search_id w) found))
  | _, _ => None
  end.

(** One step of the whole: [None] when the event cannot happen in
    this state (no such time-out, no idle call waiting, no such
    thread, or the thread is elsewhere). *)
Definition step (s : state) (e : event) : option (state * option publication) :=
  match e with
  | SearchChanged text => Some (on_search_changed text s, None)
  | ToggleAur => Some (toggle_aur s, None)
  | TimerFire src =>
      match find_timeout src (timeouts s) with
      | Some (query, search_id) =>
          Some (trigger_search query search_id (drop_timeout src s), None)
      | None => None
      end
  | IdleRun =>
      match idle s with
      | O => None
      | S _ => Some (update_results_initial (pop_idle s), None)
      end
  | ScrollEdge => Some (load_more_results s, None)
  | WEnter tid | WLocal tid _ | WRemote tid _ | WPublish tid =>
      match workers s !! tid with
      | Some w => worker_step tid w e s
      | None => None
      end
  end.

(** A run: the state reached and the publications made, oldest first *)
Fixpoint run (s : state) (es : list event) : option (state * list publication) :=
  match es with
  | [] => Some (s, [])
  | e :: es' =>
      match step s e with
      | Some (s1, p) =>
          match run s1 es' with
          | Some (s2, ps) =>
              Some (s2, match p with Some x => x :: ps | None => ps end)
          | None => None
          end
      | None => None
      end
  end.

(** The number of ids issued along a run: one for every call of
    [on_search_changed], which numbers them 1, 2, 3, ... *)
Fixpoint issued (es : list event) : nat :=
  match es with
  | [] => 0
  | SearchChanged _ :: es' => S (issued es')
  | _ :: es' => issued es'
  end.

(** The thread an event belongs to *)
Definition event_tid (e : event) : option nat :=
  match e with
  | WEnter t | WLocal t _ | WRemote t _ | WPublish t => Some t
  | _ => None
  end.

(** No thread and no armed time-out is ahead of the counter. *)
Definition ids_bounded (s : state) : Prop :=
  (forall tid w, workers s !! tid = Some w -> w_search_id w <= search_counter s) /\
  (forall src q i, In (src, (q, i)) (timeouts s) -> i <= search_counter s).

(** Two searches in flight: the thread of the first is overtaken while
    [pacman] runs for it, the thread of the second reaches line 603. *)
Definition demo_vim_stdout : string :=
  "extra/vim 9.1.0-1 [installed]" ++ nl
  ++ "    Vi Improved, a highly configurable text editor" ++ nl
  ++ "extra/vim-runtime 9.1.0-1".

Definition demo_overtaken : list event :=
  [SearchChanged "vi"; TimerFire 1; WEnter 0;
   SearchChanged "vim"; TimerFire 2; WEnter 1].

Definition demo_completed : list event :=
  [WLocal 1 (Completed 0 demo_vim_stdout);
   WLocal 0 (Completed 0 "extra/vi 1:070224-6")].

Definition demo_published : list event := demo_completed ++ [WPublish 1].

End SearchView.

(** ** The persisted configuration file *)

Module Config.

(** The values [json.load] builds. A dictionary lists its keys once, in
    the order of the document. *)
#[local] Set Warnings "-register-all".
Inductive pyval :=
| PyNone
| PyBool (b : bool)
| PyInt (n : Z)
| PyFloat (x : PrimFloat.float)
| PyStr (s : string)
| PyList (items : list pyval)
| PyDict (fields : list (string * pyval)).

(** [bool(v)], which an [if] statement applies to its condition *)
Definition truthy (v : pyval) : bool :=
  match v with
  | PyNone => false
  | PyBool b => b
  | PyInt n => negb (n =? 0)%Z
  | PyFloat x => negb (PrimFloat.eqb x PrimFloat.zero)
  | PyStr s => PyStr.truthy s
  | PyList items => match items with [] => false | _ => true end
  | PyDict fields => match fields with [] => false | _ => true end
  end.

(** [d.get(key)] on the fields of a dictionary *)
Fixpoint dict_get (key : string) (fields : list (string * pyval)) : option pyval :=
  match fields with
  | [] => None
  | (k, v) :: rest => if String.eqb k key then Some v else dict_get key rest
  end.

(** What the code finds at [CONFIG_FILE]: nothing; something that
    [open] refuses; text that [json.load] rejects; or a document. *)
Inductive config_file :=
| Absent
| Unreadable
| Invalid
| Parsed (config : pyval).

(** [should_show_warning]. A document that is not a dictionary has no
    [get] method, and the [AttributeError] is caught like every other
    exception. *)
Definition should_show_warning (f : config_file) : pyval :=
  match f with
  | Absent => PyBool true
  | Unreadable => PyBool true
  | Invalid => PyBool true
  | Parsed (PyDict fields) =>
      match dict_get "show_warning" fields with
      | Some v => v
      | None => PyBool true
      end
  | Parsed _ => PyBool true
  end.

(** Lines 82 to 85 of [__init__]: is [warning_view] the first page? *)
Definition warning_shown (f : config_file) : bool :=
  truthy (should_show_warning f).

(** The reading of the warning flag that takes the field for a
    Boolean: the warning is suppressed only by a document whose
    [show_warning] field is [false]. *)
Definition suppressed_only_by_false : Prop :=
  forall f, warning_shown f = false ->
    exists fields, f = Parsed (PyDict fields) /\
      dict_get "show_warning" fields = Some (PyBool false).

End Config.

(** ** Transaction supervisor, AUR pipeline and sudo bridge *)

Module Supervisor.

Definition APP_NAME : string := "linpama".

(** The double quote, which the helper scripts contain *)
Definition dq : string := String (ascii_of_nat 34) EmptyString.

(** Names of the children of [content_stack] *)
Inductive view :=
  warning_view | search_view | pkgbuild_view | progress_view | info_view.

(** The two values of [action_type] *)
Inductive action := install | remove.

Inductive signal := SIGINT | SIGTERM | SIGKILL.

(** The system calls that deliver a signal: to one process, or to every
    process of a group. *)
Inductive os_call :=
| os_kill (pid : nat) (sig : signal)
| os_killpg (pgid : nat) (sig : signal).

Record file := File { content : string; mode : Z }.

(** A [subprocess.Popen] object; [returncode] is [None] until [wait]
    has returned. An [env] of [None] is the inherited environment. *)
Record popen := Popen {
  pid : nat;
  args : list string;
  shell : bool;
  env : option (gmap string string);
  returncode : option Z
}.

(** The two closures passed to [prompt_for_password] *)
Inductive continuation :=
| then_run_transaction (package_name : string)
| then_run_aur_build.

(** An [Adw.MessageDialog] that [prompt_for_password] has presented *)
Record dialog := Dialog { body : string; callback_success : continuation }.

(** A call queued with [GLib.idle_add] *)
Inductive callback :=
| call_append_log (text : string)
| call_on_process_finished (success : bool) (pkg_name : string)
| call_show_pkgbuild_content (text : string)
| call_show_aur_error (message : string).

(** Where a worker thread stands: in [execute_shell] before [Popen] or
    in its [readline] loop over the output of process [child]; in
    [clone_task] before [Popen] or in [wait]; or at its end. *)
Inductive thread :=
| ExecStart (command pkg_name : string)
| ExecRead (pkg_name : string) (child : nat)
| CloneStart (package_name : string)
| CloneWait
| Finished.

(** The attributes of the widget that the supervisor uses
    ([target_pkg], which is assigned and never read, is left out), the
    widget properties it sets, the part of the outside world it acts
    on (files, directories, child processes, signals sent, the
    environment and umask of the process), and what is in flight:
    worker threads, idle calls, open dialogs. *)
Record state := State {
  user_password : option string;
  process_in_progress : bool;
  pulse_timer_id : option nat;
  current_package_name : string;
  current_process : option nat;
  action_type : option action;
  aur_temp_dir : option string;
  aur_pkg_name : option string;
  content_stack : view;
  output_buffer : string;
  btn_back_sensitive : bool;
  btn_cancel_visible : bool;
  labels : gmap string string;
  shown : gmap string bool;
  files : gmap string file;
  dirs : gset string;
  procs : list popen;
  os_calls : list os_call;
  os_environ : gmap string string;
  umask : Z;
  threads : list thread;
  idle_queue : list callback;
  dialogs : list dialog;
  next_source : nat
}.

(** Field updates, one for each attribute, widget property or part of
    the outside world that the code assigns. *)

Definition set_user_password (x : option string) (s : state) : state :=
  {| user_password := x; process_in_progress := process_in_progress s;
     pulse_timer_id := pulse_timer_id s;
     current_package_name := current_package_name s;
     current_process := current_process s; action_type := action_type s;
     aur_temp_dir := aur_temp_dir s; aur_pkg_name := aur_pkg_name s;
     content_stack := content_stack s; output_buffer := output_buffer s;
     btn_back_sensitive := btn_back_sensitive s;
     btn_cancel_visible := btn_cancel_visible s; labels := labels s;
     shown := shown s; files := files s; dirs := dirs s; procs := procs s;
     os_calls := os_calls s; os_environ := os_environ s; umask := umask s;
     threads := threads s; idle_queue := idle_queue s; dialogs := dialogs s;
     next_source := next_source s |}.

Definition set_process_in_progress (x : bool) (s : state) : state :=
  {| user_password := user_password s; process_in_progress := x;
     pulse_timer_id := pulse_timer_id s;
     current_package_name := current_package_name s;
     current_process := current_process s; action_type := action_type s;
     aur_temp_dir := aur_temp_dir s; aur_pkg_name := aur_pkg_name s;
     content_stack := content_stack s; output_buffer := output_buffer s;
     btn_back_sensitive := btn_back_sensitive s;
     btn_cancel_visible := btn_cancel_visible s; labels := labels s;
     shown := shown s; files := files s; dirs := dirs s; procs := procs s;
     os_calls := os_calls s; os_environ := os_environ s; umask := umask s;
     threads := threads s; idle_queue := idle_queue s; dialogs := dialogs s;
     next_source := next_source s |}.

Definition set_pulse_timer_id (x : option nat) (s : state) : state :=
  {| user_password := user_password s;
     process_in_progress := process_in_progress s; pulse_timer_id := x;
     current_package_name := current_package_name s;
     current_process := current_process s; action_type := action_type s;
     aur_temp_dir := aur_temp_dir s; aur_pkg_name := aur_pkg_name s;
     content_stack := content_stack s; output_buffer := output_buffer s;
     btn_back_sensitive := btn_back_sensitive s;
     btn_cancel_visible := btn_cancel_visible s; labels := labels s;
     shown := shown s; files := files s; dirs := dirs s; procs := procs s;
     os_calls := os_calls s; os_environ := os_environ s; umask := umask s;
     threads := threads s; idle_queue := idle_queue s; dialogs := dialogs s;
     next_source := next_source s |}.

Definition set_current_package_name (x : string) (s : state) : state :=
  {| user_password := user_password s;
     process_in_progress := process_in_progress s;
     pulse_timer_id := pulse_timer_id s; current_package_name := x;
     current_process := current_process s; action_type := action_type s;
     aur_temp_dir := aur_temp_dir s; aur_pkg_name := aur_pkg_name s;
     content_stack := content_stack s; output_buffer := output_buffer s;
     btn_back_sensitive := btn_back_sensitive s;
     btn_cancel_visible := btn_cancel_visible s; labels := labels s;
     shown := shown s; files := files s; dirs := dirs s; procs := procs s;
     os_calls := os_calls s; os_environ := os_environ s; umask := umask s;
     threads := threads s; idle_queue := idle_queue s; dialogs := dialogs s;
     next_source := next_source s |}.

Definition set_current_process (x : option nat) (s : state) : state :=
  {| user_password := user_password s;
     process_in_progress := process_in_progress s;
     pulse_timer_id := pulse_timer_id s;
     current_package_name := current_package_name s; current_process := x;
     action_type := action_type s; aur_temp_dir := aur_temp_dir s;
     aur_pkg_name := aur_pkg_name s; content_stack := content_stack s;
     output_buffer := output_buffer s;
     btn_back_sensitive := btn_back_sensitive s;
     btn_cancel_visible := btn_cancel_visible s; labels := labels s;
     shown := shown s; files := files s; dirs := dirs s; procs := procs s;
     os_calls := os_calls s; os_environ := os_environ s; umask := umask s;
     threads := threads s; idle_queue := idle_queue s; dialogs := dialogs s;
     next_source := next_source s |}.

Definition set_action_type (x : option action) (s : state) : state :=
  {| user_password := user_password s;
     process_in_progress := process_in_progress s;
     pulse_timer_id := pulse_timer_id s;
     current_package_name := current_package_name s;
     current_process := current_process s; action_type := x;
     aur_temp_dir := aur_temp_dir s; aur_pkg_name := aur_pkg_name s;
     content_stack := content_stack s; output_buffer := output_buffer s;
     btn_back_sensitive := btn_back_sensitive s;
     btn_cancel_visible := btn_cancel_visible s; labels := labels s;
     shown := shown s; files := files s; dirs := dirs s; procs := procs s;
     os_calls := os_calls s; os_environ := os_environ s; umask := umask s;
     threads := threads s; idle_queue := idle_queue s; dialogs := dialogs s;
     next_source := next_source s |}.

Definition set_aur_temp_dir (x : option string) (s : state) : state :=
  {| user_password := user_password s;
     process_in_progress := process_in_progress s;
     pulse_timer_id := pulse_timer_id s;
     current_package_name := current_package_name s;
     current_process := current_process s; action_type := action_type s;
     aur_temp_dir := x; aur_pkg_name := aur_pkg_name s;
     content_stack := content_stack s; output_buffer := output_buffer s;
     btn_back_sensitive := btn_back_sensitive s;
     btn_cancel_visible := btn_cancel_visible s; labels := labels s;
     shown := shown s; files := files s; dirs := dirs s; procs := procs s;
     os_calls := os_calls s; os_environ := os_environ s; umask := umask s;
     threads := threads s; idle_queue := idle_queue s; dialogs := dialogs s;
     next_source := next_source s |}.

Definition set_aur_pkg_name (x : option string) (s : state) : state :=
  {| user_password := user_password s;
     process_in_progress := process_in_progress s;
     pulse_timer_id := pulse_timer_id s;
     current_package_name := current_package_name s;
     current_process := current_process s; action_type := action_type s;
     aur_temp_dir := aur_temp_dir s; aur_pkg_name := x;
     content_stack := content_stack s; output_buffer := output_buffer s;
     btn_back_sensitive := btn_back_sensitive s;
     btn_cancel_visible := btn_cancel_visible s; labels := labels s;
     shown := shown s; files := files s; dirs := dirs s; procs := procs s;
     os_calls := os_calls s; os_environ := os_environ s; umask := umask s;
     threads := threads s; idle_queue := idle_queue s; dialogs := dialogs s;
     next_source := next_source s |}.

Definition set_content_stack (x : view) (s : state) : state :=
  {| user_password := user_password s;
     process_in_progress := process_in_progress s;
     pulse_timer_id := pulse_timer_id s;
     current_package_name := current_package_name s;
     current_process := current_process s; action_type := action_type s;
     aur_temp_dir := aur_temp_dir s; aur_pkg_name := aur_pkg_name s;
     content_stack := x; output_buffer := output_buffer s;
     btn_back_sensitive := btn_back_sensitive s;
     btn_cancel_visible := btn_cancel_visible s; labels := labels s;
     shown := shown s; files := files s; dirs := dirs s; procs := procs s;
     os_calls := os_calls s; os_environ := os_environ s; umask := umask s;
     threads := threads s; idle_queue := idle_queue s; dialogs := dialogs s;
     next_source := next_source s |}.

Definition set_output_buffer (x : string) (s : state) : state :=
  {| user_password := user_password s;
     process_in_progress := process_in_progress s;
     pulse_timer_id := pulse_timer_id s;
     current_package_name := current_package_name s;
     current_process := current_process s; action_type := action_type s;
     aur_temp_dir := aur_temp_dir s; aur_pkg_name := aur_pkg_name s;
     content_stack := content_stack s; output_buffer := x;
     btn_back_sensitive := btn_back_sensitive s;
     btn_cancel_visible := btn_cancel_visible s; labels := labels s;
     shown := shown s; files := files s; dirs := dirs s; procs := procs s;
     os_calls := os_calls s; os_environ := os_environ s; umask := umask s;
     threads := threads s; idle_queue := idle_queue s; dialogs := dialogs s;
     next_source := next_source s |}.

Definition set_btn_back_sensitive (x : bool) (s : state) : state :=
  {| user_password := user_password s;
     process_in_progress := process_in_progress s;
     pulse_timer_id := pulse_timer_id s;
     current_package_name := current_package_name s;
     current_process := current_process s; action_type := action_type s;
     aur_temp_dir := aur_temp_dir s; aur_pkg_name := aur_pkg_name s;
     content_stack := content_stack s; output_buffer := output_buffer s;
     btn_back_sensitive := x; btn_cancel_visible := btn_cancel_visible s;
     labels := labels s; shown := shown s; files := files s; dirs := dirs s;
     procs := procs s; os_calls := os_calls s; os_environ := os_environ s;
     umask := umask s; threads := threads s; idle_queue := idle_queue s;
     dialogs := dialogs s; next_source := next_source s |}.

Definition set_btn_cancel_visible (x : bool) (s : state) : state :=
  {| user_password := user_password s;
     process_in_progress := process_in_progress s;
     pulse_timer_id := pulse_timer_id s;
     current_package_name := current_package_name s;
     current_process := current_process s; action_type := action_type s;
     aur_temp_dir := aur_temp_dir s; aur_pkg_name := aur_pkg_name s;
     content_stack := content_stack s; output_buffer := output_buffer s;
     btn_back_sensitive := btn_back_sensitive s; btn_cancel_visible := x;
     labels := labels s; shown := shown s; files := files s; dirs := dirs s;
     procs := procs s; os_calls := os_calls s; os_environ := os_environ s;
     umask := umask s; threads := threads s; idle_queue := idle_queue s;
     dialogs := dialogs s; next_source := next_source s |}.

Definition set_labels (x : gmap string string) (s : state) : state :=
  {| user_password := user_password s;
     process_in_progress := process_in_progress s;
     pulse_timer_id := pulse_timer_id s;
     current_package_name := current_package_name s;
     current_process := current_process s; action_type := action_type s;
     aur_temp_dir := aur_temp_dir s; aur_pkg_name := aur_pkg_name s;
     content_stack := content_stack s; output_buffer := output_buffer s;
     btn_back_sensitive := btn_back_sensitive s;
     btn_cancel_visible := btn_cancel_visible s; labels := x;
     shown := shown s; files := files s; dirs := dirs s; procs := procs s;
     os_calls := os_calls s; os_environ := os_environ s; umask := umask s;
     threads := threads s; idle_queue := idle_queue s; dialogs := dialogs s;
     next_source := next_source s |}.

Definition set_shown (x : gmap string bool) (s : state) : state :=
  {| user_password := user_password s;
     process_in_progress := process_in_progress s;
     pulse_timer_id := pulse_timer_id s;
     current_package_name := current_package_name s;
     current_process := current_process s; action_type := action_type s;
     aur_temp_dir := aur_temp_dir s; aur_pkg_name := aur_pkg_name s;
     content_stack := content_stack s; output_buffer := output_buffer s;
     btn_back_sensitive := btn_back_sensitive s;
     btn_cancel_visible := btn_cancel_visible s; labels := labels s;
     shown := x; files := files s; dirs := dirs s; procs := procs s;
     os_calls := os_calls s; os_environ := os_environ s; umask := umask s;
     threads := threads s; idle_queue := idle_queue s; dialogs := dialogs s;
     next_source := next_source s |}.

Definition set_files (x : gmap string file) (s : state) : state :=
  {| user_password := user_password s;
     process_in_progress := process_in_progress s;
     pulse_timer_id := pulse_timer_id s;
     current_package_name := current_package_name s;
     current_process := current_process s; action_type := action_type s;
     aur_temp_dir := aur_temp_dir s; aur_pkg_name := aur_pkg_name s;
     content_stack := content_stack s; output_buffer := output_buffer s;
     btn_back_sensitive := btn_back_sensitive s;
     btn_cancel_visible := btn_cancel_visible s; labels := labels s;
     shown := shown s; files := x; dirs := dirs s; procs := procs s;
     os_calls := os_calls s; os_environ := os_environ s; umask := umask s;
     threads := threads s; idle_queue := idle_queue s; dialogs := dialogs s;
     next_source := next_source s |}.

Definition set_dirs (x : gset string) (s : state) : state :=
  {| user_password := user_password s;
     process_in_progress := process_in_progress s;
     pulse_timer_id := pulse_timer_id s;
     current_package_name := current_package_name s;
     current_process := current_process s; action_type := action_type s;
     aur_temp_dir := aur_temp_dir s; aur_pkg_name := aur_pkg_name s;
     content_stack := content_stack s; output_buffer := output_buffer s;
     btn_back_sensitive := btn_back_sensitive s;
     btn_cancel_visible := btn_cancel_visible s; labels := labels s;
     shown := shown s; files := files s; dirs := x; procs := procs s;
     os_calls := os_calls s; os_environ := os_environ s; umask := umask s;
     threads := threads s; idle_queue := idle_queue s; dialogs := dialogs s;
     next_source := next_source s |}.

Definition set_procs (x : list popen) (s : state) : state :=
  {| user_password := user_password s;
     process_in_progress := process_in_progress s;
     pulse_timer_id := pulse_timer_id s;
     current_package_name := current_package_name s;
     current_process := current_process s; action_type := action_type s;
     aur_temp_dir := aur_temp_dir s; aur_pkg_name := aur_pkg_name s;
     content_stack := content_stack s; output_buffer := output_buffer s;
     btn_back_sensitive := btn_back_sensitive s;
     btn_cancel_visible := btn_cancel_visible s; labels := labels s;
     shown := shown s; files := files s; dirs := dirs s; procs := x;
     os_calls := os_calls s; os_environ := os_environ s; umask := umask s;
     threads := threads s; idle_queue := idle_queue s; dialogs := dialogs s;
     next_source := next_source s |}.

Definition set_os_calls (x : list os_call) (s : state) : state :=
  {| user_password := user_password s;
     process_in_progress := process_in_progress s;
     pulse_timer_id := pulse_timer_id s;
     current_package_name := current_package_name s;
     current_process := current_process s; action_type := action_type s;
     aur_temp_dir := aur_temp_dir s; aur_pkg_name := aur_pkg_name s;
     content_stack := content_stack s; output_buffer := output_buffer s;
     btn_back_sensitive := btn_back_sensitive s;
     btn_cancel_visible := btn_cancel_visible s; labels := labels s;
     shown := shown s; files := files s; dirs := dirs s; procs := procs s;
     os_calls := x; os_environ := os_environ s; umask := umask s;
     threads := threads s; idle_queue := idle_queue s; dialogs := dialogs s;
     next_source := next_source s |}.

Definition set_threads (x : list thread) (s : state) : state :=
  {| user_password := user_password s;
     process_in_progress := process_in_progress s;
     pulse_timer_id := pulse_timer_id s;
     current_package_name := current_package_name s;
     current_process := current_process s; action_type := action_type s;
     aur_temp_dir := aur_temp_dir s; aur_pkg_name := aur_pkg_name s;
     content_stack := content_stack s; output_buffer := output_buffer s;
     btn_back_sensitive := btn_back_sensitive s;
     btn_cancel_visible := btn_cancel_visible s; labels := labels s;
     shown := shown s; files := files s; dirs := dirs s; procs := procs s;
     os_calls := os_calls s; os_environ := os_environ s; umask := umask s;
     threads := x; idle_queue := idle_queue s; dialogs := dialogs s;
     next_source := next_source s |}.

Definition set_idle_queue (x : list callback) (s : state) : state :=
  {| user_password := user_password s;
     process_in_progress := process_in_progress s;
     pulse_timer_id := pulse_timer_id s;
     current_package_name := current_package_name s;
     current_process := current_process s; action_type := action_type s;
     aur_temp_dir := aur_temp_dir s; aur_pkg_name := aur_pkg_name s;
     content_stack := content_stack s; output_buffer := output_buffer s;
     btn_back_sensitive := btn_back_sensitive s;
     btn_cancel_visible := btn_cancel_visible s; labels := labels s;
     shown := shown s; files := files s; dirs := dirs s; procs := procs s;
     os_calls := os_calls s; os_environ := os_environ s; umask := umask s;
     threads := threads s; idle_queue := x; dialogs := dialogs s;
     next_source := next_source s |}.

Definition set_dialogs (x : list dialog) (s : state) : state :=
  {| user_password := user_password s;
     process_in_progress := process_in_progress s;
     pulse_timer_id := pulse_timer_id s;
     current_package_name := current_package_name s;
     current_process := current_process s; action_type := action_type s;
     aur_temp_dir := aur_temp_dir s; aur_pkg_name := aur_pkg_name s;
     content_stack := content_stack s; output_buffer := output_buffer s;
     btn_back_sensitive := btn_back_sensitive s;
     btn_cancel_visible := btn_cancel_visible s; labels := labels s;
     shown := shown s; files := files s; dirs := dirs s; procs := procs s;
     os_calls := os_calls s; os_environ := os_environ s; umask := umask s;
     threads := threads s; idle_queue := idle_queue s; dialogs := x;
     next_source := next_source s |}.

Definition set_next_source (x : nat) (s : state) : state :=
  {| user_password := user_password s;
     process_in_progress := process_in_progress s;
     pulse_timer_id := pulse_timer_id s;
     current_package_name := current_package_name s;
     current_process := current_process s; action_type := action_type s;
     aur_temp_dir := aur_temp_dir s; aur_pkg_name := aur_pkg_name s;
     content_stack := content_stack s; output_buffer := output_buffer s;
     btn_back_sensitive := btn_back_sensitive s;
     btn_cancel_visible := btn_cancel_visible s; labels := labels s;
     shown := shown s; files := files s; dirs := dirs s; procs := procs s;
     os_calls := os_calls s; os_environ := os_environ s; umask := umask s;
     threads := threads s; idle_queue := idle_queue s; dialogs := dialogs s;
     next_source := x |}.

(** *** Helpers for the library calls *)

Definition mode_0o700 : Z := 7 * 64.
Definition mode_0o666 : Z := 6 * 64 + 6 * 8 + 6.

(** [if self.user_password] *)
Definition password_given (s : state) : bool :=
  match user_password s with
  | Some pw => PyStr.truthy pw
  | None => false
  end.

(** [os.path.exists] *)
Definition path_exists (p : string) (s : state) : bool :=
  bool_decide (p ∈ dirs s) || bool_decide (is_Some (files s !! p)).

(** Is [p] the directory [d] or something below it? *)
Definition under (d p : string) : bool :=
  String.eqb p d || PyStr.startswith (d ++ "/") p.

(** [shutil.rmtree], taken to succeed *)
Definition rmtree (d : string) (s : state) : state :=
  set_dirs (filter (fun p => under d p = false) (dirs s))
    (set_files (filter (fun kv => under d (fst kv) = false) (files s)) s).

(** [tempfile.mkdtemp], which returned [d] *)
Definition mkdtemp (d : string) (s : state) : state :=
  set_dirs ({[ d ]} ∪ dirs s) s.

(** [with open(path, "w") as f: f.write(text)]: a new file gets the
    mode that the umask leaves, an old one keeps its mode. *)
Definition write_file (path text : string) (s : state) : state :=
  let m := match files s !! path with
           | Some f => mode f
           | None => Z.land mode_0o666 (Z.lnot (umask s))
           end in
  set_files (<[ path := File text m ]> (files s)) s.

(** [os.chmod] *)
Definition chmod (path : string) (m : Z) (s : state) : state :=
  set_files (alter (fun f => File (content f) m) path (files s)) s.

(** [Popen.send_signal]: [os.kill] on the pid of the child, unless the
    child has been waited for. *)
Definition send_signal (h : nat) (sig : signal) (s : state) : state :=
  match procs s !! h with
  | Some p =>
      match returncode p with
      | None => set_os_calls (os_calls s ++ [os_kill (pid p) sig]) s
      | Some _ => s
      end
  | None => s
  end.

(** [template.format(arg)] for a template with one [{}] *)
Fixpoint format1 (template arg : string) : string :=
  match template with
  | EmptyString => EmptyString
  | String "{" (String "}" rest) => arg ++ rest
  | String c rest => String c (format1 rest arg)
  end.

Definition set_label (widget text : string) (s : state) : state :=
  set_labels (<[ widget := text ]> (labels s)) s.

Definition set_shown_of (widget : string) (b : bool) (s : state) : state :=
  set_shown (<[ widget := b ]> (shown s)) s.

(** [threading.Thread(target=..., daemon=True).start()] *)
Definition start_thread (t : thread) (s : state) : state :=
  set_threads (threads s ++ [t]) s.

(** [GLib.idle_add] *)
Definition idle_add (c : callback) (s : state) : state :=
  set_idle_queue (idle_queue s ++ [c]) s.

(** [self.pulse_timer_id = GLib.timeout_add(100, self.pulse_progress)] *)
Definition start_pulse (s : state) : state :=
  set_next_source (S (next_source s)) (set_pulse_timer_id (Some (next_source s)) s).

(** *** The paths and texts of the sudo bridge *)

Definition askpass_script : string := "/tmp/" ++ APP_NAME ++ "-askpass.sh".
Definition sudo_wrapper : string := "/tmp/" ++ APP_NAME ++ "-sudo.sh".

(** [f"{APP_NAME.upper().replace('-', '_')}_SUDO_PW"] *)
Definition env_var_name : string :=
  PyStr.replace "-" "_" (PyStr.upper APP_NAME) ++ "_SUDO_PW".

Definition askpass_text : string :=
  "#!/bin/sh" ++ nl ++ "echo " ++ dq ++ "$" ++ env_var_name ++ dq ++ nl.

Definition sudo_wrapper_text : string :=
  "#!/bin/sh" ++ nl ++ "export SUDO_ASKPASS='" ++ askpass_script ++ "'" ++ nl
  ++ "exec sudo -A " ++ dq ++ "$@" ++ dq ++ nl.

(** [setup_sudo_env] *)
Definition setup_sudo_env (s : state) : state :=
  let s := write_file askpass_script askpass_text s in
  let s := chmod askpass_script mode_0o700 s in
  let s := write_file sudo_wrapper sudo_wrapper_text s in
  chmod sudo_wrapper mode_0o700 s.

(** [append_log] *)
Definition append_log (text : string) (s : state) : state :=
  set_output_buffer (output_buffer s ++ text) s.

(** *** The handlers of the main loop *)

Section Handlers.

(** The message catalogue: [_ = gettext.gettext] *)
Variable gettext : string -> string.

(** [on_cancel_clicked] *)
Definition on_cancel_clicked (s : state) : state :=
  match current_process s with
  | Some h =>
      let s := append_log (nl ++ gettext "--- Cancelling operation... ---" ++ nl) s in
      send_signal h SIGINT s
  | None => s
  end.

(** [on_toggle_details] *)
Definition on_toggle_details (s : state) : state :=
  match shown s !! "revealer_details" with
  | Some true =>
      set_label "btn_details" (gettext "Show Details")
        (set_shown_of "revealer_details" false s)
  | _ =>
      set_label "btn_details" (gettext "Hide Details")
        (set_shown_of "revealer_details" true s)
  end.

(** [on_view_log_clicked] *)
Definition on_view_log_clicked (s : state) : state :=
  let s := set_content_stack progress_view s in
  let s := set_shown_of "revealer_details" true s in
  let s := set_label "btn_details" (gettext "Hide Details") s in
  let s := set_shown_of "progress_bar" false s in
  let s := set_label "lbl_progress_status" (gettext "Transaction Log") s in
  let s := set_btn_back_sensitive true s in
  let s := set_btn_cancel_visible false s in
  match action_type s with
  | Some remove =>
      set_label "progress_title"
        (format1 (gettext "Removed {}") (current_package_name s)) s
  | _ =>
      set_label "progress_title"
        (format1 (gettext "Installed {}") (current_package_name s)) s
  end.

(** [on_back_clicked] *)
Definition on_back_clicked (s : state) : state :=
  set_content_stack search_view s.

(** [run_transaction] *)
Definition run_transaction (package_name : string) (s : state) : state :=
  let s := setup_sudo_env s in
  let s := set_content_stack progress_view s in
  let s := set_output_buffer "" s in
  let s := set_btn_back_sensitive false s in
  let s := set_process_in_progress true s in
  let s := set_current_package_name package_name s in
  let s := set_shown_of "progress_bar" true s in
  let s := set_shown_of "revealer_details" false s in
  let s := set_label "btn_details" (gettext "Show Details") s in
  let s := set_btn_cancel_visible true s in
  let s := start_pulse s in
  match action_type s with
  | Some remove =>
      let s := set_label "progress_title"
                 (format1 (gettext "Removing {}...") package_name) s in
      let s := set_label "lbl_progress_status" (gettext "Removing package...") s in
      let cmd := (sudo_wrapper ++ " pacman -Rns --noconfirm " ++ package_name)%string in
      start_thread (ExecStart cmd package_name) s
  | _ =>
      let s := set_label "progress_title"
                 (format1 (gettext "Installing {}...") package_name) s in
      let s := set_label "lbl_progress_status"
                 (gettext "Downloading and installing...") s in
      let cmd :=
        (sudo_wrapper ++ " pacman -S --noconfirm --needed " ++ package_name)%string in
      start_thread (ExecStart cmd package_name) s
  end.

(** [run_aur_build]; the two AUR attributes exist whenever the review
    page, the only way here, has been shown. *)
Definition run_aur_build (s : state) : state :=
  let aur_pkg := default "" (aur_pkg_name s) in
  let s := setup_sudo_env s in
  let s := set_content_stack progress_view s in
  let s := set_output_buffer "" s in
  let s := set_label "progress_title" (format1 (gettext "Building {}...") aur_pkg) s in
  let s := set_shown_of "progress_bar" true s in
  let s := set_shown_of "revealer_details" false s in
  let s := set_label "btn_details" (gettext "Show Details") s in
  let s := set_label "lbl_progress_status" (gettext "Compiling package...") s in
  let s := set_btn_cancel_visible true s in
  let s := start_pulse s in
  let s := set_current_package_name aur_pkg s in
  let cmd := ("cd " ++ default "" (aur_temp_dir s) ++ " && export SUDO_ASKPASS='"
              ++ askpass_script ++ "' && makepkg -si --noconfirm")%string in
  start_thread (ExecStart cmd aur_pkg) s.

(** [prompt_for_password], up to [dialog.present()] *)
Definition prompt_for_password (callback_success : continuation) (s : state) : state :=
  let action_label :=
    match action_type s with
    | Some remove => gettext "remove"
    | _ => gettext "install"
    end in
  let body_text :=
    format1 (gettext "Please enter your password to {} this package.") action_label in
  set_dialogs (dialogs s ++ [Dialog body_text callback_success]) s.

Definition call_continuation (k : continuation) (s : state) : state :=
  match k with
  | then_run_transaction package_name => run_transaction package_name s
  | then_run_aur_build => run_aur_build s
  end.

(** [on_response] of the dialog [d], the oldest one open, with the
    response id and the text of the password entry *)
Definition on_response (d : dialog) (response entry_text : string) (s : state) : state :=
  let s :=
    if String.eqb response "unlock" then
      if PyStr.truthy entry_text then
        call_continuation (callback_success d)
          (set_user_password (Some entry_text) s)
      else s
    else s in
  set_dialogs (tail (dialogs s)) s.

(** [start_aur_review_process], with [tmp] the directory that
    [mkdtemp] made *)
Definition start_aur_review_process (package_name tmp : string) (s : state) : state :=
  let s := set_aur_temp_dir (Some tmp) (mkdtemp tmp s) in
  let s := set_aur_pkg_name (Some package_name) s in
  let s := set_current_package_name package_name s in
  let s := set_content_stack progress_view s in
  let s := set_output_buffer ("Fetching " ++ package_name ++ " from AUR...") s in
  let s := set_btn_back_sensitive false s in
  let s := set_btn_cancel_visible true s in
  let s := set_label "lbl_progress_status" (gettext "Cloning repository...") s in
  start_thread (CloneStart package_name) s.

(** [initiate_install] *)
Definition initiate_install (p : Search.pkg) (tmp : string) (s : state) : state :=
  let s := set_action_type (Some install) s in
  if Search.is_aur p then start_aur_review_process (Search.name p) tmp s
  else if negb (password_given s) then
    prompt_for_password (then_run_transaction (Search.name p)) s
  else run_transaction (Search.name p) s.

(** [initiate_remove] *)
Definition initiate_remove (package_name : string) (s : state) : state :=
  let s := set_action_type (Some remove) s in
  if negb (password_given s) then
    prompt_for_password (then_run_transaction package_name) s
  else run_transaction package_name s.

(** [show_pkgbuild_content] *)
Definition show_pkgbuild_content (text : string) (s : state) : state :=
  let s := set_label "pkgbuild_buffer" text s in
  let s := set_content_stack pkgbuild_view s in
  set_current_process None s.

(** [show_aur_error] *)
Definition show_aur_error (message : string) (s : state) : state :=
  let s := set_output_buffer message s in
  let s := set_btn_back_sensitive true s in
  set_btn_cancel_visible false s.

(** [on_pkgbuild_cancel] *)
Definition on_pkgbuild_cancel (s : state) : state :=
  let s := match aur_temp_dir s with
           | Some d => if path_exists d s then rmtree d s else s
           | None => s
           end in
  set_content_stack search_view s.

(** [on_pkgbuild_proceed] *)
Definition on_pkgbuild_proceed (s : state) : state :=
  if negb (password_given s) then prompt_for_password then_run_aur_build s
  else run_aur_build s.

(** [on_process_finished]. Emptying the search entry and the result
    list belongs to the search view and is not repeated here. *)
Definition on_process_finished (success : bool) (pkg_name : string) (s : state) : state :=
  let s := set_process_in_progress false s in
  let s := set_current_process None s in
  let s := match pulse_timer_id s with
           | Some _ => set_pulse_timer_id None s
           | None => s
           end in
  let s := match aur_temp_dir s with
           | Some d => if path_exists d s then rmtree d s else s
           | None => s
           end in
  if success then
    let s := set_label "info_icon" "emblem-ok" s in
    let s := match action_type s with
             | Some remove =>
                 set_label "info_text"
                   (format1 (gettext "Successfully removed {}") pkg_name) s
             | _ =>
                 set_label "info_text"
                   (format1 (gettext "Successfully installed {}") pkg_name) s
             end in
    set_content_stack info_view s
  else
    let s := set_shown_of "revealer_details" true s in
    let s := set_label "btn_details" (gettext "Hide Details") s in
    let s := set_label "lbl_progress_status" (gettext "Failed or Cancelled.") s in
    let s := set_btn_back_sensitive true s in
    let s := set_btn_cancel_visible false s in
    append_log (nl ++ nl ++ gettext "Transaction Failed.") s.

(** Running one idle call *)
Definition run_callback (c : callback) (s : state) : state :=
  match c with
  | call_append_log text => append_log text s
  | call_on_process_finished success pkg_name =>
      on_process_finished success pkg_name s
  | call_show_pkgbuild_content text => show_pkgbuild_content text s
  | call_show_aur_error message => show_aur_error message s
  end.

(** *** The worker threads *)

Definition set_thread (tid : nat) (t : thread) (s : state) : state :=
  set_threads (<[ tid := t ]> (threads s)) s.

(** [self.current_process = subprocess.Popen(...)], which gave a child
    with process id [new_pid] *)
Definition popen_ok (new_pid : nat) (argv : list string) (sh : bool)
  (e : option (gmap string string)) (s : state) : state :=
  set_current_process (Some (length (procs s)))
    (set_procs (procs s ++ [Popen new_pid argv sh e None]) s).

(** [p.wait()] on the process [h], which ends with [rc] unless it has
    been waited for before *)
Definition wait (h : nat) (rc : Z) (s : state) : Z * state :=
  match procs s !! h with
  | Some p =>
      match returncode p with
      | Some r => (r, s)
      | None =>
          (rc, set_procs
                 (<[ h := Popen (pid p) (args p) (shell p) (env p) (Some rc) ]>
                    (procs s)) s)
      end
  | None => (rc, s)
  end.

(** Lines 850 to 853: the environment given to the child *)
Definition child_env (s : state) : gmap string string :=
  match user_password s with
  | Some pw =>
      if PyStr.truthy pw then <[ env_var_name := pw ]> (os_environ s)
      else os_environ s
  | None => os_environ s
  end.

(** The handler of line 868, then line 872 *)
Definition execute_shell_failed (tid : nat) (err pkg_name : string) (s : state) : state :=
  let s := idle_add (call_append_log (nl ++ "Error: " ++ err)) s in
  let s := idle_add (call_on_process_finished false pkg_name) s in
  set_thread tid Finished s.

(** The handler of line 730 *)
Definition clone_task_failed (tid : nat) (err : string) (s : state) : state :=
  set_thread tid Finished (idle_add (call_show_aur_error ("Error: " ++ err)) s).

(** [os.path.join(self.aur_temp_dir, "PKGBUILD")] *)
Definition pkgbuild_path (s : state) : string :=
  default "" (aur_temp_dir s) ++ "/PKGBUILD".

Definition mode_0o644 : Z := 6 * 64 + 4 * 8 + 4.

(** What the outside world and the user can make happen. For a worker
    thread: [Popen] returns or raises, [readline] returns a line or
    raises, the output ends and [wait] returns, the clone ends (with
    the text of the PKGBUILD it left, if any). *)
Inductive event :=
| ClickInstall (p : Search.pkg) (tmp : string)
| ClickRemove (package_name : string)
| Respond (response entry_text : string)
| PkgbuildCancel
| PkgbuildProceed
| CancelClick
| BackClick
| ViewLogClick
| ToggleDetails
| IdleRun
| PopenOk (tid new_pid : nat)
| PopenFail (tid : nat) (err : string)
| ReadLine (tid : nat) (line : string)
| ReadFail (tid : nat) (err : string)
| Eof (tid : nat) (rc : Z)
| CloneExit (tid : nat) (rc : Z) (pkgbuild : option string).

(** One step of a worker thread *)
Definition thread_step (tid : nat) (t : thread) (e : event) (s : state)
  : option state :=
  match e, t with
  | PopenOk _ new_pid, ExecStart command pkg_name =>
      (* lines 850 to 858 *)
      let h := length (procs s) in
      Some (set_thread tid (ExecRead pkg_name h)
              (popen_ok new_pid [command] true (Some (child_env s)) s))
  | PopenFail _ err, ExecStart command pkg_name =>
      Some (execute_shell_failed tid err pkg_name s)
  | ReadLine _ line, ExecRead pkg_name child =>
      (* lines 860 to 862 *)
      if PyStr.truthy line then Some (idle_add (call_append_log line) s)
      else None
  | ReadFail _ err, ExecRead pkg_name child =>
      Some (execute_shell_failed tid err pkg_name s)
  | Eof _ rc, ExecRead pkg_name child =>
      (* lines 864 to 866, then line 872 *)
      match current_process s with
      | None =>
          Some (execute_shell_failed tid
                  "'NoneType' object has no attribute 'stdout'" pkg_name s)
      | Some h =>
          let '(rc, s) := wait h rc s in
          let success := (rc =? 0)%Z in
          Some (set_thread tid Finished
                  (idle_add (call_on_process_finished success pkg_name) s))
      end
  | PopenOk _ new_pid, CloneStart package_name =>
      (* lines 715 and 716 *)
      let cmd := ["git"; "clone";
                  ("https://aur.archlinux.org/" ++ package_name ++ ".git")%string;
                  default "" (aur_temp_dir s)] in
      Some (set_thread tid CloneWait (popen_ok new_pid cmd false None s))
  | PopenFail _ err, CloneStart package_name =>
      Some (clone_task_failed tid err s)
  | CloneExit _ rc pkgbuild, CloneWait =>
      (* lines 717 to 728 *)
      match current_process s with
      | None =>
          Some (clone_task_failed tid
                  "'NoneType' object has no attribute 'wait'" s)
      | Some h =>
          let '(rc, s) := wait h rc s in
          let s :=
            match pkgbuild with
            | Some text =>
                if (rc =? 0)%Z then
                  set_files (<[ pkgbuild_path s := File text mode_0o644 ]> (files s)) s
                else s
            | None => s
            end in
          let c :=
            if (rc =? 0)%Z then
              match files s !! pkgbuild_path s with
              | Some f => call_show_pkgbuild_content (content f)
              | None =>
                  call_show_aur_error "PKGBUILD not found in cloned repository."
              end
            else call_show_aur_error "Clone failed or cancelled." in
          Some (set_thread tid Finished (idle_add c s))
      end
  | _, _ => None
  end.

(** *** The whole: what the user interface lets through *)

(** Is [v] the visible child of [content_stack]? *)
Definition showing (v : view) (s : state) : bool :=
  match content_stack s, v with
  | warning_view, warning_view | search_view, search_view
  | pkgbuild_view, pkgbuild_view | progress_view, progress_view
  | info_view, info_view => true
  | _, _ => false
  end.

(** Is no password dialog open? The dialog is modal: while it is open
    the window behind it takes no input. *)
Definition no_dialog (s : state) : bool :=
  match dialogs s with
  | [] => true
  | _ :: _ => false
  end.

(** Is the button behind the event on the visible page, visible and
    sensitive, with no modal dialog in front of the window? *)
Definition enabled (s : state) (e : event) : bool :=
  match e with
  | ClickInstall _ _ | ClickRemove _ =>
      showing search_view s && no_dialog s
  | PkgbuildCancel | PkgbuildProceed =>
      showing pkgbuild_view s && no_dialog s
  | CancelClick =>
      showing progress_view s && btn_cancel_visible s
      && no_dialog s
  | BackClick =>
      ((showing progress_view s && btn_back_sensitive s)
       || showing info_view s)
      && no_dialog s
  | ViewLogClick =>
      showing info_view s && no_dialog s
  | ToggleDetails =>
      showing progress_view s && no_dialog s
  | _ => true
  end.

(** The handler or thread step behind an event, whether or not the
    user interface lets the event through *)
Definition handle (s : state) (e : event) : option state :=
  match e with
  | ClickInstall p tmp => Some (initiate_install p tmp s)
  | ClickRemove package_name => Some (initiate_remove package_name s)
  | Respond response entry_text =>
      match dialogs s with
      | d :: _ => Some (on_response d response entry_text s)
      | [] => None
      end
  | PkgbuildCancel => Some (on_pkgbuild_cancel s)
  | PkgbuildProceed => Some (on_pkgbuild_proceed s)
  | CancelClick => Some (on_cancel_clicked s)
  | BackClick => Some (on_back_clicked s)
  | ViewLogClick => Some (on_view_log_clicked s)
  | ToggleDetails => Some (on_toggle_details s)
  | IdleRun =>
      match idle_queue s with
      | c :: rest => Some (run_callback c (set_idle_queue rest s))
      | [] => None
      end
  | PopenOk tid _ | PopenFail tid _ | ReadLine tid _ | ReadFail tid _
  | Eof tid _ | CloneExit tid _ _ =>
      match threads s !! tid with
      | Some t => thread_step tid t e s
      | None => None
      end
  end.

(** One step of the widget as the user can drive it *)
Definition step (s : state) (e : event) : option state :=
  if enabled s e then handle s e else None.

Fixpoint run (s : state) (es : list event) : option state :=
  match es with
  | [] => Some s
  | e :: es' =>
      match step s e with
      | Some s' => run s' es'
      | None => None
      end
  end.

(** The widget once [__init__] has run and the search page is up, in a
    process with the given environment, umask and files. *)
Definition boot (environ : gmap string string) (mask : Z)
  (files0 : gmap string file) (dirs0 : gset string) : state :=
  {| user_password := None; process_in_progress := false;
     pulse_timer_id := None; current_package_name := "";
     current_process := None; action_type := None;
     aur_temp_dir := None; aur_pkg_name := None;
     content_stack := search_view; output_buffer := "";
     btn_back_sensitive := false; btn_cancel_visible := true;
     labels := {[ "progress_title" := gettext "Processing...";
                  "lbl_progress_status" := gettext "Please wait...";
                  "btn_details" := gettext "Show Details" ]};
     shown := {[ "progress_bar" := true; "revealer_details" := false ]};
     files := files0; dirs := dirs0; procs := []; os_calls := [];
     os_environ := environ; umask := mask;
     threads := []; idle_queue := []; dialogs := []; next_source := 1 |}.

End Handlers.

(** *** What the serialisation of transactions rests on *)

Definition is_finished (t : thread) : bool :=
  match t with Finished => true | _ => false end.

Definition is_start (t : thread) : bool :=
  match t with ExecStart _ _ | CloneStart _ => true | _ => false end.

(** A child that has been started and not waited for *)
Definition is_running (p : popen) : bool :=
  match returncode p with None => true | Some _ => false end.

Definition is_log (c : callback) : bool :=
  match c with call_append_log _ => true | _ => false end.

(** Does [readline] raise? *)
Definition is_read_fail (e : event) : bool :=
  match e with ReadFail _ _ => true | _ => false end.

(** A run in which reading the output of a child never raises *)
Definition no_read_failure (es : list event) : bool :=
  forallb (fun e => negb (is_read_fail e)) es.

(** No two worker threads are alive at once. *)
Definition one_thread_at_most (s : state) : Prop :=
  forall i j t u, threads s !! i = Some t -> threads s !! j = Some u ->
    is_finished t = false -> is_finished u = false -> i = j.

(** No two child processes are running at once. *)
Definition one_child_at_most (s : state) : Prop :=
  forall i j p q, procs s !! i = Some p -> procs s !! j = Some q ->
    is_running p = true -> is_running q = true -> i = j.

(** A worker thread is alive or a child process is running. *)
Definition busy (s : state) : bool :=
  existsb (fun t => negb (is_finished t)) (threads s)
  || existsb is_running (procs s).

(** While the supervisor is busy, the buttons that submit an intent are
    out of reach. *)
Definition intents_blocked (s : state) : Prop :=
  busy s = true ->
  forall p tmp package_name,
    enabled s (ClickInstall p tmp) = false /\
    enabled s (ClickRemove package_name) = false /\
    enabled s PkgbuildProceed = false.

Definition all_finished (ths : list thread) : Prop :=
  Forall (fun t => is_finished t = true) ths.

Definition all_exited (ps : list popen) : Prop :=
  Forall (fun p => is_running p = false) ps.

Definition sole_thread (tid : nat) (t : thread) (ths : list thread) : Prop :=
  ths !! tid = Some t /\
  forall j u, ths !! j = Some u -> j <> tid -> is_finished u = true.

Definition sole_child (h : nat) (ps : list popen) : Prop :=
  (exists p, ps !! h = Some p /\ is_running p = true) /\
  forall j q, ps !! j = Some q -> j <> h -> is_running q = false.

(** The progress page is up with its back button insensitive, and no
    dialog is open. *)
Definition busy_ui (ds : list dialog) (v : view) (back : bool) : Prop :=
  ds = [] /\ v = progress_view /\ back = false.

(** The five phases of the supervisor, over the threads, the idle
    queue, the children, the dialogs, the visible page, the
    sensitivity of the back button and [current_process]. *)
Inductive phase_of (ths : list thread) (q : list callback) (ps : list popen)
  (ds : list dialog) (v : view) (back : bool) (cur : option nat) : Prop :=
| Resting :
    all_finished ths -> q = [] -> all_exited ps -> length ds <= 1 ->
    (v = pkgbuild_view -> back = false) ->
    (forall d, In d ds -> callback_success d = then_run_aur_build -> back = false) ->
    phase_of ths q ps ds v back cur
| Starting tid t :
    sole_thread tid t ths -> is_start t = true -> q = [] -> all_exited ps ->
    busy_ui ds v back ->
    phase_of ths q ps ds v back cur
| Reading tid pkg_name h :
    sole_thread tid (ExecRead pkg_name h) ths -> cur = Some h ->
    sole_child h ps -> Forall (fun c => is_log c = true) q ->
    busy_ui ds v back ->
    phase_of ths q ps ds v back cur
| Cloning tid h :
    sole_thread tid CloneWait ths -> cur = Some h -> sole_child h ps ->
    q = [] -> busy_ui ds v back ->
    phase_of ths q ps ds v back cur
| Draining logs c :
    all_finished ths -> q = logs ++ [c] ->
    Forall (fun c => is_log c = true) logs -> is_log c = false ->
    all_exited ps -> busy_ui ds v back ->
    phase_of ths q ps ds v back cur.

Definition phase (s : state) : Prop :=
  phase_of (threads s) (idle_queue s) (procs s) (dialogs s)
    (content_stack s) (btn_back_sensitive s) (current_process s).

(** The two entry points turn a second intent away: submitted while a
    transaction runs, it starts no worker. *)
Definition rejects_second_intent (gettext : string -> string) : Prop :=
  forall s package_name p tmp,
    busy s = true ->
    threads (initiate_remove gettext package_name s) = threads s /\
    threads (initiate_install gettext p tmp s) = threads s.

(** *** What the operator is told at the end *)

Inductive outcome := Succeeded | Failed.

(** The outcome on display: the info page, to which only a success
    leads, or the failure status on the progress page. *)
Definition outcome_shown (gettext : string -> string) (s : state) : option outcome :=
  if showing info_view s then Some Succeeded
  else
    match labels s !! "lbl_progress_status" with
    | Some l =>
        if String.eqb l (gettext "Failed or Cancelled.") then Some Failed else None
    | None => None
    end.

(** Cancelling signals the process group of the child. *)
Definition cancel_signals_process_group (gettext : string -> string) : Prop :=
  forall s h p,
    current_process s = Some h -> procs s !! h = Some p -> returncode p = None ->
    exists pgid, In (os_killpg pgid SIGINT) (os_calls (on_cancel_clicked gettext s)).

(** *** The credential *)

Definition is_respond (e : event) : bool :=
  match e with Respond _ _ => true | _ => false end.

(** No dialog is open, or one is and no password is cached. *)
Definition prompt_pending (s : state) : Prop :=
  dialogs s = [] \/ (password_given s = false /\ exists d, dialogs s = [d]).

(** The password [pw] is cached and no dialog is open. *)
Definition unlocked (pw : string) (s : state) : Prop :=
  user_password s = Some pw /\ dialogs s = [].

(** *** A removal under way *)

(** The user removes a package, unlocks with a password, and the child
    has been started. *)
Definition demo_unlock : list event :=
  [ClickRemove "vim"; Respond "unlock" "hunter2"].

Definition demo_running : list event := demo_unlock ++ [PopenOk 0 4711].

(** The clone of an AUR package, under way *)
Definition demo_aur_pkg : Search.pkg :=
  Search.Pkg "yay" "AUR" "12.3.5-1" false "Yet another yogurt" true.

Definition demo_cloning : list event :=
  [ClickInstall demo_aur_pkg "/tmp/linpama_aur_k3x9"; PopenOk 0 4242].

(** [gettext] with no catalogue installed returns the message id. *)
Definition no_catalogue (msgid : string) : string := msgid.

(** A fresh widget: empty environment, umask 0o022, no files *)
Definition demo_boot : state := boot no_catalogue ∅ 18 ∅ ∅.

Definition demo_unlocked : state :=
  default demo_boot (run no_catalogue demo_boot demo_unlock).

Definition demo_child_running : state :=
  default demo_boot (run no_catalogue demo_boot demo_running).

Definition demo_clone_running : state :=
  default demo_boot (run no_catalogue demo_boot demo_cloning).

(** The removal fails while its output is read, the user goes back and
    removes another package. *)
Definition demo_read_failure : list event :=
  demo_running ++
  [ReadFail 0 "'utf-8' codec can't decode byte 0xe9"; IdleRun; IdleRun;
   BackClick; ClickRemove "gcc"; PopenOk 1 4712].

(** The removal succeeds, the user goes back and removes another
    package. *)
Definition demo_second_removal : list event :=
  [PopenOk 0 4711; Eof 0 0; IdleRun; BackClick; ClickRemove "gcc"].

End Supervisor.

(** ** The text of the local index, record by record *)

Module IndexText.
Import Search.

(** [sep.join(lines)] for a separator of one character *)
Fixpoint join (sep : ascii) (lines : list string) : string :=
  match lines with
  | [] => EmptyString
  | [line] => line
  | line :: rest => line ++ String sep (join sep rest)
  end.

(** The lines [pacman -Ss] prints for one package: the header, and
    under it the description, indented by four spaces, when there is
    one. *)
Definition lines_of (p : pkg) : list string :=
  header_line (repo p) (name p) (version p) (installed p)
  :: match desc p with
     | EmptyString => []
     | d => [("    " ++ d)%string]
     end.

(** The output for a list of packages *)
Definition text_of (ps : list pkg) : string :=
  join LF (flat_map lines_of ps).

(** A record that the index can print and the parser can read back:
    repository, name and version are tokens, the version is not empty,
    the description is one line without white space around it, and the
    record is not marked as an AUR hit. *)
Definition printable (p : pkg) : bool :=
  token (repo p) && token (name p) && token (version p)
  && PyStr.truthy (version p)
  && String.eqb (PyStr.strip (desc p)) (desc p)
  && negb (PyStr.has_char LF (desc p))
  && negb (is_aur p).

(** The header line a record was read from: the record as line 568
    builds it, before a description line is seen. *)
Definition read_from (line : string) (p : pkg) : Prop :=
  is_indented line = false /\ parse_header line = inr (set_desc "" p).

(** Does the body of the loop of line 590 raise [KeyError] on [item]?
    Its name is missing, or its name matches the query and its version
    is missing. *)
Definition raises_key_error (query : string) (item : aur_item) : bool :=
  match Name item with
  | None => true
  | Some nm =>
      PyStr.contains (PyStr.lower query) (PyStr.lower nm)
      && match Version item with None => true | Some _ => false end
  end.

(** The record of lines 592 to 599 for an item of the answer *)
Definition hit_of (query : string) (item : aur_item) (p : pkg) : Prop :=
  Name item = Some (name p) /\ Version item = Some (version p) /\
  desc p = default "" (Description item) /\
  repo p = "AUR" /\ installed p = false /\ is_aur p = true /\
  PyStr.contains (PyStr.lower query) (PyStr.lower (name p)) = true.

(** A line of the output as the index prints it: no line feed, no
    white space at its end, not empty *)
Definition tidy (line : string) : Prop :=
  PyStr.has_char LF line = false /\ PyStr.rstrip line = line /\ line <> "".

(** A record that was read from one of the lines *)
Definition sourced (lines : list string) (p : pkg) : Prop :=
  exists line, In line lines /\ read_from line p.

End IndexText.

(** ** One search thread from start to end *)

Module SearchThread.
Import Search SearchView.

(** The events of a thread that is not interrupted: it enters, the
    local lookup answers, the AUR lookup answers if the box is ticked,
    and it reaches line 603. *)
Definition uninterrupted (tid : nat) (aur : bool) (r : run_result)
  (resp : aur_response) : list event :=
  [WEnter tid; WLocal tid r]
  ++ (if aur then [WRemote tid resp] else [])
  ++ [WPublish tid].

(** What the AUR lookup adds to [results] *)
Definition remote_records (query : string) (resp : aur_response)
  (results : list pkg) : list pkg :=
  match resp with
  | UrlRaises => results
  | AurData ty items => aur_records query ty items results
  end.

(** [Gtk.PositionType] *)
Inductive position := LEFT | RIGHT | TOP | BOTTOM.

(** [on_scroll_edge_reached] *)
Definition on_scroll_edge_reached (pos : position) (s : state) : state :=
  match pos with
  | BOTTOM => load_more_results s
  | _ => s
  end.

(** At most one time-out is armed; it is the one [search_timer] names,
    it carries the current counter, and its query has two characters or
    more. *)
Definition debounced (s : state) : Prop :=
  timeouts s = [] \/
  exists src q,
    timeouts s = [(src, (q, search_counter s))] /\
    search_timer s = Some src /\ 2 <= String.length q.

(** The results for [vi] are written and their display is waiting. *)
Definition demo_waiting : state :=
  (default (init, [])
     (run init [SearchChanged "vi"; TimerFire 1; WEnter 0;
                WLocal 0 (Completed 0 "extra/vi 1:070224-6"); WPublish 0])).1.

End SearchThread.

(** ** Icons *)

Module Icons.

(** [s.endswith(suffix)] *)
Fixpoint endswith (suffix s : string) : bool :=
  String.eqb s suffix ||
  match s with
  | EmptyString => false
  | String _ s' => endswith suffix s'
  end.

(** [load_all_flatpak_ids]: the value of [available_flatpak_ids] after
    the call, given what [subprocess.run] gave back. *)
Definition flatpak_ids (stdout : string) : list string :=
  map PyStr.strip
    (List.filter (fun line => PyStr.truthy (PyStr.strip line))
       (PyStr.split LF stdout)).

Definition load_all_flatpak_ids (res : Search.run_result)
  (available_flatpak_ids : list string) : list string :=
  match res with
  | Search.RunRaises => available_flatpak_ids
  | Search.Completed rc stdout =>
      if (rc =? 0)%Z then flatpak_ids stdout else available_flatpak_ids
  end.

(** The alternatives of the two groups of the pattern of line 483, in
    the order the pattern lists them *)
Definition variants : list string :=
  ["-bin"; "-git"; "-nightly"; "-stable"; "-beta"].

(** [s] without the prefix [p], if it starts with it *)
Fixpoint after_prefix (p s : string) : option string :=
  match p, s with
  | EmptyString, _ => Some s
  | String _ _, EmptyString => None
  | String a p', String b s' =>
      if Ascii.eqb a b then after_prefix p' s' else None
  end.

(** A group of alternatives matched at the start of [s], followed by
    what [ok] accepts: the alternatives are tried in order, and the
    next one is tried when [ok] refuses what is left. The result is
    what follows the match. *)
Fixpoint match_group (alts : list string) (ok : string -> bool) (s : string)
  : option string :=
  match alts with
  | [] => None
  | a :: alts' =>
      match after_prefix a s with
      | Some r => if ok r then Some r else match_group alts' ok s
      | None => match_group alts' ok s
      end
  end.

(** [$] without [re.MULTILINE]: the end of the string, or the line feed
    that ends it *)
Definition at_end (r : string) : bool :=
  String.eqb r "" || String.eqb r nl.

(** [re.sub] from a position that is not the start of the string: only
    the second branch of the pattern, [(...)$], can match there. When
    it does the matched text is dropped, and in what is left, empty or
    one line feed, nothing matches. *)
Fixpoint sub_from (s : string) : string :=
  match match_group variants at_end s with
  | Some r => r
  | None =>
      match s with
      | EmptyString => EmptyString
      | String c s' => String c (sub_from s')
      end
  end.

(** [re.sub(r'^(-bin|...)|(-bin|...)$', '', package_name)]: at the
    start of the string the first branch, [^(...)], is tried first; the
    scan goes on behind its match. *)
Definition clean_name (package_name : string) : string :=
  match match_group variants (fun _ => true) package_name with
  | Some r => sub_from r
  | None => sub_from package_name
  end.

Definition known_mappings : list (string * string) :=
  [("ttf-google-fonts-git", "preferences-desktop-font");
   ("noto-fonts", "preferences-desktop-font");
   ("base-devel", "applications-engineering");
   ("linux", "system-run");
   ("networkmanager", "network-workgroup");
   ("code", "visual-studio-code");
   ("steam-native-runtime", "steam")].

(** [known_mappings[key]], if the key is there *)
Fixpoint mapping (key : string) (d : list (string * string)) : option string :=
  match d with
  | [] => None
  | (k, v) :: rest => if String.eqb k key then Some v else mapping key rest
  end.

(** Lines 490 to 493: is [fid] the name, or does it end with a dot and
    the name, both in lower case? *)
Definition id_matches (pkg_lower fid : string) : bool :=
  let fid_lower := PyStr.lower fid in
  String.eqb fid_lower pkg_lower || endswith ("." ++ pkg_lower) fid_lower.

(** [resolve_icon_name], with [has_icon] the answer of the icon theme *)
Definition resolve_icon_name (has_icon : string -> bool)
  (available_flatpak_ids : list string) (package_name : string) : string :=
  if has_icon package_name then package_name
  else
    let clean := clean_name package_name in
    if negb (String.eqb clean package_name) && has_icon clean then clean
    else
      let pkg_lower := PyStr.lower clean in
      let matches := List.filter (id_matches pkg_lower) available_flatpak_ids in
      match List.find has_icon matches with
      | Some fid => fid
      | None =>
          match mapping package_name known_mappings with
          | Some icon => icon
          | None => "package-x-generic"
          end
      end.

(** The icon names that are returned without asking the theme *)
Definition fallback_icons : list string :=
  map snd known_mappings ++ ["package-x-generic"].

(** The number of hyphens in a string *)
Fixpoint hyphens (s : string) : nat :=
  match s with
  | EmptyString => 0
  | String c s' => (if Ascii.eqb c "-" then 1 else 0) + hyphens s'
  end.

(** An application id as [flatpak remote-ls] prints it: not empty, one
    line, no white space around it *)
Definition is_id (id : string) : Prop :=
  id <> "" /\ PyStr.strip id = id /\ PyStr.has_char LF id = false.

End Icons.

(** ** The rows of the result list *)

Module Rows.
Import Search.

(** What the button of a row calls when it is clicked *)
Inductive click :=
| click_remove (n : string)
| click_install (p : pkg).

(** The parts of the [Adw.ActionRow] that [create_package_row] sets *)
Record row := Row {
  title : string;
  subtitle : string;
  icon_name : string;
  ver_text : string;
  aur_badge : bool;
  action_label : string;
  action_class : string;
  clicked : click
}.

Section Row.
Variable gettext : string -> string.
Variable has_icon : string -> bool.
Variable available_flatpak_ids : list string.

(** [create_package_row] *)
Definition create_package_row (p : pkg) : row :=
  {| title := name p;
     subtitle := desc p;
     icon_name := Icons.resolve_icon_name has_icon available_flatpak_ids (name p);
     ver_text := (version p ++ " (" ++ repo p ++ ")")%string;
     aur_badge := is_aur p;
     action_label := if installed p then gettext "Remove" else gettext "Install";
     action_class :=
       if installed p then "destructive-action" else "suggested-action";
     clicked := if installed p then click_remove (name p) else click_install p |}.

(** The [clicked] handler of the button of a row; [tmp] is the
    directory [mkdtemp] makes if it is called. *)
Definition on_clicked (r : row) (tmp : string) (s : Supervisor.state)
  : Supervisor.state :=
  match clicked r with
  | click_remove n => Supervisor.initiate_remove gettext n s
  | click_install p => Supervisor.initiate_install gettext p tmp s
  end.

End Row.

End Rows.

(** ** The warning page *)

Module Warning.
Import Config.

(** [config[key] = v] on the fields of a dictionary: the value of a key
    that is there is replaced where it stands, a new key goes to the
    end. *)
Fixpoint dict_set (key : string) (v : pyval) (fields : list (string * pyval))
  : list (string * pyval) :=
  match fields with
  | [] => [(key, v)]
  | (k, x) :: rest =>
      if String.eqb k key then (k, v) :: rest
      else (k, x) :: dict_set key v rest
  end.

(** How lines 122 and 123 end: the document is written; [open] raises
    and the file is as it was; or [json.dump] raises after [open] has
    emptied the file, which leaves text that is not a document. *)
Inductive write_outcome := Written | OpenRaises | WriteRaises.

(** Lines 115 to 118: the value of [config] when line 120 is reached,
    unless an exception was raised before *)
Definition loaded (f : config_file) : option pyval :=
  match f with
  | Absent => Some (PyDict [])
  | Unreadable => None
  | Invalid => None
  | Parsed config => Some config
  end.

(** [save_warning_preference]: the file after the call. [makedirs_ok]
    tells whether [os.makedirs] returns. Item assignment raises
    [TypeError] on a document that is not a dictionary. A document that
    was written is read back as it was: [json.load] inverts
    [json.dump] on the values [json.load] builds. *)
Definition save_warning_preference (makedirs_ok : bool) (w : write_outcome)
  (show_warning : pyval) (f : config_file) : config_file :=
  if makedirs_ok then
    match loaded f with
    | Some (PyDict fields) =>
        match w with
        | Written => Parsed (PyDict (dict_set "show_warning" show_warning fields))
        | OpenRaises => f
        | WriteRaises => Invalid
        end
    | _ => f
    end
  else f.

(** [on_warning_continue]: the file and the visible page after the
    click, with [dont_show_check] the state of the check box *)
Definition on_warning_continue (dont_show_check makedirs_ok : bool)
  (w : write_outcome) (f : config_file) : config_file * Supervisor.view :=
  ((if dont_show_check
    then save_warning_preference makedirs_ok w (PyBool false) f
    else f),
   Supervisor.search_view).

(** Lines 82 to 85 of [__init__]: the page the widget opens with *)
Definition first_page (f : config_file) : Supervisor.view :=
  if warning_shown f then Supervisor.warning_view else Supervisor.search_view.

(** [subprocess.call] raises when there is no [which] to run. *)
Inductive exn := FileNotFoundError.

(** [command_exists], with [which] the exit status of [which cmd], or
    [None] when the call raises *)
Definition command_exists (which : string -> option Z) (cmd : string)
  : exn + bool :=
  match which cmd with
  | Some rc => inr (rc =? 0)%Z
  | None => inl FileNotFoundError
  end.

Section Store.
Variable gettext : string -> string.

(** [get_app_store_info]: the command and the label of the store
    button, or [None] for the pair [(None, None)]. Of the Latin-1
    letters, [upper] leaves alone the three whose capital is not
    Latin-1; none of them gives a letter of GNOME or KDE, so the two
    tests are the ones the code makes. *)
Definition get_app_store_info (environ : gmap string string)
  (which : string -> option Z) : exn + option (string * string) :=
  let desktop := PyStr.upper (default "" (environ !! "XDG_CURRENT_DESKTOP")) in
  if PyStr.contains "GNOME" desktop then
    inr (Some ("gnome-software", gettext "Open GNOME Software instead"))
  else if PyStr.contains "KDE" desktop then
    inr (Some ("plasma-discover", gettext "Open Discover instead"))
  else
    match command_exists which "gnome-software" with
    | inl e => inl e
    | inr true =>
        inr (Some ("gnome-software", gettext "Open GNOME Software instead"))
    | inr false =>
        match command_exists which "plasma-discover" with
        | inl e => inl e
        | inr true =>
            inr (Some ("plasma-discover", gettext "Open Discover instead"))
        | inr false => inr None
        end
    end.

End Store.

End Warning.

(** ** More on the supervisor: the log, the details button, the review *)

Module Journal.
Import Supervisor.

(** The text that the [append_log] calls waiting in the idle queue will
    add to the log, in the order of the queue *)
Fixpoint queued_text (q : list callback) : string :=
  match q with
  | [] => EmptyString
  | call_append_log text :: rest => (text ++ queued_text rest)%string
  | _ :: rest => queued_text rest
  end.

(** The output that the worker threads read along a run *)
Fixpoint lines_read (es : list event) : string :=
  match es with
  | [] => EmptyString
  | ReadLine _ line :: rest => (line ++ lines_read rest)%string
  | _ :: rest => lines_read rest
  end.

(** A worker reads a line, or the main loop runs an idle call. *)
Definition reads_or_idles (e : event) : bool :=
  match e with
  | ReadLine _ _ | IdleRun => true
  | _ => false
  end.

(** The label of the details button says what a click will do to the
    revealer. *)
Definition details_label_fits (gettext : string -> string) (s : state) : Prop :=
  exists b : bool,
    shown s !! "revealer_details" = Some b /\
    labels s !! "btn_details"
    = Some (if b then gettext "Hide Details" else gettext "Show Details").

(** The command line of [run_aur_build] starts with [cd]; those of
    [run_transaction] start with the path of the sudo wrapper. *)
Definition is_build (command : string) : bool :=
  PyStr.startswith "cd " command.

(** Is the thread about to start a build? *)
Definition starts_build (t : thread) : bool :=
  match t with
  | ExecStart command _ => is_build command
  | _ => false
  end.

(** A build is on its way: asked for behind an open password dialog,
    waiting in a worker that has not called [Popen] yet, or started as
    a child. *)
Definition build_underway (s : state) : Prop :=
  (exists d, In d (dialogs s) /\ callback_success d = then_run_aur_build) \/
  (exists t, In t (threads s) /\ starts_build t = true) \/
  (exists p command,
      In p (procs s) /\ shell p = true /\ args p = [command] /\
      is_build command = true).

(** Any event, let through or not: the run of the handlers alone *)
Fixpoint run_handlers (gettext : string -> string) (s : state)
  (es : list event) : option state :=
  match es with
  | [] => Some s
  | e :: es' =>
      match handle gettext s e with
      | Some s' => run_handlers gettext s' es'
      | None => None
      end
  end.

End Journal.

(** ** Where the password goes *)

Module Secrecy.
Import Supervisor.

(** A child whose environment has lost the variable that carries the
    password *)
Definition without_secret (p : popen) : popen :=
  {| pid := pid p; args := args p; shell := shell p;
     env := delete env_var_name <$> env p;
     returncode := returncode p |}.

(** The state with the password taken out: of the attribute
    [user_password] only whether a password is there is left, and the
    environments of the children have lost the password variable. *)
Definition public (s : state) : state :=
  set_user_password (if password_given s then Some "*" else None)
    (set_procs (map without_secret (procs s)) s).

(** An event with the password taken out: of the text typed into the
    password entry only whether it is empty is left. *)
Definition entry_hidden (e : event) : event :=
  match e with
  | Respond response entry_text =>
      Respond response (if PyStr.truthy entry_text then "*" else "")
  | _ => e
  end.

(** Two passwords typed into the dialog of a removal, with the child
    started *)
Definition demo_typed (pw : string) : list event :=
  [ClickRemove "vim"; Respond "unlock" pw; PopenOk 0 4711].

End Secrecy.

(** * Properties *)

(** ** Python string primitives *)

Module PyStrFacts.
Import PyStr.

Lemma append_assoc' (a b c : string) : ((a ++ b) ++ c = a ++ (b ++ c))%string.
Proof. induction a as [|x a IH]; simpl; [reflexivity | now rewrite IH]. Qed.

Lemma append_nil_r (a : string) : (a ++ "")%string = a.
Proof. induction a as [|x a IH]; simpl; [reflexivity | now rewrite IH]. Qed.

Lemma has_char_app c (a b : string) :
  has_char c (a ++ b) = has_char c a || has_char c b.
Proof.
  induction a as [|x a IH]; simpl; [reflexivity|].
  rewrite IH. now rewrite orb_assoc.
Qed.

Lemma split_nosep c (a : string) :
  has_char c a = false -> split c a = [a].
Proof.
  induction a as [|x a IH]; simpl; [reflexivity|].
  intros H. apply orb_false_iff in H as [Hx Ha].
  rewrite Hx, (IH Ha). reflexivity.
Qed.

Lemma split_app_sep c (a b : string) :
  has_char c a = false -> split c (a ++ String c b) = a :: split c b.
Proof.
  induction a as [|x a IH]; simpl.
  - intros _. now rewrite Ascii.eqb_refl.
  - intros H. apply orb_false_iff in H as [Hx Ha].
    rewrite Hx, (IH Ha). reflexivity.
Qed.

Lemma rstrip_app (a b : string) :
  rstrip (a ++ b) =
    match rstrip b with
    | EmptyString => rstrip a
    | _ => (a ++ rstrip b)%string
    end.
Proof.
  induction a as [|x a IH]; simpl.
  - destruct (rstrip b); reflexivity.
  - rewrite IH. destruct (rstrip b); [reflexivity|].
    destruct a; reflexivity.
Qed.

Lemma rstrip_idem (s : string) : rstrip (rstrip s) = rstrip s.
Proof.
  induction s as [|x s IH]; simpl; [reflexivity|].
  destruct (rstrip s) as [|y r] eqn:E.
  - destruct (isspace x) eqn:Ex; simpl; [reflexivity | now rewrite Ex].
  - change (rstrip (String x (String y r))) with
      (match rstrip (String y r) with
       | EmptyString => if isspace x then EmptyString else String x EmptyString
       | r' => String x r' end).
    rewrite IH. reflexivity.
Qed.
End PyStrFacts.

(** ** The parser of the local index *)

Module SearchFacts.
Import PyStr PyStrFacts Search.

(** **** Tokens and header lines *)

Lemma all_chars_has_char P c w :
  all_chars P w = true -> P c = false -> has_char c w = false.
Proof.
  intros Hw Hc. induction w as [|x w IH]; simpl in *; [reflexivity|].
  apply andb_true_iff in Hw as [Hx Hw]. rewrite (IH Hw), orb_false_r.
  destruct (Ascii.eqb_spec x c) as [->|]; [congruence | reflexivity].
Qed.

Lemma token_no_char c w :
  token w = true -> plain_char c = false -> has_char c w = false.
Proof. apply all_chars_has_char. Qed.

Lemma rstrip_all_nonspace w :
  all_chars (fun c => negb (isspace c)) w = true -> rstrip w = w.
Proof.
  induction w as [|x w IH]; simpl; [reflexivity|].
  intros H. apply andb_true_iff in H as [Hx Hw]. rewrite (IH Hw).
  apply negb_true_iff in Hx. rewrite Hx. destruct w; reflexivity.
Qed.

Lemma all_chars_weaken (P Q : ascii -> bool) w :
  (forall c, P c = true -> Q c = true) ->
  all_chars P w = true -> all_chars Q w = true.
Proof.
  intros HPQ. induction w as [|x w IH]; simpl; [reflexivity|].
  intros H. apply andb_true_iff in H as [Hx Hw].
  now rewrite (HPQ _ Hx), (IH Hw).
Qed.

Lemma rstrip_token w : token w = true -> rstrip w = w.
Proof.
  intros H. apply rstrip_all_nonspace.
  revert H. apply all_chars_weaken. intros c Hc. unfold plain_char in Hc.
  apply andb_true_iff in Hc as [Hc _]. now apply andb_true_iff in Hc as [Hc _].
Qed.

Lemma header_line_tail r n v i :
  header_line r n v i = ((r ++ "/" ++ n ++ " ") ++ tail v i)%string.
Proof.
  unfold header_line, tail.
  now rewrite !append_assoc'.
Qed.

Lemma rstrip_app_fixed (a b : string) :
  rstrip b = b -> b <> "" -> rstrip (a ++ b) = (a ++ b)%string.
Proof.
  intros Hb Hne. rewrite rstrip_app, Hb. destruct b; [congruence | reflexivity].
Qed.

Lemma tail_fixed v i :
  token v = true -> v <> "" -> rstrip (tail v i) = tail v i /\ tail v i <> "".
Proof.
  intros Hv Hne. unfold tail. destruct i.
  - split.
    + apply rstrip_app_fixed; [reflexivity | discriminate].
    + destruct v; [congruence | discriminate].
  - rewrite append_nil_r. split; [now apply rstrip_token | assumption].
Qed.

Lemma rstrip_header a r n v i :
  token v = true -> v <> "" ->
  rstrip (a ++ header_line r n v i) = (a ++ header_line r n v i)%string.
Proof.
  intros Hv Hne. destruct (tail_fixed v i Hv Hne) as [Hfix Hnon].
  rewrite header_line_tail, <- append_assoc'.
  now apply rstrip_app_fixed.
Qed.

Lemma header_first_char r n v i :
  token r = true ->
  exists c rest, header_line r n v i = String c rest /\ isspace c = false.
Proof.
  intros Hr. unfold header_line. destruct r as [|c r]; simpl.
  - eexists _, _. split; [reflexivity | reflexivity].
  - simpl in Hr. apply andb_true_iff in Hr as [Hc _].
    unfold plain_char in Hc. apply andb_true_iff in Hc as [Hc _].
    apply andb_true_iff in Hc as [Hc _]. apply negb_true_iff in Hc.
    eexists _, _. split; [reflexivity | assumption].
Qed.

Lemma lstrip_header r n v i x :
  token r = true ->
  lstrip (header_line r n v i ++ x) = (header_line r n v i ++ x)%string.
Proof.
  intros Hr. destruct (header_first_char r n v i Hr) as (c & rest & -> & Hc).
  simpl. now rewrite Hc.
Qed.

Lemma rstrip_header0 r n v i :
  token v = true -> v <> "" ->
  rstrip (header_line r n v i) = header_line r n v i.
Proof. intros Hv Hne. exact (rstrip_header "" r n v i Hv Hne). Qed.

Lemma lstrip_header0 r n v i :
  token r = true -> lstrip (header_line r n v i) = header_line r n v i.
Proof.
  intros Hr. rewrite <- (append_nil_r (header_line r n v i)).
  now apply lstrip_header.
Qed.

Lemma header_not_indented r n v i :
  token r = true -> is_indented (header_line r n v i) = false.
Proof.
  intros Hr. destruct (header_first_char r n v i Hr) as (c & rest & -> & Hc).
  unfold is_indented. simpl.
  destruct (Ascii.eqb_spec " " c) as [<-|]; [discriminate | reflexivity].
Qed.

Lemma tail_no_LF v i : token v = true -> has_char LF (tail v i) = false.
Proof.
  intros Hv. unfold tail. rewrite has_char_app, (token_no_char LF v Hv eq_refl).
  destruct i; reflexivity.
Qed.

Lemma header_no_LF r n v i :
  token r = true -> token n = true -> token v = true ->
  has_char LF (header_line r n v i) = false.
Proof.
  intros Hr Hn Hv. rewrite header_line_tail, !has_char_app, tail_no_LF by assumption.
  rewrite (token_no_char LF r Hr eq_refl), (token_no_char LF n Hn eq_refl).
  reflexivity.
Qed.

(** **** Taking a header line apart *)

Lemma contains_no_head c p s :
  has_char c s = false -> contains (String c p) s = false.
Proof.
  induction s as [|x s IH]; simpl; [reflexivity|].
  intros H. apply orb_false_iff in H as [Hx Hs].
  rewrite (IH Hs), orb_false_r.
  rewrite Ascii.eqb_sym, Hx. reflexivity.
Qed.

Lemma contains_app_r p (a b : string) :
  contains p b = true -> contains p (a ++ b) = true.
Proof.
  intros H. induction a as [|x a IH]; simpl; [assumption|].
  rewrite IH. destruct p; [reflexivity|]. apply orb_true_r.
Qed.

Lemma header_installed r n v i :
  token r = true -> token n = true -> token v = true ->
  contains "[installed]" (header_line r n v i) = i.
Proof.
  intros Hr Hn Hv. destruct i.
  - unfold header_line. rewrite <- !append_assoc'.
    apply contains_app_r. reflexivity.
  - apply contains_no_head. unfold header_line.
    rewrite !has_char_app.
    rewrite (token_no_char "[" r Hr eq_refl), (token_no_char "[" n Hn eq_refl),
      (token_no_char "[" v Hv eq_refl).
    reflexivity.
Qed.

Lemma split_full_name_ok r n :
  token r = true -> token n = true ->
  split_full_name (r ++ "/" ++ n) = inr (r, n).
Proof.
  intros Hr Hn. unfold split_full_name.
  assert (Hs : has_char "/" (r ++ "/" ++ n) = true).
  { rewrite has_char_app. apply orb_true_iff. right. reflexivity. }
  rewrite Hs.
  change (r ++ "/" ++ n)%string with (r ++ String "/" n)%string.
  rewrite split_app_sep by (apply (token_no_char "/" r Hr eq_refl)).
  rewrite split_nosep by (apply (token_no_char "/" n Hn eq_refl)).
  reflexivity.
Qed.

Lemma split_header r n v i :
  token r = true -> token n = true -> token v = true ->
  exists more,
    split " " (header_line r n v i) = (r ++ "/" ++ n)%string :: v :: more.
Proof.
  intros Hr Hn Hv.
  assert (Hfull : has_char " " (r ++ "/" ++ n) = false).
  { rewrite !has_char_app, (token_no_char " " r Hr eq_refl),
      (token_no_char " " n Hn eq_refl). reflexivity. }
  assert (Hsp : has_char " " v = false) by apply (token_no_char " " v Hv eq_refl).
  unfold header_line.
  replace (r ++ "/" ++ n ++ " " ++ v ++ (if i then " [installed]" else ""))%string
    with ((r ++ "/" ++ n) ++ String " " (v ++ (if i then " [installed]" else "")))%string
    by (now rewrite !append_assoc').
  rewrite (split_app_sep _ _ _ Hfull).
  destruct i.
  - change (v ++ " [installed]")%string with (v ++ String " " "[installed]")%string.
    rewrite (split_app_sep _ _ _ Hsp). eexists. reflexivity.
  - rewrite append_nil_r, (split_nosep _ _ Hsp). eexists. reflexivity.
Qed.

Lemma parse_header_ok r n v i :
  token r = true -> token n = true -> token v = true ->
  parse_header (header_line r n v i) = inr (Pkg n r v i "" false).
Proof.
  intros Hr Hn Hv. unfold parse_header.
  destruct (split_header r n v i Hr Hn Hv) as [more ->].
  rewrite (split_full_name_ok r n Hr Hn).
  now rewrite (header_installed r n v i Hr Hn Hv).
Qed.

(** **** Whole outputs *)

Lemma rstrip_prefix s : exists t, s = (rstrip s ++ t)%string.
Proof.
  induction s as [|x s [t IH]]; [now exists ""|].
  simpl. destruct (rstrip s) as [|y r] eqn:E.
  - simpl in IH. subst t. destruct (isspace x).
    + now exists (String x s).
    + now exists s.
  - exists t. rewrite IH at 1. reflexivity.
Qed.

Lemma has_char_rstrip c s :
  has_char c s = false -> has_char c (rstrip s) = false.
Proof.
  intros H. destruct (rstrip_prefix s) as [t Ht]. rewrite Ht in H.
  rewrite has_char_app in H. now apply orb_false_iff in H as [H _].
Qed.

Lemma rstrip_app_rstrip (a b : string) : rstrip (a ++ rstrip b) = rstrip (a ++ b).
Proof. now rewrite !rstrip_app, rstrip_idem. Qed.

Lemma parse_one_line r n v i :
  token r = true -> token n = true -> token v = true ->
  parse_lines [header_line r n v i] = [Pkg n r v i "" false].
Proof.
  intros Hr Hn Hv. unfold parse_lines. simpl.
  now rewrite header_not_indented, parse_header_ok.
Qed.

Lemma parse_header_then_indented r n v i x :
  token r = true -> token n = true -> token v = true ->
  parse_lines [header_line r n v i; ("    " ++ x)%string]
  = [Pkg n r v i (strip ("    " ++ x)) false].
Proof.
  intros Hr Hn Hv. unfold parse_lines. simpl.
  now rewrite header_not_indented, parse_header_ok.
Qed.

Lemma parse_two_headers r n v i r2 n2 v2 i2 :
  token r = true -> token n = true -> token v = true ->
  token r2 = true -> token n2 = true -> token v2 = true ->
  parse_lines [header_line r n v i; header_line r2 n2 v2 i2]
  = [Pkg n r v i "" false; Pkg n2 r2 v2 i2 "" false].
Proof.
  intros Hr Hn Hv Hr2 Hn2 Hv2. unfold parse_lines. simpl.
  now rewrite !header_not_indented, !parse_header_ok.
Qed.

Lemma stdout_header_description r n v i d :
  token r = true -> token n = true -> token v = true -> v <> "" ->
  has_char LF d = false ->
  parse_stdout (header_line r n v i ++ nl ++ "    " ++ d)
  = [Pkg n r v i (strip ("    " ++ d)) false].
Proof.
  intros Hr Hn Hv Hne Hd. unfold parse_stdout, strip at 1.
  pose (h := header_line r n v i). fold h.
  change (h ++ nl ++ "    " ++ d)%string with (h ++ (nl ++ "    ") ++ d)%string.
  rewrite (rstrip_app h), (rstrip_app (nl ++ "    ")).
  destruct (rstrip d) as [|y t] eqn:E.
  - change (rstrip (nl ++ "    ")) with "". cbv iota. unfold h.
    rewrite rstrip_header0, lstrip_header0 by assumption.
    rewrite split_nosep by (now apply header_no_LF).
    rewrite parse_one_line by assumption.
    unfold strip. rewrite (rstrip_app "    "), E. reflexivity.
  - change ((nl ++ "    ") ++ String y t)%string
      with (String LF ("    " ++ String y t))%string.
    unfold h. rewrite lstrip_header by assumption.
    rewrite split_app_sep by (now apply header_no_LF).
    assert (Hd' : has_char LF (String y t) = false)
      by (rewrite <- E; now apply has_char_rstrip).
    rewrite split_nosep by exact Hd'.
    rewrite parse_header_then_indented by assumption.
    rewrite <- E. unfold strip. now rewrite rstrip_app_rstrip.
Qed.

Lemma stdout_two_headers r n v i r2 n2 v2 i2 :
  token r = true -> token n = true -> token v = true ->
  token r2 = true -> token n2 = true -> token v2 = true -> v2 <> "" ->
  parse_stdout (header_line r n v i ++ nl ++ header_line r2 n2 v2 i2)
  = [Pkg n r v i "" false; Pkg n2 r2 v2 i2 "" false].
Proof.
  intros Hr Hn Hv Hr2 Hn2 Hv2 Hne2. unfold parse_stdout, strip.
  replace (header_line r n v i ++ nl ++ header_line r2 n2 v2 i2)%string
    with ((header_line r n v i ++ nl) ++ header_line r2 n2 v2 i2)%string
    by (now rewrite append_assoc').
  rewrite rstrip_header by assumption.
  rewrite append_assoc', lstrip_header by assumption.
  change (header_line r n v i ++ nl ++ header_line r2 n2 v2 i2)%string
    with (header_line r n v i ++ String LF (header_line r2 n2 v2 i2))%string.
  rewrite split_app_sep by (now apply header_no_LF).
  rewrite split_nosep by (now apply header_no_LF).
  now apply parse_two_headers.
Qed.

Lemma text_nonempty r n v i x :
  token r = true -> PyStr.truthy (header_line r n v i ++ x) = true.
Proof.
  intros Hr. destruct (header_first_char r n v i Hr) as (c & rest & -> & _).
  reflexivity.
Qed.

(** C6: one header line followed by one indented line gives one record,
    whose description is the indented line stripped; two header lines
    in a row give two records with empty descriptions. The fields of a
    header are tokens: no white space, no slash, no opening bracket;
    the version is not empty; the indented line has no line feed. *)
Theorem local_parser_header_and_description r n v i d r2 n2 v2 i2 :
  token r = true -> token n = true -> token v = true -> v <> "" ->
  token r2 = true -> token n2 = true -> token v2 = true -> v2 <> "" ->
  has_char LF d = false ->
  local_records (Completed 0 (header_line r n v i ++ nl ++ "    " ++ d))
  = [Pkg n r v i (strip ("    " ++ d)) false] /\
  local_records (Completed 0 (header_line r n v i ++ nl ++ header_line r2 n2 v2 i2))
  = [Pkg n r v i "" false; Pkg n2 r2 v2 i2 "" false].
Proof.
  intros Hr Hn Hv Hne Hr2 Hn2 Hv2 Hne2 Hd. unfold local_records.
  rewrite !text_nonempty by assumption. simpl.
  split; [now apply stdout_header_description | now apply stdout_two_headers].
Qed.

Lemma local_parser_header_and_description_witness :
  token "extra" = true /\ token "vim" = true /\ token "9.1.0-1" = true /\
  "9.1.0-1" <> "" /\
  token "core" = true /\ token "nano" = true /\ token "8.2-1" = true /\
  "8.2-1" <> "" /\
  has_char LF "Vi Improved  " = false /\
  local_records
    (Completed 0 (header_line "extra" "vim" "9.1.0-1" true ++ nl
                  ++ "    " ++ "Vi Improved  "))
  = [Pkg "vim" "extra" "9.1.0-1" true "Vi Improved" false] /\
  local_records
    (Completed 0 (header_line "extra" "vim" "9.1.0-1" true ++ nl
                  ++ header_line "core" "nano" "8.2-1" false))
  = [Pkg "vim" "extra" "9.1.0-1" true "" false;
     Pkg "nano" "core" "8.2-1" false "" false].
Proof.
  assert (H1 : "9.1.0-1" <> "") by discriminate.
  assert (H2 : "8.2-1" <> "") by discriminate.
  do 9 (split; [first [reflexivity | assumption]|]).
  exact (local_parser_header_and_description
           "extra" "vim" "9.1.0-1" true "Vi Improved  " "core" "nano" "8.2-1" false
           eq_refl eq_refl eq_refl H1 eq_refl eq_refl eq_refl H2 eq_refl).
Defined.

(** **** Malformed lines *)

Lemma for_lines_app pre : forall rest rs cur,
  for_lines (pre ++ rest) rs cur =
    match for_lines pre rs cur with
    | (rs', cur', None) => for_lines rest rs' cur'
    | raised => raised
    end.
Proof.
  induction pre as [|line pre IH]; intros rest rs cur; simpl; [reflexivity|].
  destruct (negb (is_indented line)).
  - destruct (parse_header line); [reflexivity | apply IH].
  - apply IH.
Qed.

Lemma for_lines_well_formed pre : forall rs cur,
  forallb well_formed pre = true ->
  exists rs' cur', for_lines pre rs cur = (rs', cur', None).
Proof.
  induction pre as [|line pre IH]; intros rs cur H; simpl; [eauto|].
  simpl in H. apply andb_true_iff in H as [Hl Hpre].
  unfold well_formed, malformed in Hl. apply negb_true_iff in Hl.
  destruct (negb (is_indented line)); simpl in Hl.
  - destruct (parse_header line); [discriminate | now apply IH].
  - now apply IH.
Qed.

(** C5 in its strict form does not hold: after a header line without a
    version the parser returns the record before it and drops the one
    after it. *)
Lemma malformed_line_loses_later_records : ~ skips_malformed_lines.
Proof.
  intros H.
  specialize (H ["core/a 1.0"] "broken" ["core/b 2.0"] eq_refl).
  assert (Hl : parse_lines (["core/a 1.0"] ++ "broken" :: ["core/b 2.0"])
               = [Pkg "a" "core" "1.0" false "" false])
    by (vm_compute; reflexivity).
  assert (Hr : parse_lines (["core/a 1.0"] ++ ["core/b 2.0"])
               = [Pkg "a" "core" "1.0" false "" false;
                  Pkg "b" "core" "2.0" false "" false])
    by (vm_compute; reflexivity).
  rewrite Hl, Hr in H. discriminate H.
Qed.

(** C5, in the form the code supports: a malformed header line ends the
    parse. The records of the well-formed lines before it are returned,
    the last of them with its description; the malformed line and every
    line after it give nothing. The search itself goes on: the thread,
    if its id is still the counter, moves to the AUR lookup or to
    publishing with what was found. *)
Theorem malformed_line_ends_parse pre bad post tid w s r :
  forallb well_formed pre = true -> malformed bad = true ->
  SearchView.w_pc w = SearchView.LocalLookup ->
  SearchView.w_search_id w = SearchView.search_counter s ->
  parse_lines (pre ++ bad :: post) = parse_lines pre /\
  SearchView.worker_step tid w (SearchView.WLocal tid r) s
  = Some (SearchView.set_worker tid
            (SearchView.at_pc w (SearchView.after_local (local_records r) s)) s,
          None).
Proof.
  intros Hpre Hbad Hpc Hid. split.
  - unfold parse_lines. rewrite for_lines_app.
    destruct (for_lines_well_formed pre [] None Hpre) as (rs & cur & ->).
    simpl. unfold malformed in Hbad. apply andb_true_iff in Hbad as [-> Hraise].
    destruct (parse_header bad); [reflexivity | discriminate].
  - unfold SearchView.worker_step. rewrite Hpc, Hid, Nat.eqb_refl. simpl.
    destruct r; reflexivity.
Qed.

Lemma malformed_line_ends_parse_witness :
  forallb well_formed ["core/a 1.0"; "    first"] = true /\
  malformed "broken" = true /\
  parse_lines (["core/a 1.0"; "    first"] ++ "broken" :: ["core/b 2.0"])
  = [Pkg "a" "core" "1.0" false "first" false].
Proof.
  split; [reflexivity|]. split; [reflexivity|].
  destruct (malformed_line_ends_parse ["core/a 1.0"; "    first"] "broken"
              ["core/b 2.0"] 0
              (SearchView.Worker "a" 0 SearchView.LocalLookup) SearchView.init
              RunRaises eq_refl eq_refl eq_refl eq_refl) as [H _].
  rewrite H. reflexivity.
Defined.

End SearchFacts.

(** ** Search ids *)

Module SearchViewFacts.
Import Search SearchView.

Ltac split_ifs :=
  repeat match goal with
    | |- context [if ?b then _ else _] => destruct b
    end;
  try reflexivity.

(** Stepping a thread moves that thread, and may write the result
    list and queue an idle call; nothing else changes. *)
Lemma worker_step_shape tid w e s s' p :
  worker_step tid w e s = Some (s', p) ->
  exists pc' s0,
    s' = set_worker tid (at_pc w pc') s0 /\
    search_counter s0 = search_counter s /\
    workers s0 = workers s /\ timeouts s0 = timeouts s /\
    (p = None \/
     (p = Some (Pub tid (w_search_id w) (all_search_results s0)) /\
      w_pc w = Publishing (all_search_results s0) /\
      w_search_id w = search_counter s)).
Proof.
  unfold worker_step. intros H.
  destruct e; try discriminate; destruct (w_pc w); try discriminate.
  all: repeat match type of H with
         | context [match ?r with RunRaises => _ | _ => _ end] => destruct r
         | context [match ?r with UrlRaises => _ | _ => _ end] => destruct r
         | context [if ?b then _ else _] => destruct b eqn:?
         end;
       inversion H; subst; clear H;
       try (eexists _, s; repeat split; eauto; fail).
  exists Returned, (publish found s). repeat split; auto.
  right. repeat split; auto.
  apply negb_false_iff, Nat.eqb_eq in Heqb. exact Heqb.
Qed.

Lemma step_worker_event s e tid :
  event_tid e = Some tid ->
  step s e = match workers s !! tid with
             | Some w => worker_step tid w e s
             | None => None
             end.
Proof. destruct e; simpl; intros [= ->]; reflexivity. Qed.

Lemma step_counter s e s' p :
  step s e = Some (s', p) ->
  search_counter s' = issued [e] + search_counter s.
Proof.
  destruct (event_tid e) as [tid|] eqn:Et.
  - rewrite (step_worker_event _ _ _ Et).
    destruct (workers s !! tid) as [w|]; [|discriminate].
    intros H. apply worker_step_shape in H as (pc' & s0 & -> & Hc & _).
    destruct e; simpl in *; try discriminate; exact Hc.
  - destruct e; simpl in *; try discriminate.
    + intros [= <- <-]. unfold on_search_changed.
      split_ifs.
    + intros [= <- <-]. reflexivity.
    + destruct (find_timeout src (timeouts s)) as [[q i]|]; [|discriminate].
      intros [= <- <-]. reflexivity.
    + destruct (idle s); [discriminate|]. intros [= <- <-].
      unfold update_results_initial, load_more_results. simpl.
      destruct (all_search_results s); split_ifs.
    + intros [= <- <-]. unfold load_more_results. split_ifs.
Qed.

(** A thread keeps its number and its [search_id] for ever. *)
Lemma step_workers s e s' p tid w :
  step s e = Some (s', p) ->
  workers s !! tid = Some w ->
  exists w', workers s' !! tid = Some w' /\ w_search_id w' = w_search_id w.
Proof.
  intros Hstep Hw.
  destruct (event_tid e) as [t|] eqn:Et.
  - rewrite (step_worker_event _ _ _ Et) in Hstep.
    destruct (workers s !! t) as [wt|] eqn:Ht; [|discriminate].
    apply worker_step_shape in Hstep as (pc' & s0 & -> & _ & Hws & _).
    simpl. rewrite Hws. destruct (decide (t = tid)) as [->|Hne].
    + rewrite list_lookup_insert_eq by (now apply lookup_lt_Some in Hw).
      eexists; split; [reflexivity|]. simpl. congruence.
    + rewrite list_lookup_insert_ne by assumption. eauto.
  - destruct e; simpl in *; try discriminate.
    + injection Hstep as <- <-. unfold on_search_changed.
      exists w. split_ifs; simpl; auto.
    + injection Hstep as <- <-. eauto.
    + destruct (find_timeout src (timeouts s)) as [[q i]|]; [|discriminate].
      injection Hstep as <- <-. simpl. exists w. split; [|reflexivity].
      now apply lookup_app_l_Some.
    + destruct (idle s); [discriminate|]. injection Hstep as <- <-.
      unfold update_results_initial, load_more_results. simpl.
      exists w. destruct (all_search_results s); split_ifs; simpl; auto.
    + injection Hstep as <- <-. unfold load_more_results.
      exists w. split_ifs; simpl; auto.
Qed.

Lemma in_source_remove src t l : In t (source_remove src l) -> In t l.
Proof. unfold source_remove. intros H. now apply filter_In in H as [H _]. Qed.

Lemma find_timeout_in src l q i :
  find_timeout src l = Some (q, i) -> exists src', In (src', (q, i)) l.
Proof.
  unfold find_timeout.
  destruct (List.filter _ l) as [|[src' qi] rest] eqn:E; [discriminate|].
  simpl. intros [= ->]. exists src'.
  assert (H : In (src', (q, i)) (List.filter (fun t => (fst t =? src)%nat) l))
    by (rewrite E; now left).
  now apply filter_In in H as [H _].
Qed.

Lemma step_ids_bounded s e s' p :
  ids_bounded s -> step s e = Some (s', p) -> ids_bounded s'.
Proof.
  intros [Hw Ht] Hstep.
  destruct (event_tid e) as [t|] eqn:Et.
  - rewrite (step_worker_event _ _ _ Et) in Hstep.
    destruct (workers s !! t) as [wt|] eqn:Hwt; [|discriminate].
    apply worker_step_shape in Hstep as (pc' & s0 & -> & Hc & Hws & Hts & _).
    split; simpl; rewrite ?Hc, ?Hws, ?Hts; [|exact Ht].
    intros tid w H. destruct (decide (t = tid)) as [->|Hne].
    + rewrite list_lookup_insert_eq in H by (now apply lookup_lt_Some in Hwt).
      injection H as <-. simpl. eauto.
    + rewrite list_lookup_insert_ne in H by assumption. eauto.
  - destruct e; simpl in *; try discriminate.
    + injection Hstep as <- <-. unfold on_search_changed.
      destruct (_ <? _)%nat; split; simpl.
      * intros tid w H. apply Hw in H. lia.
      * intros src q i H. destruct (search_timer s).
        -- apply in_source_remove, Ht in H. lia.
        -- apply Ht in H. lia.
      * intros tid w H. apply Hw in H. lia.
      * intros src q i H. apply in_app_or in H as [H|[H|[]]].
        -- destruct (search_timer s).
           ++ apply in_source_remove, Ht in H. lia.
           ++ apply Ht in H. lia.
        -- injection H as <- <- <-. lia.
    + injection Hstep as <- <-. split; simpl; eauto.
    + destruct (find_timeout src (timeouts s)) as [[q i]|] eqn:Ef; [|discriminate].
      injection Hstep as <- <-. split; simpl.
      * intros tid w H. apply lookup_app_Some in H as [H|[_ H]]; [eauto|].
        destruct (tid - length (workers s)) as [|k]; simpl in H; [|discriminate].
        injection H as <-. simpl.
        apply find_timeout_in in Ef as [src' Hin]. eauto.
      * intros src0 q0 i0 H. apply in_source_remove in H. eauto.
    + destruct (idle s); [discriminate|]. injection Hstep as <- <-.
      unfold update_results_initial, load_more_results. simpl.
      destruct (all_search_results s); split_ifs; split; simpl; eauto.
    + injection Hstep as <- <-. unfold load_more_results.
      split_ifs; split; simpl; eauto.
Qed.

(** Lines 603 to 605 are the only place where a result set is
    written, and the thread's id is the counter there. *)
Lemma step_publish s e s' p :
  step s e = Some (s', Some p) ->
  e = WPublish (pub_tid p) /\
  exists w, workers s !! pub_tid p = Some w /\
    w_search_id w = pub_search_id p /\
    w_pc w = Publishing (pub_results p) /\
    pub_search_id p = search_counter s /\
    all_search_results s' = pub_results p.
Proof.
  intros Hstep.
  destruct (event_tid e) as [t|] eqn:Et.
  - pose proof Hstep as Hstep'.
    rewrite (step_worker_event _ _ _ Et) in Hstep.
    destruct (workers s !! t) as [wt|] eqn:Hwt; [|discriminate].
    pose proof Hstep as Hws.
    apply worker_step_shape in Hstep
      as (pc' & s0 & -> & Hc & _ & _ & [Hp | (Hp & Hpc & Hid)]); [discriminate|].
    injection Hp as ->. simpl. split.
    + unfold worker_step in Hws. rewrite Hpc in Hws.
      destruct e as [| | | | |?|? r|? r|?]; try discriminate;
        try (destruct r; discriminate).
      simpl in Et. congruence.
    + exists wt. repeat split; auto.
  - destruct e; simpl in *; try discriminate.
    + destruct (find_timeout src (timeouts s)) as [[q i]|]; discriminate.
    + destruct (idle s); discriminate.
Qed.

Lemma run_cons_inv s e es s' ps :
  run s (e :: es) = Some (s', ps) ->
  exists s1 p ps', step s e = Some (s1, p) /\ run s1 es = Some (s', ps').
Proof.
  simpl. destruct (step s e) as [[s1 p]|] eqn:E1; [|discriminate].
  destruct (run s1 es) as [[s2 ps']|] eqn:E2; [|discriminate].
  intros [= <- _]. exists s1, p, ps'. split; [reflexivity | assumption].
Qed.

Lemma run_counter es : forall s s' ps,
  run s es = Some (s', ps) -> search_counter s' = issued es + search_counter s.
Proof.
  induction es as [|e es IH]; intros s s' ps H.
  - injection H as <- _. reflexivity.
  - apply run_cons_inv in H as (s1 & p & ps' & Hstep & Hrun).
    rewrite (IH _ _ _ Hrun), (step_counter _ _ _ _ Hstep).
    destruct e; simpl; lia.
Qed.

Lemma run_workers es : forall s s' ps tid w,
  run s es = Some (s', ps) ->
  workers s !! tid = Some w ->
  exists w', workers s' !! tid = Some w' /\ w_search_id w' = w_search_id w.
Proof.
  induction es as [|e es IH]; intros s s' ps tid w H Hw.
  - injection H as <- _. eauto.
  - apply run_cons_inv in H as (s1 & p & ps' & Hstep & Hrun).
    destruct (step_workers _ _ _ _ _ _ Hstep Hw) as (w1 & Hw1 & Hid1).
    destruct (IH _ _ _ _ _ Hrun Hw1) as (w2 & Hw2 & Hid2).
    exists w2. split; [assumption | congruence].
Qed.

Lemma run_ids_bounded es : forall s s' ps,
  ids_bounded s -> run s es = Some (s', ps) -> ids_bounded s'.
Proof.
  induction es as [|e es IH]; intros s s' ps Hb H.
  - now injection H as <- _.
  - apply run_cons_inv in H as (s1 & p & ps' & Hstep & Hrun).
    eauto using step_ids_bounded.
Qed.

Lemma ids_bounded_init : ids_bounded init.
Proof. split; simpl; [intros tid w H; discriminate | intros src q i []]. Qed.

Lemma issued_app es1 es2 : issued (es1 ++ es2) = issued es1 + issued es2.
Proof.
  induction es1 as [|e es1 IH]; [reflexivity|].
  destruct e; simpl; rewrite IH; reflexivity.
Qed.

(** A thread that is behind the counter stays behind it. *)
Lemma step_stays_stale s e s' po tid w :
  ids_bounded s -> step s e = Some (s', po) ->
  workers s !! tid = Some w -> w_search_id w <> search_counter s ->
  exists w', workers s' !! tid = Some w' /\ w_search_id w' <> search_counter s'.
Proof.
  intros [Hb _] Hstep Hw Hstale.
  destruct (step_workers _ _ _ _ _ _ Hstep Hw) as (w' & Hw' & Hid).
  exists w'. split; [assumption|].
  pose proof (step_counter _ _ _ _ Hstep) as Hc. specialize (Hb _ _ Hw).
  destruct e; simpl in Hc; lia.
Qed.

Lemma step_stale_silent s e s' p tid w :
  step s e = Some (s', Some p) ->
  workers s !! tid = Some w -> w_search_id w <> search_counter s ->
  pub_tid p <> tid.
Proof.
  intros Hstep Hw Hstale Heq.
  apply step_publish in Hstep as (_ & w' & Hw' & Hid & _ & Hc & _).
  rewrite Heq in Hw'. congruence.
Qed.

Lemma run_stale_silent es : forall s s' pubs tid w,
  ids_bounded s -> run s es = Some (s', pubs) ->
  workers s !! tid = Some w -> w_search_id w <> search_counter s ->
  Forall (fun q => pub_tid q <> tid) pubs /\
  exists w', workers s' !! tid = Some w' /\ w_search_id w' <> search_counter s'.
Proof.
  induction es as [|e es IH]; intros s s' pubs tid w Hb Hrun Hw Hstale.
  - injection Hrun as <- <-. split; [constructor | eauto].
  - simpl in Hrun.
    destruct (step s e) as [[s1 po]|] eqn:Hstep; [|discriminate].
    destruct (run s1 es) as [[s2 ps]|] eqn:Hrest; [|discriminate].
    injection Hrun as <- <-.
    destruct (step_stays_stale _ _ _ _ _ _ Hb Hstep Hw Hstale) as (w1 & Hw1 & Hs1).
    destruct (IH _ _ _ _ _ (step_ids_bounded _ _ _ _ Hb Hstep) Hrest Hw1 Hs1)
      as [Hall Hlast].
    split; [|assumption].
    destruct po as [p|]; [|assumption].
    constructor; [|assumption].
    eapply step_stale_silent; eauto.
Qed.

(** C1: only the latest search is published. Take any run of the
    search view from its initial state, in any interleaving of key
    strokes, time-outs, idle calls and thread steps, and any two points
    [s1], then [s2], of it. A step that writes a result set at [s2] is
    lines 603 to 605 of the thread named in the publication, and the id
    of that thread is the number of ids issued so far, that is the
    latest. A thread whose id is not the counter at [s1], be it at one
    of its four comparisons or between two of them, has written nothing
    between [s1] and [s2] and writes nothing at [s2]. *)
Theorem latest_search_only es1 s1 pubs1 es2 s2 pubs2 :
  run init es1 = Some (s1, pubs1) ->
  run s1 es2 = Some (s2, pubs2) ->
  (forall e s3 p, step s2 e = Some (s3, Some p) ->
     e = WPublish (pub_tid p) /\
     pub_search_id p = issued (es1 ++ es2) /\
     pub_search_id p = search_counter s2 /\
     all_search_results s3 = pub_results p) /\
  (forall tid w, workers s1 !! tid = Some w ->
     w_search_id w <> search_counter s1 ->
     Forall (fun q => pub_tid q <> tid) pubs2 /\
     forall e s3 p, step s2 e = Some (s3, Some p) -> pub_tid p <> tid).
Proof.
  intros H1 H2.
  pose proof (run_ids_bounded _ _ _ _ ids_bounded_init H1) as Hb1.
  split.
  - intros e s3 p Hstep.
    apply step_publish in Hstep as (He & w2 & Hw2 & Hid2 & _ & Hc2 & Hres).
    pose proof (run_counter _ _ _ _ H1) as Hc1. simpl in Hc1.
    pose proof (run_counter _ _ _ _ H2) as Hc12.
    rewrite issued_app. repeat split; try assumption. lia.
  - intros tid w Hw Hstale.
    destruct (run_stale_silent _ _ _ _ _ _ Hb1 H2 Hw Hstale)
      as (Hall & w2 & Hw2 & Hstale2).
    split; [assumption|]. intros e s3 p Hstep.
    eapply step_stale_silent; eauto.
Qed.

Lemma latest_search_only_witness :
  let s1 := (default (init, []) (run init demo_overtaken)).1 in
  let found := local_records (Completed 0 demo_vim_stdout) in
  let s2 := (default (init, []) (run s1 demo_published)).1 in
  run init demo_overtaken = Some (s1, []) /\
  run s1 demo_published = Some (s2, [Pub 1 2 found]) /\
  workers s1 !! 0 = Some (Worker "vi" 1 LocalLookup) /\
  1 <> search_counter s1 /\
  Forall (fun q => pub_tid q <> 0) [Pub 1 2 found].
Proof.
  intros s1 found s2.
  assert (H1 : run init demo_overtaken = Some (s1, [])) by (vm_compute; reflexivity).
  assert (H2 : run s1 demo_published = Some (s2, [Pub 1 2 found]))
    by (vm_compute; reflexivity).
  assert (H3 : workers s1 !! 0 = Some (Worker "vi" 1 LocalLookup))
    by (vm_compute; reflexivity).
  assert (H4 : w_search_id (Worker "vi" 1 LocalLookup) <> search_counter s1)
    by (vm_compute; discriminate).
  destruct (latest_search_only demo_overtaken s1 [] demo_published s2
              [Pub 1 2 found] H1 H2) as [_ Hstale].
  destruct (Hstale 0 (Worker "vi" 1 LocalLookup) H3 H4) as [Hall _].
  exact (conj H1 (conj H2 (conj H3 (conj H4 Hall)))).
Defined.

(** The thread of the overtaken search, for its part, returns at its
    next comparison and writes nothing. *)
Example overtaken_search_returns :
  let s1 := (default (init, []) (run init demo_overtaken)).1 in
  option_map (fun sp => (w_pc <$> workers sp.1, sp.2, all_search_results sp.1))
    (run s1 demo_completed)
  = Some ([Returned;
           Publishing (local_records (Completed 0 demo_vim_stdout))], [], []).
Proof. vm_compute. reflexivity. Qed.

End SearchViewFacts.

(** ** The warning flag *)

Module ConfigFacts.
Import Config.

Lemma zero_valued_flag_suppresses :
  warning_shown (Parsed (PyDict [("show_warning", PyInt 0)])) = false.
Proof. reflexivity. Qed.

(** C10 in its strict form does not hold: a document whose
    [show_warning] is the number 0 suppresses the warning, and 0 is not
    [false]. *)
Lemma not_suppressed_only_by_false : ~ suppressed_only_by_false.
Proof.
  intros H.
  destruct (H (Parsed (PyDict [("show_warning", PyInt 0)])) eq_refl)
    as (fields & Hf & Hget).
  injection Hf as <-. discriminate Hget.
Qed.

(** C10, in the form the code supports: [should_show_warning] returns [True] when the file
    is absent, unreadable, not JSON, not a dictionary, or a dictionary
    without the key [show_warning]; otherwise it returns the value of
    that key as it is, and [__init__] takes its truth value: the
    warning is suppressed exactly when the file holds a dictionary
    whose [show_warning] is false, null, zero or empty. *)
Theorem warning_flag_by_truth_value f :
  (match f with
   | Absent | Unreadable | Invalid => should_show_warning f = PyBool true
   | Parsed (PyDict fields) =>
       should_show_warning f =
         match dict_get "show_warning" fields with
         | Some v => v
         | None => PyBool true
         end
   | Parsed _ => should_show_warning f = PyBool true
   end) /\
  (warning_shown f = false <->
   exists fields v, f = Parsed (PyDict fields) /\
     dict_get "show_warning" fields = Some v /\ truthy v = false).
Proof.
  split.
  - destruct f as [| | |[]]; reflexivity.
  - unfold warning_shown. split.
    + destruct f as [| | |[]]; simpl; try discriminate.
      destruct (dict_get "show_warning" fields) as [v|] eqn:E; [|discriminate].
      intros Hv. exists fields, v. auto.
    + intros (fields & v & -> & Hget & Hv). simpl. now rewrite Hget.
Qed.
End ConfigFacts.

(** ** The supervisor *)

Module SupervisorFacts.
Import Supervisor.

(** **** Lists of threads and of children *)

Lemma all_finished_lookup ths i t :
  all_finished ths -> ths !! i = Some t -> is_finished t = true.
Proof.
  intros H Hi. unfold all_finished in H. rewrite Forall_forall in H.
  apply H. eapply list_elem_of_lookup_2; eauto.
Qed.

Lemma all_exited_lookup ps i p :
  all_exited ps -> ps !! i = Some p -> is_running p = false.
Proof.
  intros H Hi. unfold all_exited in H. rewrite Forall_forall in H.
  apply H. eapply list_elem_of_lookup_2; eauto.
Qed.

Lemma sole_thread_started ths t :
  all_finished ths -> sole_thread (length ths) t (ths ++ [t]).
Proof.
  intros H. split.
  - rewrite lookup_app_r by lia. now rewrite Nat.sub_diag.
  - intros j u Hj Hne. apply lookup_app_Some in Hj as [Hj | [Hge Hj]].
    + eapply all_finished_lookup; eauto.
    + destruct (j - length ths) as [|k] eqn:E; [lia | discriminate].
Qed.

Lemma sole_thread_moved tid t t' ths :
  sole_thread tid t ths -> sole_thread tid t' (<[ tid := t' ]> ths).
Proof.
  intros [Ht Ho]. split.
  - apply list_lookup_insert_eq. now apply lookup_lt_Some in Ht.
  - intros j u Hj Hne. rewrite list_lookup_insert_ne in Hj by congruence. eauto.
Qed.

Lemma sole_thread_finished tid t ths :
  sole_thread tid t ths -> all_finished (<[ tid := Finished ]> ths).
Proof.
  intros [Ht Ho]. apply Forall_forall. intros u Hu.
  apply list_elem_of_lookup in Hu as [j Hj].
  destruct (decide (j = tid)) as [->|Hne].
  - rewrite list_lookup_insert_eq in Hj by (now apply lookup_lt_Some in Ht).
    now injection Hj as <-.
  - rewrite list_lookup_insert_ne in Hj by congruence. eauto.
Qed.

Lemma sole_child_spawned ps p :
  all_exited ps -> is_running p = true -> sole_child (length ps) (ps ++ [p]).
Proof.
  intros H Hp. split.
  - exists p. split; [|assumption].
    rewrite lookup_app_r by lia. now rewrite Nat.sub_diag.
  - intros j q Hj Hne. apply lookup_app_Some in Hj as [Hj | [Hge Hj]].
    + eapply all_exited_lookup; eauto.
    + destruct (j - length ps) as [|k] eqn:E; [lia | discriminate].
Qed.

Lemma sole_child_reaped h ps p rc :
  sole_child h ps -> ps !! h = Some p ->
  all_exited (<[ h := Popen (pid p) (args p) (shell p) (env p) (Some rc) ]> ps).
Proof.
  intros [_ Ho] Hp. apply Forall_forall. intros q Hq.
  apply list_elem_of_lookup in Hq as [j Hj].
  destruct (decide (j = h)) as [->|Hne].
  - rewrite list_lookup_insert_eq in Hj by (now apply lookup_lt_Some in Hp).
    now injection Hj as <-.
  - rewrite list_lookup_insert_ne in Hj by congruence. eauto.
Qed.

Lemma all_finished_one ths : all_finished ths ->
  forall i j t u, ths !! i = Some t -> ths !! j = Some u ->
    is_finished t = false -> is_finished u = false -> i = j.
Proof.
  intros H i j t u Hi _ Ht _. pose proof (all_finished_lookup _ _ _ H Hi). congruence.
Qed.

Lemma sole_thread_one tid t0 ths : sole_thread tid t0 ths ->
  forall i j t u, ths !! i = Some t -> ths !! j = Some u ->
    is_finished t = false -> is_finished u = false -> i = j.
Proof.
  intros [_ Ho] i j t u Hi Hj Ht Hu.
  destruct (decide (i = tid)) as [->|Hi'];
    [|rewrite (Ho _ _ Hi Hi') in Ht; discriminate].
  destruct (decide (j = tid)) as [->|Hj'];
    [reflexivity | rewrite (Ho _ _ Hj Hj') in Hu; discriminate].
Qed.

Lemma all_exited_one ps : all_exited ps ->
  forall i j p q, ps !! i = Some p -> ps !! j = Some q ->
    is_running p = true -> is_running q = true -> i = j.
Proof.
  intros H i j p q Hi _ Hp _. pose proof (all_exited_lookup _ _ _ H Hi). congruence.
Qed.

Lemma sole_child_one h ps : sole_child h ps ->
  forall i j p q, ps !! i = Some p -> ps !! j = Some q ->
    is_running p = true -> is_running q = true -> i = j.
Proof.
  intros [_ Ho] i j p q Hi Hj Hp Hq.
  destruct (decide (i = h)) as [->|Hi'];
    [|rewrite (Ho _ _ Hi Hi') in Hp; discriminate].
  destruct (decide (j = h)) as [->|Hj'];
    [reflexivity | rewrite (Ho _ _ Hj Hj') in Hq; discriminate].
Qed.

(** **** The phases are kept by every step *)

Lemma showing_true v s : showing v s = true <-> content_stack s = v.
Proof. unfold showing. destruct (content_stack s), v; split; congruence. Qed.

Lemma no_dialog_true s : no_dialog s = true <-> dialogs s = [].
Proof. unfold no_dialog. destruct (dialogs s); split; congruence. Qed.

Ltac open_guard H :=
  repeat match type of H with
    | (_ && _) = true => let H' := fresh H in apply andb_true_iff in H as [H H']; open_guard H'
    | showing _ _ = true => apply showing_true in H
    | no_dialog _ = true => apply no_dialog_true in H
    end.

Section Phases.
Variable gettext : string -> string.

(** A transaction or an AUR build that starts from rest *)
Lemma phase_run_transaction n s :
  all_finished (threads s) -> idle_queue s = [] -> all_exited (procs s) ->
  phase_of (threads (run_transaction gettext n s))
    (idle_queue (run_transaction gettext n s))
    (procs (run_transaction gettext n s)) []
    (content_stack (run_transaction gettext n s))
    (btn_back_sensitive (run_transaction gettext n s))
    (current_process (run_transaction gettext n s)).
Proof.
  intros Hth Hq Hps. unfold run_transaction.
  destruct (action_type _) as [[]|] eqn:E; simpl;
    (eapply Starting;
     [apply sole_thread_started; assumption | reflexivity | assumption
     | assumption | repeat split]).
Qed.

Lemma phase_run_aur_build s :
  all_finished (threads s) -> idle_queue s = [] -> all_exited (procs s) ->
  btn_back_sensitive s = false ->
  phase_of (threads (run_aur_build gettext s))
    (idle_queue (run_aur_build gettext s))
    (procs (run_aur_build gettext s)) []
    (content_stack (run_aur_build gettext s))
    (btn_back_sensitive (run_aur_build gettext s))
    (current_process (run_aur_build gettext s)).
Proof.
  intros Hth Hq Hps Hback. unfold run_aur_build. simpl.
  eapply Starting;
    [apply sole_thread_started; assumption | reflexivity | assumption
    | assumption | repeat split; assumption].
Qed.

Lemma phase_prompt k s :
  all_finished (threads s) -> idle_queue s = [] -> all_exited (procs s) ->
  dialogs s = [] ->
  (content_stack s = pkgbuild_view -> btn_back_sensitive s = false) ->
  (k = then_run_aur_build -> btn_back_sensitive s = false) ->
  phase (prompt_for_password gettext k s).
Proof.
  intros Hth Hq Hps Hds Hv Hk. unfold phase, prompt_for_password. simpl.
  rewrite Hds. apply Resting; simpl; auto.
  intros d [<-|[]]. exact Hk.
Qed.

(** At rest: every thread finished, nothing queued, no child running. *)
Lemma phase_resting s :
  phase s ->
  content_stack s <> progress_view \/ btn_back_sensitive s = true
  \/ dialogs s <> [] ->
  all_finished (threads s) /\ idle_queue s = [] /\ all_exited (procs s) /\
  length (dialogs s) <= 1 /\
  (content_stack s = pkgbuild_view -> btn_back_sensitive s = false) /\
  (forall d, In d (dialogs s) -> callback_success d = then_run_aur_build ->
     btn_back_sensitive s = false).
Proof.
  intros Hph Hnot.
  destruct Hph as [? ? ? ? ? ? | ? ? ? ? ? ? (Hd & Hv & Hb)
                  | ? ? ? ? ? ? ? (Hd & Hv & Hb) | ? ? ? ? ? ? (Hd & Hv & Hb)
                  | ? ? ? ? ? ? ? (Hd & Hv & Hb)];
    [tauto | | | |];
    destruct Hnot as [Hn | [Hn | Hn]]; congruence.
Qed.

(** A step that leaves the seven observed components alone *)
Lemma phase_same s s' :
  threads s' = threads s -> idle_queue s' = idle_queue s ->
  procs s' = procs s -> dialogs s' = dialogs s ->
  content_stack s' = content_stack s ->
  btn_back_sensitive s' = btn_back_sensitive s ->
  current_process s' = current_process s ->
  phase s -> phase s'.
Proof. unfold phase. intros -> -> -> -> -> -> ->. auto. Qed.

Lemma phase_click_install p tmp s :
  phase s -> enabled s (ClickInstall p tmp) = true ->
  phase (initiate_install gettext p tmp s).
Proof.
  intros Hph En. simpl in En. open_guard En.
  destruct (phase_resting s Hph) as (Hth & Hq & Hps & Hds & Hv & Hk);
    [left; congruence|].
  unfold initiate_install. destruct (Search.is_aur p).
  - unfold phase, start_aur_review_process. simpl.
    eapply Starting;
      [apply sole_thread_started; assumption | reflexivity | assumption
      | assumption | repeat split; assumption].
  - destruct (negb _).
    + apply phase_prompt; simpl; try assumption; discriminate.
    + unfold phase.
      replace (dialogs (run_transaction gettext (Search.name p)
                          (set_action_type (Some install) s))) with (@nil dialog)
        by (unfold run_transaction; simpl; congruence).
      apply phase_run_transaction; assumption.
Qed.

Lemma phase_click_remove n s :
  phase s -> enabled s (ClickRemove n) = true ->
  phase (initiate_remove gettext n s).
Proof.
  intros Hph En. simpl in En. open_guard En.
  destruct (phase_resting s Hph) as (Hth & Hq & Hps & Hds & Hv & Hk);
    [left; congruence|].
  unfold initiate_remove. destruct (negb _).
  - apply phase_prompt; simpl; try assumption; discriminate.
  - unfold phase.
    replace (dialogs (run_transaction gettext n
                        (set_action_type (Some remove) s))) with (@nil dialog)
      by (unfold run_transaction; simpl; congruence).
    apply phase_run_transaction; assumption.
Qed.

Lemma phase_pkgbuild_proceed s :
  phase s -> enabled s PkgbuildProceed = true ->
  phase (on_pkgbuild_proceed gettext s).
Proof.
  intros Hph En. simpl in En. open_guard En.
  destruct (phase_resting s Hph) as (Hth & Hq & Hps & Hds & Hv & Hk);
    [left; congruence|].
  unfold on_pkgbuild_proceed. destruct (negb _).
  - apply phase_prompt; auto.
  - unfold phase.
    replace (dialogs (run_aur_build gettext s)) with (@nil dialog)
      by (unfold run_aur_build; simpl; congruence).
    apply phase_run_aur_build; auto.
Qed.

Lemma dialogs_run_transaction n s :
  dialogs (run_transaction gettext n s) = dialogs s.
Proof. unfold run_transaction. destruct (action_type _) as [[]|]; reflexivity. Qed.

Lemma dialogs_run_aur_build s : dialogs (run_aur_build gettext s) = dialogs s.
Proof. reflexivity. Qed.

Lemma phase_respond d response entry_text s :
  phase s -> dialogs s = d :: tail (dialogs s) ->
  phase (on_response gettext d response entry_text s).
Proof.
  intros Hph Hd.
  destruct (phase_resting s Hph) as (Hth & Hq & Hps & Hds & Hv & Hk);
    [right; right; congruence|].
  assert (Hone : dialogs s = [d]).
  { rewrite Hd in Hds |- *. destruct (tail (dialogs s)); [reflexivity|].
    simpl in Hds. lia. }
  unfold on_response.
  set (s1 := if String.eqb response "unlock" then _ else s).
  assert (H1 : dialogs s1 = [d] /\
               phase_of (threads s1) (idle_queue s1) (procs s1) []
                 (content_stack s1) (btn_back_sensitive s1) (current_process s1)).
  { subst s1.
    destruct (String.eqb response "unlock"); [destruct (PyStr.truthy entry_text)|].
    - destruct (callback_success d) eqn:Ek; simpl.
      + split; [now rewrite dialogs_run_transaction|].
        apply phase_run_transaction; assumption.
      + split; [assumption|].
        apply phase_run_aur_build; try assumption.
        simpl. apply (Hk d); [rewrite Hone; now left | assumption].
    - split; [assumption|]. apply Resting; simpl; auto. intros d' [].
    - split; [assumption|]. apply Resting; simpl; auto. intros d' []. }
  destruct H1 as [Hd1 Hp1]. unfold phase. simpl. rewrite Hd1. exact Hp1.
Qed.

Lemma phase_pkgbuild_cancel s :
  phase s -> enabled s PkgbuildCancel = true -> phase (on_pkgbuild_cancel s).
Proof.
  intros Hph En. simpl in En. open_guard En.
  destruct (phase_resting s Hph) as (Hth & Hq & Hps & Hds & Hv & Hk);
    [left; congruence|].
  unfold phase, on_pkgbuild_cancel. simpl.
  destruct (aur_temp_dir s) as [d|]; [destruct (path_exists d s)|]; simpl;
    (apply Resting; [assumption .. | discriminate | rewrite En0; intros ? []]).
Qed.

Lemma phase_back s :
  phase s -> enabled s BackClick = true -> phase (on_back_clicked s).
Proof.
  intros Hph En. simpl in En. apply andb_true_iff in En as [En Hd].
  apply no_dialog_true in Hd.
  destruct (phase_resting s Hph) as (Hth & Hq & Hps & Hds & Hv & Hk).
  { apply orb_true_iff in En as [En|En].
    - apply andb_true_iff in En as [_ En]. auto.
    - apply showing_true in En. left. congruence. }
  unfold phase, on_back_clicked. simpl.
  apply Resting; [assumption .. | discriminate | rewrite Hd; intros ? []].
Qed.

Lemma phase_view_log s :
  phase s -> enabled s ViewLogClick = true ->
  phase (on_view_log_clicked gettext s).
Proof.
  intros Hph En. simpl in En. open_guard En.
  destruct (phase_resting s Hph) as (Hth & Hq & Hps & Hds & Hv & Hk);
    [left; congruence|].
  unfold phase, on_view_log_clicked.
  destruct (action_type _) as [[]|]; simpl;
    (apply Resting; [assumption .. | discriminate | rewrite En0; intros ? []]).
Qed.

Lemma phase_cancel s : phase s -> phase (on_cancel_clicked gettext s).
Proof.
  intros Hph. unfold on_cancel_clicked.
  destruct (current_process s) as [h|]; [|assumption].
  unfold send_signal. simpl.
  destruct (procs s !! h) as [p|]; [destruct (returncode p)|];
    (eapply phase_same; [..|exact Hph]; reflexivity).
Qed.

Lemma phase_toggle s : phase s -> phase (on_toggle_details gettext s).
Proof.
  intros Hph. unfold on_toggle_details.
  destruct (shown s !! "revealer_details") as [[]|];
    (eapply phase_same; [..|exact Hph]; reflexivity).
Qed.

Lemma phase_final_call c s :
  is_log c = false ->
  all_finished (threads s) -> idle_queue s = [] -> all_exited (procs s) ->
  busy_ui (dialogs s) (content_stack s) (btn_back_sensitive s) ->
  phase (run_callback gettext c s).
Proof.
  intros Hc Hth Hq Hps (Hd & Hv & Hb). destruct c; [discriminate| | |].
  - unfold phase, run_callback, on_process_finished.
    destruct success, (pulse_timer_id _), (aur_temp_dir _) as [d|];
      try destruct (path_exists d _); try destruct (action_type _) as [[]|];
      simpl;
      (apply Resting; simpl;
       [assumption | assumption | assumption | rewrite Hd; simpl; lia
       | congruence | rewrite Hd; intros ? []]).
  - unfold phase, run_callback, show_pkgbuild_content. simpl.
    apply Resting; simpl;
      [assumption | assumption | assumption | rewrite Hd; simpl; lia
      | auto | rewrite Hd; intros ? []].
  - unfold phase, run_callback, show_aur_error. simpl.
    apply Resting; simpl;
      [assumption | assumption | assumption | rewrite Hd; simpl; lia
      | congruence | rewrite Hd; intros ? []].
Qed.

Lemma phase_idle c rest s :
  phase s -> idle_queue s = c :: rest ->
  phase (run_callback gettext c (set_idle_queue rest s)).
Proof.
  intros Hph Hq. unfold phase in Hph. rewrite Hq in Hph.
  destruct Hph as [? Hq' | ? ? ? ? Hq' | tid pkg_name h Hst Hcur Hch Hlogs Hui
                  | ? ? ? ? ? Hq' | logs c' Hth Hq' Hlogs Hc Hps Hui];
    try discriminate.
  - (* the child is still writing *)
    inversion Hlogs as [|? ? Hc Hrest]; subst.
    destruct c; try discriminate. simpl.
    eapply Reading; simpl; eauto.
  - destruct logs as [|l logs]; simpl in Hq'; injection Hq' as -> ->.
    + apply phase_final_call; simpl; auto.
    + inversion Hlogs as [|? ? Hl Hrest]; subst.
      destruct l; try discriminate. simpl.
      eapply Draining; simpl; eauto.
Qed.

Lemma wait_running h rc s p :
  procs s !! h = Some p -> is_running p = true ->
  wait h rc s =
    (rc, set_procs
           (<[ h := Popen (pid p) (args p) (shell p) (env p) (Some rc) ]> (procs s)) s).
Proof.
  intros Hp Hr. unfold wait. rewrite Hp. unfold is_running in Hr.
  destruct (returncode p); [discriminate | reflexivity].
Qed.

Lemma phase_thread tid t e s s' :
  phase s -> is_read_fail e = false ->
  threads s !! tid = Some t -> thread_step tid t e s = Some s' ->
  phase s'.
Proof.
  intros Hph Hclean Ht Hstep. unfold phase in Hph.
  assert (Hfin : is_finished t = true -> False).
  { intros Hf. destruct t; try discriminate. destruct e; discriminate. }
  destruct Hph as [Hth Hq Hps Hds Hv Hk | tid0 t0 Hst Hstart Hq Hps Hui
                  | tid0 pkg_name h Hst Hcur Hch Hlogs Hui
                  | tid0 h Hst Hcur Hch Hq Hui
                  | logs c Hth Hq Hlogs Hc Hps Hui].
  - exfalso. apply Hfin. eapply all_finished_lookup; eauto.
  - (* before Popen *)
    destruct (decide (tid = tid0)) as [->|Hne];
      [|exfalso; apply Hfin; destruct Hst as [_ Ho]; eauto].
    assert (t = t0) by (destruct Hst; congruence). subst t0.
    destruct t; try discriminate; destruct e; try discriminate;
      injection Hstep as <-; unfold phase; simpl.
    + eapply Reading; simpl;
        [now apply (sole_thread_moved _ _ _ _ Hst) | reflexivity
        | now apply sole_child_spawned | rewrite Hq; constructor | assumption].
    + unfold execute_shell_failed. simpl. rewrite Hq.
      eapply (Draining _ _ _ _ _ _ _ [call_append_log _]); simpl;
        [now apply (sole_thread_finished _ _ _ Hst) | reflexivity
        | repeat constructor | reflexivity | assumption | assumption].
    + eapply Cloning; simpl;
        [now apply (sole_thread_moved _ _ _ _ Hst) | reflexivity
        | now apply sole_child_spawned | assumption | assumption].
    + unfold clone_task_failed. simpl. rewrite Hq.
      eapply (Draining _ _ _ _ _ _ _ []); simpl;
        [now apply (sole_thread_finished _ _ _ Hst) | reflexivity
        | constructor | reflexivity | assumption | assumption].
  - (* reading the output of the child *)
    destruct (decide (tid = tid0)) as [->|Hne];
      [|exfalso; apply Hfin; destruct Hst as [_ Ho]; eauto].
    assert (t = ExecRead pkg_name h) by (destruct Hst; congruence). subst t.
    destruct e; try discriminate; simpl in Hstep.
    + destruct (PyStr.truthy line); [|discriminate]. injection Hstep as <-.
      unfold phase. simpl.
      eapply Reading; simpl; eauto.
      apply Forall_app. split; [assumption | repeat constructor].
    + rewrite Hcur in Hstep. pose proof Hch as [[p [Hp Hr]] _].
      rewrite (wait_running _ _ _ _ Hp Hr) in Hstep. injection Hstep as <-.
      unfold phase. simpl.
      eapply (Draining _ _ _ _ _ _ _ (idle_queue s)); simpl;
        [now apply (sole_thread_finished _ _ _ Hst) | reflexivity
        | assumption | reflexivity | now apply sole_child_reaped | assumption].
  - (* waiting for the clone *)
    destruct (decide (tid = tid0)) as [->|Hne];
      [|exfalso; apply Hfin; destruct Hst as [_ Ho]; eauto].
    assert (t = CloneWait) by (destruct Hst; congruence). subst t.
    destruct e; try discriminate; simpl in Hstep.
    rewrite Hcur in Hstep. pose proof Hch as [[p [Hp Hr]] _].
    rewrite (wait_running _ _ _ _ Hp Hr) in Hstep. injection Hstep as <-.
    destruct pkgbuild as [text|], (rc =? 0)%Z; unfold phase; simpl;
      rewrite Hq; simpl;
      repeat match goal with
        | |- context [match ?x with Some _ => _ | None => _ end] => destruct x
        end;
      (eapply (Draining _ _ _ _ _ _ _ []); simpl;
       [now apply (sole_thread_finished _ _ _ Hst) | reflexivity
       | constructor | reflexivity | now apply sole_child_reaped | assumption]).
  - exfalso. apply Hfin. eapply all_finished_lookup; eauto.
Qed.

Lemma step_phase s e s' :
  phase s -> is_read_fail e = false -> step gettext s e = Some s' -> phase s'.
Proof.
  intros Hph Hclean. unfold step.
  destruct (enabled s e) eqn:En; [|discriminate].
  destruct e; simpl handle;
    try discriminate Hclean;
    try (destruct (threads s !! tid) as [t|] eqn:Ht; [|discriminate];
         intros Hstep; eapply phase_thread; eauto; fail).
  - intros [= <-]. now apply phase_click_install.
  - intros [= <-]. now apply phase_click_remove.
  - destruct (dialogs s) as [|d ds] eqn:Hd; [discriminate|]. intros [= <-].
    apply phase_respond; [assumption | now rewrite Hd].
  - intros [= <-]. now apply phase_pkgbuild_cancel.
  - intros [= <-]. now apply phase_pkgbuild_proceed.
  - intros [= <-]. now apply phase_cancel.
  - intros [= <-]. now apply phase_back.
  - intros [= <-]. now apply phase_view_log.
  - intros [= <-]. now apply phase_toggle.
  - destruct (idle_queue s) as [|c rest] eqn:Hq; [discriminate|]. intros [= <-].
    now apply phase_idle.
Qed.

Lemma phase_boot environ mask files0 dirs0 : phase (boot gettext environ mask files0 dirs0).
Proof.
  unfold phase. simpl.
  apply Resting;
    [constructor | reflexivity | constructor | simpl; lia | discriminate
    | intros d []].
Qed.

Lemma run_phase es : forall s s',
  phase s -> no_read_failure es = true -> run gettext s es = Some s' -> phase s'.
Proof.
  induction es as [|e es IH]; intros s s' Hph Hclean Hrun; simpl in *.
  - now injection Hrun as <-.
  - apply andb_true_iff in Hclean as [He Hes].
    destruct (step gettext s e) as [s1|] eqn:Hstep; [|discriminate].
    apply (IH s1); [|assumption..].
    eapply step_phase; eauto. now apply negb_true_iff in He.
Qed.

Lemma not_busy_at_rest s :
  all_finished (threads s) -> all_exited (procs s) -> busy s = false.
Proof.
  intros Hth Hps. unfold busy. apply orb_false_iff. split.
  - induction Hth as [|t ths Ht _ IH]; simpl; [reflexivity|]. now rewrite Ht.
  - induction Hps as [|p ps Hp _ IH]; simpl; [reflexivity|]. now rewrite Hp.
Qed.

Lemma blocked_when_busy_ui s :
  busy_ui (dialogs s) (content_stack s) (btn_back_sensitive s) ->
  forall p tmp package_name,
    enabled s (ClickInstall p tmp) = false /\
    enabled s (ClickRemove package_name) = false /\
    enabled s PkgbuildProceed = false.
Proof.
  intros (_ & Hv & _) p tmp n. simpl. unfold showing. rewrite Hv. auto.
Qed.

Lemma phase_serial s :
  phase s ->
  one_thread_at_most s /\ one_child_at_most s /\ intents_blocked s.
Proof.
  unfold one_thread_at_most, one_child_at_most, intents_blocked.
  intros [Hth Hq Hps Hds Hv Hk | tid0 t0 Hst Hstart Hq Hps Hui
         | tid0 pkg_name h Hst Hcur Hch Hlogs Hui
         | tid0 h Hst Hcur Hch Hq Hui
         | logs c Hth Hq Hlogs Hc Hps Hui].
  - split; [now apply all_finished_one|]. split; [now apply all_exited_one|].
    intros Hbusy. rewrite not_busy_at_rest in Hbusy by assumption. discriminate.
  - split; [now apply (sole_thread_one tid0 t0)|].
    split; [now apply all_exited_one|]. intros _. now apply blocked_when_busy_ui.
  - split; [now apply (sole_thread_one tid0 (ExecRead pkg_name h))|].
    split; [now apply (sole_child_one h)|]. intros _. now apply blocked_when_busy_ui.
  - split; [now apply (sole_thread_one tid0 CloneWait)|].
    split; [now apply (sole_child_one h)|]. intros _. now apply blocked_when_busy_ui.
  - split; [now apply all_finished_one|]. split; [now apply all_exited_one|].
    intros _. now apply blocked_when_busy_ui.
Qed.

Lemma initiate_remove_starts_worker n s :
  password_given s = true ->
  threads (initiate_remove gettext n s)
  = threads s ++ [ExecStart (sudo_wrapper ++ " pacman -Rns --noconfirm " ++ n) n].
Proof.
  intros Hpw. unfold initiate_remove.
  change (password_given (set_action_type (Some remove) s)) with (password_given s).
  now rewrite Hpw.
Qed.

Lemma initiate_install_starts_worker p tmp s :
  password_given s = true -> Search.is_aur p = false ->
  threads (initiate_install gettext p tmp s)
  = threads s ++
    [ExecStart (sudo_wrapper ++ " pacman -S --noconfirm --needed " ++ Search.name p)
       (Search.name p)].
Proof.
  intros Hpw Haur. unfold initiate_install. rewrite Haur.
  change (password_given (set_action_type (Some install) s)) with (password_given s).
  now rewrite Hpw.
Qed.

(** C2, in the form the code supports: the entry points reject nothing; it is the user
    interface that keeps transactions apart. With the credential cached,
    [initiate_remove] and [initiate_install] start a worker whatever is
    running. Along every run that the user interface lets through, and
    in which reading a child's output never raises, no two workers are
    alive and no two children are running at once, and while one is, the
    buttons that submit an intent are out of reach. *)
Theorem transactions_serialised_by_the_interface
  environ mask files0 dirs0 es s :
  no_read_failure es = true ->
  run gettext (boot gettext environ mask files0 dirs0) es = Some s ->
  one_thread_at_most s /\ one_child_at_most s /\ intents_blocked s /\
  (forall s0 n, password_given s0 = true ->
     threads (initiate_remove gettext n s0)
     = threads s0 ++ [ExecStart (sudo_wrapper ++ " pacman -Rns --noconfirm " ++ n) n]).
Proof.
  intros Hclean Hrun.
  pose proof (run_phase es _ _ (phase_boot environ mask files0 dirs0) Hclean Hrun)
    as Hph.
  destruct (phase_serial s Hph) as (H1 & H2 & H3).
  split; [exact H1|]. split; [exact H2|]. split; [exact H3|].
  intros s0 n. apply initiate_remove_starts_worker.
Qed.

(** **** The end of a transaction *)

Lemma eof_queues_verdict s tid pkg_name child h p rc :
  threads s !! tid = Some (ExecRead pkg_name child) ->
  current_process s = Some h -> procs s !! h = Some p -> returncode p = None ->
  exists s1, step gettext s (Eof tid rc) = Some s1 /\
    idle_queue s1 = idle_queue s ++ [call_on_process_finished (rc =? 0)%Z pkg_name].
Proof.
  intros Ht Hcur Hp Hr. unfold step. simpl. rewrite Ht. simpl. rewrite Hcur.
  rewrite (wait_running h rc s p Hp) by (unfold is_running; now rewrite Hr).
  eexists. split; reflexivity.
Qed.

Lemma cancel_keeps_worker s :
  threads (on_cancel_clicked gettext s) = threads s /\
  idle_queue (on_cancel_clicked gettext s) = idle_queue s /\
  procs (on_cancel_clicked gettext s) = procs s /\
  current_process (on_cancel_clicked gettext s) = current_process s /\
  process_in_progress (on_cancel_clicked gettext s) = process_in_progress s.
Proof.
  unfold on_cancel_clicked, send_signal.
  destruct (current_process s) as [h|] eqn:E; simpl; [|now rewrite E].
  destruct (procs s !! h) as [p|]; [destruct (returncode p)|]; simpl; now rewrite E.
Qed.

Lemma outcome_of_verdict success pkg_name s :
  content_stack s = progress_view ->
  outcome_shown gettext (on_process_finished gettext success pkg_name s)
  = Some (if success then Succeeded else Failed).
Proof.
  intros Hv. unfold outcome_shown, on_process_finished, showing.
  destruct success, (pulse_timer_id _), (aur_temp_dir _) as [d|];
    try destruct (path_exists d _); try destruct (action_type _) as [[]|];
    simpl; rewrite ?Hv; try reflexivity;
    rewrite lookup_insert_eq, String.eqb_refl; reflexivity.
Qed.

(** C3: the exit code of the child decides the outcome. When the
    output of the child ends and [wait] returns [rc], [execute_shell]
    queues [on_process_finished] with [rc == 0], whether or not a
    cancellation was requested before; when [Popen] or [readline]
    raises, it queues the error text and [on_process_finished] with
    [False]; and [on_process_finished] shows success for [True] and
    failure for [False]. *)
Theorem exit_code_decides_outcome
  s tid pkg_name child h p rc err s0 tid0 command s2 :
  threads s !! tid = Some (ExecRead pkg_name child) ->
  current_process s = Some h -> procs s !! h = Some p -> returncode p = None ->
  threads s0 !! tid0 = Some (ExecStart command pkg_name) ->
  content_stack s2 = progress_view ->
  (exists s1, step gettext s (Eof tid rc) = Some s1 /\
     idle_queue s1 = idle_queue s ++ [call_on_process_finished (rc =? 0)%Z pkg_name]) /\
  (exists s1, step gettext (on_cancel_clicked gettext s) (Eof tid rc) = Some s1 /\
     idle_queue s1 = idle_queue s ++ [call_on_process_finished (rc =? 0)%Z pkg_name]) /\
  (exists s1, step gettext s (ReadFail tid err) = Some s1 /\
     idle_queue s1 = idle_queue s ++
       [call_append_log (nl ++ "Error: " ++ err);
        call_on_process_finished false pkg_name]) /\
  (exists s1, step gettext s0 (PopenFail tid0 err) = Some s1 /\
     idle_queue s1 = idle_queue s0 ++
       [call_append_log (nl ++ "Error: " ++ err);
        call_on_process_finished false pkg_name]) /\
  outcome_shown gettext
    (run_callback gettext (call_on_process_finished (rc =? 0)%Z pkg_name) s2)
  = Some (if (rc =? 0)%Z then Succeeded else Failed) /\
  ((rc =? 0)%Z = true <-> rc = 0%Z).
Proof.
  intros Ht Hcur Hp Hr Ht0 Hv.
  destruct (cancel_keeps_worker s) as (Hc1 & Hc2 & Hc3 & Hc4 & _).
  split; [now apply (eof_queues_verdict s tid pkg_name child h p)|].
  split.
  { destruct (eof_queues_verdict (on_cancel_clicked gettext s) tid pkg_name child h p rc)
      as (s1 & Hs1 & Hq1); try congruence.
    exists s1. split; [assumption | congruence]. }
  split.
  { unfold step. simpl. rewrite Ht. simpl. eexists. split; [reflexivity|].
    unfold execute_shell_failed. simpl. now rewrite <- app_assoc. }
  split.
  { unfold step. simpl. rewrite Ht0. simpl. eexists. split; [reflexivity|].
    unfold execute_shell_failed. simpl. now rewrite <- app_assoc. }
  split; [now apply outcome_of_verdict | apply Z.eqb_eq].
Qed.

(** **** Cancellation *)

(** C8, in the form the code supports: with a child running, [on_cancel_clicked] appends
    the cancellation line to the log and sends SIGINT to the child
    itself, by [os.kill] on its pid: no signal goes to a process group
    and no other signal is sent. The child is not waited for and the
    worker is left as it is: the child ends on its own. *)
Theorem cancel_interrupts_the_child s h p :
  current_process s = Some h -> procs s !! h = Some p -> returncode p = None ->
  os_calls (on_cancel_clicked gettext s) = os_calls s ++ [os_kill (pid p) SIGINT] /\
  output_buffer (on_cancel_clicked gettext s)
  = (output_buffer s ++ nl ++ gettext "--- Cancelling operation... ---" ++ nl)%string /\
  procs (on_cancel_clicked gettext s) = procs s /\
  threads (on_cancel_clicked gettext s) = threads s /\
  idle_queue (on_cancel_clicked gettext s) = idle_queue s /\
  current_process (on_cancel_clicked gettext s) = Some h.
Proof.
  intros Hcur Hp Hr. unfold on_cancel_clicked, send_signal. rewrite Hcur. simpl.
  rewrite Hp, Hr. simpl. repeat split; auto.
Qed.

(** **** The clone directory *)

Lemma under_refl d : under d d = true.
Proof. unfold under. now rewrite String.eqb_refl. Qed.

Lemma rmtree_removes d s : path_exists d (rmtree d s) = false.
Proof.
  unfold path_exists, rmtree. simpl. apply orb_false_iff. split.
  - apply bool_decide_eq_false. intros Hin.
    apply elem_of_filter in Hin as [Hu _]. rewrite under_refl in Hu. discriminate.
  - apply bool_decide_eq_false. intros [f Hf].
    apply map_lookup_filter_Some in Hf as [_ Hu]. simpl in Hu.
    rewrite under_refl in Hu. discriminate.
Qed.

(** The review page's Cancel removes the directory. *)
Lemma review_cancel_removes_directory s tmp :
  aur_temp_dir s = Some tmp ->
  path_exists tmp (on_pkgbuild_cancel s) = false.
Proof.
  intros Ht. unfold on_pkgbuild_cancel. rewrite Ht.
  destruct (path_exists tmp s) eqn:E.
  - change (path_exists tmp (set_content_stack search_view (rmtree tmp s)))
      with (path_exists tmp (rmtree tmp s)).
    apply rmtree_removes.
  - exact E.
Qed.

(** The end of the build removes it too, whatever the verdict. *)
Lemma build_end_removes_directory success pkg_name s tmp :
  aur_temp_dir s = Some tmp ->
  path_exists tmp (on_process_finished gettext success pkg_name s) = false.
Proof.
  intros Ht.
  assert (Hdone : forall s', dirs s' = dirs (if path_exists tmp s then rmtree tmp s else s) ->
            files s' = files (if path_exists tmp s then rmtree tmp s else s) ->
            path_exists tmp s' = false).
  { intros s' Hd Hf. unfold path_exists. rewrite Hd, Hf.
    destruct (path_exists tmp s) eqn:E; [apply rmtree_removes | exact E]. }
  apply Hdone; unfold on_process_finished;
    destruct success, (pulse_timer_id _); simpl; rewrite Ht;
    unfold path_exists; simpl;
    repeat match goal with
      | |- context [if ?b then _ else _] => destruct b
      | |- context [match action_type ?x with _ => _ end] => destruct (action_type x) as [[]|]
      end; reflexivity.
Qed.

(** C4: the fetch failure path. When the clone ends and there is no
    PKGBUILD, whatever the exit code, [clone_task] queues
    [show_aur_error]; once that has run the worker is finished, the
    back button is sensitive, and the directory that [mkdtemp] made is
    still there: [show_aur_error] removes nothing. *)
Theorem fetch_failure_leaves_clone_directory s tid h p rc tmp :
  threads s !! tid = Some CloneWait ->
  current_process s = Some h -> procs s !! h = Some p -> returncode p = None ->
  aur_temp_dir s = Some tmp -> tmp ∈ dirs s -> idle_queue s = [] ->
  files s !! (tmp ++ "/PKGBUILD")%string = None ->
  exists s1 s2,
    step gettext s (CloneExit tid rc None) = Some s1 /\
    step gettext s1 IdleRun = Some s2 /\
    threads s2 = <[ tid := Finished ]> (threads s) /\
    idle_queue s2 = [] /\
    btn_back_sensitive s2 = true /\
    dirs s2 = dirs s /\
    path_exists tmp s2 = true.
Proof.
  intros Ht Hcur Hp Hr Htmp Hin Hq Hnone.
  unfold step. simpl. rewrite Ht. simpl. rewrite Hcur.
  rewrite (wait_running h rc s p Hp) by (unfold is_running; now rewrite Hr).
  unfold pkgbuild_path. simpl. rewrite Htmp. simpl. rewrite Hnone.
  destruct (rc =? 0)%Z;
    (eexists _, _; split; [reflexivity|]; simpl; rewrite Hq; simpl;
     split; [reflexivity|]; simpl;
     repeat split; try reflexivity;
     unfold path_exists; simpl; apply orb_true_iff; left;
     now apply bool_decide_eq_true).
Qed.

(** **** The sudo bridge *)

Lemma askpass_is_not_wrapper : askpass_script <> sudo_wrapper.
Proof. intros H. vm_compute in H. discriminate H. Qed.

Lemma setup_sudo_env_files s :
  files (setup_sudo_env s)
  = <[ sudo_wrapper := File sudo_wrapper_text mode_0o700 ]>
      (<[ askpass_script := File askpass_text mode_0o700 ]> (files s)).
Proof.
  unfold setup_sudo_env, chmod, write_file. simpl.
  apply map_eq. intros k.
  destruct (decide (k = sudo_wrapper)) as [->|Hw].
  - rewrite lookup_alter_eq, !lookup_insert_eq. reflexivity.
  - rewrite lookup_alter_ne, !(lookup_insert_ne _ sudo_wrapper) by congruence.
    destruct (decide (k = askpass_script)) as [->|Ha].
    + rewrite lookup_alter_eq, !lookup_insert_eq. reflexivity.
    + rewrite lookup_alter_ne, !lookup_insert_ne by congruence. reflexivity.
Qed.

(** C7: [setup_sudo_env] leaves both helper files with mode 0o700, which
    grants nothing to group and others; their texts are fixed, the
    askpass helper echoing the environment variable LINPAMA_SUDO_PW;
    neither the files nor the command lines of the two kinds of
    transaction depend on the password; and the child that
    [execute_shell] starts gets the password in that variable of its
    environment. *)
Theorem sudo_helpers_owner_only_and_secret_free
  s o pw n tid command pkg_name new_pid :
  PyStr.truthy pw = true ->
  user_password s = Some pw ->
  threads s !! tid = Some (ExecStart command pkg_name) ->
  files (setup_sudo_env s) !! askpass_script
  = Some (File askpass_text mode_0o700) /\
  files (setup_sudo_env s) !! sudo_wrapper
  = Some (File sudo_wrapper_text mode_0o700) /\
  (mode_0o700 = 448 /\ Z.land mode_0o700 (7 * 8 + 7) = 0)%Z /\
  askpass_text
  = ("#!/bin/sh" ++ nl ++ "echo " ++ dq ++ "$LINPAMA_SUDO_PW" ++ dq ++ nl)%string /\
  files (setup_sudo_env (set_user_password o s)) = files (setup_sudo_env s) /\
  threads (run_transaction gettext n (set_user_password o s))
  = threads (run_transaction gettext n s) /\
  threads (run_aur_build gettext (set_user_password o s))
  = threads (run_aur_build gettext s) /\
  exists s1, step gettext s (PopenOk tid new_pid) = Some s1 /\
    procs s1 = procs s ++
      [Popen new_pid [command] true
         (Some (<[ env_var_name := pw ]> (os_environ s))) None].
Proof.
  intros Hpw Hs Ht.
  split.
  { rewrite setup_sudo_env_files.
    rewrite lookup_insert_ne by (intros H; symmetry in H; now apply askpass_is_not_wrapper).
    apply lookup_insert_eq. }
  split; [rewrite setup_sudo_env_files; apply lookup_insert_eq|].
  split; [split; reflexivity|].
  split; [reflexivity|].
  split; [now rewrite !setup_sudo_env_files|].
  split.
  { unfold run_transaction. simpl. destruct (action_type s) as [[]|]; reflexivity. }
  split; [reflexivity|].
  unfold step. simpl. rewrite Ht. simpl. eexists. split; [reflexivity|].
  simpl. unfold child_env. now rewrite Hs, Hpw.
Qed.

(** **** The credential *)

Ltac split_matches :=
  repeat match goal with
    | |- context [match ?x with _ => _ end] =>
        match type of x with
        | bool => destruct x
        | option _ => destruct x
        | action => destruct x
        | _ => fail 1
        end
    end.

Lemma wait_credential h rc s :
  user_password (snd (wait h rc s)) = user_password s /\
  dialogs (snd (wait h rc s)) = dialogs s.
Proof.
  unfold wait. destruct (procs s !! h) as [p|]; [destruct (returncode p)|];
    split; reflexivity.
Qed.

Lemma thread_step_credential tid t e s s' :
  thread_step tid t e s = Some s' ->
  user_password s' = user_password s /\ dialogs s' = dialogs s.
Proof.
  unfold thread_step, execute_shell_failed, clone_task_failed.
  destruct e, t; try discriminate; intros H;
    try (destruct (current_process s) as [h|];
         [pose proof (wait_credential h rc s) as [Hw1 Hw2];
          destruct (wait h rc s) as [z s0]; simpl in Hw1, Hw2|]);
    repeat match type of H with
      | context [match ?x with _ => _ end] => destruct x
      end;
    try discriminate; injection H as <-; split; simpl; congruence.
Qed.

Lemma callback_credential c s :
  user_password (run_callback gettext c s) = user_password s /\
  dialogs (run_callback gettext c s) = dialogs s.
Proof.
  destruct c; simpl; unfold on_process_finished; split_matches; split; reflexivity.
Qed.

(** Every step other than the answer to a dialog leaves the password
    alone, and opens a dialog only when no password is cached and no
    dialog is open. *)
Lemma step_credential s e s' :
  step gettext s e = Some s' -> is_respond e = false ->
  user_password s' = user_password s /\
  (dialogs s' = dialogs s \/
   (password_given s = false /\ dialogs s = [] /\ exists d, dialogs s' = [d])).
Proof.
  unfold step. destruct (enabled s e) eqn:En; [|discriminate].
  destruct e; try discriminate; unfold handle; intros H _;
    try (destruct (threads s !! tid) as [t|]; [|discriminate];
         apply thread_step_credential in H as [-> ->];
         split; [reflexivity | left; reflexivity]).
  - injection H as <-. simpl in En. open_guard En. unfold initiate_install.
    destruct (Search.is_aur p); [split; auto|].
    change (password_given (set_action_type (Some install) s)) with (password_given s).
    destruct (password_given s) eqn:Hpw; simpl.
    + split; [reflexivity|]. left. first [reflexivity | apply dialogs_run_transaction].
    + split; [reflexivity|]. right. rewrite En0. eauto.
  - injection H as <-. simpl in En. open_guard En. unfold initiate_remove.
    change (password_given (set_action_type (Some remove) s)) with (password_given s).
    destruct (password_given s) eqn:Hpw; simpl.
    + split; [reflexivity|]. left. first [reflexivity | apply dialogs_run_transaction].
    + split; [reflexivity|]. right. rewrite En0. eauto.
  - injection H as <-. unfold on_pkgbuild_cancel. split_matches; auto.
  - injection H as <-. simpl in En. open_guard En. unfold on_pkgbuild_proceed.
    destruct (password_given s) eqn:Hpw; simpl.
    + split; [reflexivity|]. left. reflexivity.
    + split; [reflexivity|]. right. rewrite En0. eauto.
  - injection H as <-. unfold on_cancel_clicked, send_signal. split_matches; auto.
  - injection H as <-. auto.
  - injection H as <-. unfold on_view_log_clicked. split_matches; auto.
  - injection H as <-. unfold on_toggle_details. split_matches; auto.
  - destruct (idle_queue s) as [|c rest]; [discriminate|]. injection H as <-.
    destruct (callback_credential c (set_idle_queue rest s)) as [-> ->]. auto.
Qed.

Lemma on_response_dialogs d response entry_text s :
  dialogs (on_response gettext d response entry_text s) = tail (dialogs s).
Proof.
  unfold on_response.
  destruct (String.eqb response "unlock"), (PyStr.truthy entry_text),
    (callback_success d); simpl; rewrite ?dialogs_run_transaction; reflexivity.
Qed.

Lemma user_password_run_transaction n s :
  user_password (run_transaction gettext n s) = user_password s.
Proof. unfold run_transaction. destruct (action_type _) as [[]|]; reflexivity. Qed.

Lemma threads_run_transaction n s :
  length (threads (run_transaction gettext n s)) = S (length (threads s)).
Proof.
  unfold run_transaction. destruct (action_type _) as [[]|]; simpl;
    rewrite length_app; simpl; lia.
Qed.

(** The answer to the dialog: unlocking with a password caches it and
    calls the pending action, which starts a worker; anything else
    changes nothing but the dialog. *)
Lemma on_response_effect d response entry_text s :
  let s' := on_response gettext d response entry_text s in
  if String.eqb response "unlock" && PyStr.truthy entry_text then
    user_password s' = Some entry_text /\
    length (threads s') = S (length (threads s))
  else
    user_password s' = user_password s /\ threads s' = threads s /\
    procs s' = procs s /\ idle_queue s' = idle_queue s /\
    files s' = files s.
Proof.
  unfold on_response.
  destruct (String.eqb response "unlock"), (PyStr.truthy entry_text); simpl;
    try (repeat split; reflexivity).
  destruct (callback_success d); simpl.
  - rewrite user_password_run_transaction, threads_run_transaction. auto.
  - rewrite length_app. simpl. split; [reflexivity | lia].
Qed.

Lemma step_prompt_pending s e s' :
  prompt_pending s -> step gettext s e = Some s' -> prompt_pending s'.
Proof.
  intros Hk Hstep. destruct (is_respond e) eqn:Er.
  - destruct e; try discriminate. unfold step in Hstep. simpl in Hstep.
    destruct (dialogs s) as [|d ds] eqn:Hd; [discriminate|].
    injection Hstep as <-. left. rewrite on_response_dialogs, Hd. simpl.
    destruct Hk as [Hk | (_ & d' & Hk)]; congruence.
  - destruct (step_credential s e s' Hstep Er) as [Hpw [Hd | (Hno & Hd & d & Hd')]].
    + unfold prompt_pending, password_given in *. rewrite Hpw, Hd. exact Hk.
    + right. unfold password_given in *. rewrite Hpw. eauto.
Qed.

Lemma step_unlocked pw s e s' :
  PyStr.truthy pw = true ->
  unlocked pw s -> step gettext s e = Some s' -> unlocked pw s'.
Proof.
  intros Htruthy [Hpw Hd] Hstep. destruct (is_respond e) eqn:Er.
  - destruct e; try discriminate. unfold step in Hstep. simpl in Hstep.
    rewrite Hd in Hstep. discriminate.
  - destruct (step_credential s e s' Hstep Er) as [Hpw' [Hd' | (Hno & _)]].
    + split; congruence.
    + unfold password_given in Hno. rewrite Hpw, Htruthy in Hno. discriminate.
Qed.

Lemma run_prompt_pending es : forall s s',
  prompt_pending s -> run gettext s es = Some s' -> prompt_pending s'.
Proof.
  induction es as [|e es IH]; intros s s' Hk Hrun; simpl in Hrun.
  - now injection Hrun as <-.
  - destruct (step gettext s e) as [s1|] eqn:Hstep; [|discriminate].
    eauto using step_prompt_pending.
Qed.

Lemma run_unlocked pw es : forall s s',
  PyStr.truthy pw = true ->
  unlocked pw s -> run gettext s es = Some s' -> unlocked pw s'.
Proof.
  induction es as [|e es IH]; intros s s' Htruthy Hu Hrun; simpl in Hrun.
  - now injection Hrun as <-.
  - destruct (step gettext s e) as [s1|] eqn:Hstep; [|discriminate].
    eauto using step_unlocked.
Qed.

(** C9: the credential is asked for until it is given, and never
    again. When a dialog is answered with Unlock and a password, the
    password is cached and the pending action starts its worker; from
    then on, whatever happens, the same password stays cached, no
    dialog is open, and a child started by [execute_shell] gets that
    password in its environment. When the dialog is cancelled, or
    answered with an empty entry, no password is cached, and no worker,
    no child and no idle call is added. *)
Theorem credential_prompted_until_given
  environ mask files0 dirs0 es1 s1 response entry_text s2 es2 s3 :
  run gettext (boot gettext environ mask files0 dirs0) es1 = Some s1 ->
  step gettext s1 (Respond response entry_text) = Some s2 ->
  run gettext s2 es2 = Some s3 ->
  if String.eqb response "unlock" && PyStr.truthy entry_text then
    user_password s2 = Some entry_text /\
    length (threads s2) = S (length (threads s1)) /\
    user_password s3 = Some entry_text /\ dialogs s3 = [] /\
    child_env s3 = <[ env_var_name := entry_text ]> (os_environ s3)
  else
    password_given s2 = false /\ user_password s2 = user_password s1 /\
    threads s2 = threads s1 /\ procs s2 = procs s1 /\
    idle_queue s2 = idle_queue s1 /\ dialogs s2 = [].
Proof.
  intros Hrun1 Hstep Hrun2.
  assert (Hk : prompt_pending s1).
  { eapply run_prompt_pending; [|exact Hrun1]. now left. }
  unfold step in Hstep. simpl in Hstep.
  destruct (dialogs s1) as [|d ds] eqn:Hd; [discriminate|].
  injection Hstep as <-.
  destruct Hk as [Hk | (Hno & d' & Hk)]; [congruence|].
  assert (ds = []) by congruence. subst ds.
  pose proof (on_response_effect d response entry_text s1) as Heff.
  pose proof (on_response_dialogs d response entry_text s1) as Hdl.
  rewrite Hd in Hdl. simpl tail in Hdl. cbv zeta in Heff.
  destruct (String.eqb response "unlock" && PyStr.truthy entry_text) eqn:E.
  - destruct Heff as [Hpw Hth].
    apply andb_true_iff in E as [_ Htruthy].
    destruct (run_unlocked entry_text es2 _ s3 Htruthy (conj Hpw Hdl) Hrun2)
      as [Hpw3 Hd3].
    repeat split; try assumption.
    unfold child_env. now rewrite Hpw3, Htruthy.
  - destruct Heff as (Hpw & Hth & Hps & Hq & _).
    unfold password_given in *. rewrite Hpw. auto 10.
Qed.

End Phases.

(** **** Concrete runs *)

Lemma transactions_serialised_witness :
  no_read_failure demo_running = true /\
  run no_catalogue demo_boot demo_running = Some demo_child_running /\
  one_thread_at_most demo_child_running /\
  one_child_at_most demo_child_running /\
  intents_blocked demo_child_running.
Proof.
  assert (H1 : no_read_failure demo_running = true) by reflexivity.
  assert (H2 : run no_catalogue demo_boot demo_running = Some demo_child_running)
    by (vm_compute; reflexivity).
  destruct (transactions_serialised_by_the_interface no_catalogue ∅ 18 ∅ ∅
              demo_running demo_child_running H1 H2) as (Ha & Hb & Hc & _).
  exact (conj H1 (conj H2 (conj Ha (conj Hb Hc)))).
Defined.

(** C2 in its strict form does not hold: submitted while a child runs,
    [initiate_remove] starts a second worker. *)
Lemma second_intent_not_rejected : ~ rejects_second_intent no_catalogue.
Proof.
  intros H.
  destruct (H demo_child_running "gcc" demo_aur_pkg "") as [Hrm _];
    [vm_compute; reflexivity|].
  assert (Hlen : length (threads (initiate_remove no_catalogue "gcc" demo_child_running))
                 = S (length (threads demo_child_running)))
    by (vm_compute; reflexivity).
  rewrite Hrm in Hlen. lia.
Qed.

(** Why the run must be free of read failures: when [readline] raises,
    the child is neither waited for nor signalled, the back button
    becomes sensitive, and the next removal runs beside it. *)
Example read_failure_abandons_child :
  option_map (fun s => (returncode <$> procs s, is_finished <$> threads s))
    (run no_catalogue demo_boot demo_read_failure)
  = Some ([None; None], [true; false]).
Proof. vm_compute. reflexivity. Qed.

Lemma exit_code_decides_outcome_witness :
  let p := default (Popen 0 [] false None None) (procs demo_child_running !! 0) in
  threads demo_child_running !! 0 = Some (ExecRead "vim" 0) /\
  current_process demo_child_running = Some 0 /\
  procs demo_child_running !! 0 = Some p /\ returncode p = None /\
  outcome_shown no_catalogue
    (run_callback no_catalogue
       (call_on_process_finished (130 =? 0)%Z "vim") demo_child_running)
  = Some Failed.
Proof.
  intros p.
  assert (H1 : threads demo_child_running !! 0 = Some (ExecRead "vim" 0))
    by (vm_compute; reflexivity).
  assert (H2 : current_process demo_child_running = Some 0)
    by (vm_compute; reflexivity).
  assert (H3 : procs demo_child_running !! 0 = Some p) by (vm_compute; reflexivity).
  assert (H4 : returncode p = None) by (vm_compute; reflexivity).
  assert (H5 : threads demo_unlocked !! 0
               = Some (ExecStart (sudo_wrapper ++ " pacman -Rns --noconfirm vim") "vim"))
    by (vm_compute; reflexivity).
  assert (H6 : content_stack demo_child_running = progress_view)
    by (vm_compute; reflexivity).
  destruct (exit_code_decides_outcome no_catalogue demo_child_running 0 "vim" 0 0 p
              130 "" demo_unlocked 0 _ demo_child_running H1 H2 H3 H4 H5 H6)
    as (_ & _ & _ & _ & Hout & _).
  exact (conj H1 (conj H2 (conj H3 (conj H4 Hout)))).
Defined.

Lemma cancel_interrupts_the_child_witness :
  let p := default (Popen 0 [] false None None) (procs demo_child_running !! 0) in
  current_process demo_child_running = Some 0 /\
  procs demo_child_running !! 0 = Some p /\ returncode p = None /\
  os_calls (on_cancel_clicked no_catalogue demo_child_running)
  = os_calls demo_child_running ++ [os_kill (pid p) SIGINT].
Proof.
  intros p.
  assert (H2 : current_process demo_child_running = Some 0)
    by (vm_compute; reflexivity).
  assert (H3 : procs demo_child_running !! 0 = Some p) by (vm_compute; reflexivity).
  assert (H4 : returncode p = None) by (vm_compute; reflexivity).
  destruct (cancel_interrupts_the_child no_catalogue demo_child_running 0 p H2 H3 H4)
    as (Hsig & _).
  exact (conj H2 (conj H3 (conj H4 Hsig))).
Defined.

(** C8 in its strict form does not hold: the signal goes to the child,
    by its pid; no [killpg] is made. *)
Lemma cancel_does_not_signal_group : ~ cancel_signals_process_group no_catalogue.
Proof.
  intros H.
  pose (p := default (Popen 0 [] false None None) (procs demo_child_running !! 0)).
  destruct (H demo_child_running 0 p) as [pgid Hin];
    try (vm_compute; reflexivity).
  assert (Hcalls : os_calls (on_cancel_clicked no_catalogue demo_child_running)
                   = [os_kill 4711 SIGINT])
    by (vm_compute; reflexivity).
  rewrite Hcalls in Hin. destruct Hin as [Heq | []]. discriminate Heq.
Qed.

Lemma fetch_failure_leaves_clone_directory_witness :
  let p := default (Popen 0 [] false None None) (procs demo_clone_running !! 0) in
  let tmp := "/tmp/linpama_aur_k3x9" in
  threads demo_clone_running !! 0 = Some CloneWait /\
  aur_temp_dir demo_clone_running = Some tmp /\
  tmp ∈ dirs demo_clone_running /\
  exists s1 s2,
    step no_catalogue demo_clone_running (CloneExit 0 128 None) = Some s1 /\
    step no_catalogue s1 IdleRun = Some s2 /\
    path_exists tmp s2 = true.
Proof.
  intros p tmp.
  assert (H1 : threads demo_clone_running !! 0 = Some CloneWait)
    by (vm_compute; reflexivity).
  assert (H2 : current_process demo_clone_running = Some 0)
    by (vm_compute; reflexivity).
  assert (H3 : procs demo_clone_running !! 0 = Some p) by (vm_compute; reflexivity).
  assert (H4 : returncode p = None) by (vm_compute; reflexivity).
  assert (H5 : aur_temp_dir demo_clone_running = Some tmp)
    by (vm_compute; reflexivity).
  assert (H6 : tmp ∈ dirs demo_clone_running)
    by (apply (bool_decide_unpack _); vm_compute; exact I).
  assert (H7 : idle_queue demo_clone_running = []) by (vm_compute; reflexivity).
  assert (H8 : files demo_clone_running !! (tmp ++ "/PKGBUILD")%string = None)
    by (vm_compute; reflexivity).
  destruct (fetch_failure_leaves_clone_directory no_catalogue demo_clone_running
              0 0 p 128 tmp H1 H2 H3 H4 H5 H6 H7 H8)
    as (s1 & s2 & Hs1 & Hs2 & _ & _ & _ & _ & Hleft).
  exact (conj H1 (conj H5 (conj H6
           (ex_intro _ s1 (ex_intro _ s2 (conj Hs1 (conj Hs2 Hleft))))))).
Defined.

Lemma sudo_helpers_witness :
  PyStr.truthy "hunter2" = true /\
  user_password demo_unlocked = Some "hunter2" /\
  files (setup_sudo_env demo_unlocked) !! askpass_script
  = Some (File askpass_text mode_0o700) /\
  exists s1, step no_catalogue demo_unlocked (PopenOk 0 4711) = Some s1 /\
    procs s1 = procs demo_unlocked ++
      [Popen 4711 [(sudo_wrapper ++ " pacman -Rns --noconfirm vim")%string] true
         (Some (<[ env_var_name := "hunter2" ]> (os_environ demo_unlocked))) None].
Proof.
  assert (H1 : PyStr.truthy "hunter2" = true) by reflexivity.
  assert (H2 : user_password demo_unlocked = Some "hunter2")
    by (vm_compute; reflexivity).
  assert (H3 : threads demo_unlocked !! 0
               = Some (ExecStart (sudo_wrapper ++ " pacman -Rns --noconfirm vim") "vim"))
    by (vm_compute; reflexivity).
  destruct (sudo_helpers_owner_only_and_secret_free no_catalogue demo_unlocked
              None "hunter2" "vim" 0 _ "vim" 4711 H1 H2 H3)
    as (Ha & _ & _ & _ & _ & _ & _ & Hspawn).
  exact (conj H1 (conj H2 (conj Ha Hspawn))).
Defined.

Lemma credential_prompted_until_given_witness :
  let s1 := default demo_boot (run no_catalogue demo_boot [ClickRemove "vim"]) in
  let s3 := default demo_boot (run no_catalogue demo_unlocked demo_second_removal) in
  run no_catalogue demo_boot [ClickRemove "vim"] = Some s1 /\
  step no_catalogue s1 (Respond "unlock" "hunter2") = Some demo_unlocked /\
  run no_catalogue demo_unlocked demo_second_removal = Some s3 /\
  user_password s3 = Some "hunter2" /\ dialogs s3 = [].
Proof.
  intros s1 s3.
  assert (H1 : run no_catalogue demo_boot [ClickRemove "vim"] = Some s1)
    by (vm_compute; reflexivity).
  assert (H2 : step no_catalogue s1 (Respond "unlock" "hunter2") = Some demo_unlocked)
    by (vm_compute; reflexivity).
  assert (H3 : run no_catalogue demo_unlocked demo_second_removal = Some s3)
    by (vm_compute; reflexivity).
  pose proof (credential_prompted_until_given no_catalogue ∅ 18 ∅ ∅
                [ClickRemove "vim"] s1 "unlock" "hunter2" demo_unlocked
                demo_second_removal s3 H1 H2 H3) as H.
  assert (Hc : (String.eqb "unlock" "unlock" && PyStr.truthy "hunter2") = true)
    by reflexivity.
  rewrite Hc in H. destruct H as (_ & _ & Ha & Hb & _).
  exact (conj H1 (conj H2 (conj H3 (conj Ha Hb)))).
Defined.

End SupervisorFacts.

(** ** More on the string primitives *)

Module TextFacts.
Import PyStr PyStrFacts IndexText.

Lemma lstrip_idem (s : string) : lstrip (lstrip s) = lstrip s.
Proof.
  induction s as [|x s IH]; simpl; [reflexivity|].
  destruct (isspace x) eqn:Ex; [assumption | simpl; now rewrite Ex].
Qed.

(** [lstrip] of a string that [rstrip] leaves alone is such a string. *)
Lemma rstrip_lstrip_fixed (y : string) :
  rstrip y = y -> rstrip (lstrip y) = lstrip y.
Proof.
  induction y as [|c y IH]; simpl; [reflexivity|].
  intros H. destruct (isspace c) eqn:Ec.
  - apply IH. destruct (rstrip y) as [|a r] eqn:E; [discriminate|].
    now injection H.
  - simpl. rewrite Ec. exact H.
Qed.

Lemma rstrip_strip (s : string) : rstrip (strip s) = strip s.
Proof. unfold strip. apply rstrip_lstrip_fixed, rstrip_idem. Qed.

Lemma strip_idem (s : string) : strip (strip s) = strip s.
Proof.
  unfold strip at 1. rewrite rstrip_strip. unfold strip. apply lstrip_idem.
Qed.

Lemma strip_fixed_rstrip (d : string) : strip d = d -> rstrip d = d.
Proof. intros H. rewrite <- H at 1. rewrite rstrip_strip. exact H. Qed.

Lemma strip_fixed_lstrip (d : string) : strip d = d -> lstrip d = d.
Proof. intros H. rewrite <- H at 1. unfold strip. rewrite lstrip_idem. exact H. Qed.

Lemma strip_indented (d : string) : strip d = d -> strip ("    " ++ d) = d.
Proof.
  intros H. pose proof (strip_fixed_rstrip d H) as Hr.
  unfold strip. rewrite rstrip_app, Hr.
  destruct d as [|c d]; [reflexivity|].
  change (lstrip (String c d)) with (lstrip (String c d)).
  simpl. apply (strip_fixed_lstrip _ H).
Qed.

Lemma lstrip_suffix (s : string) : exists t, s = (t ++ lstrip s)%string.
Proof.
  induction s as [|x s [t IH]]; [now exists ""|].
  simpl. destruct (isspace x).
  - exists (String x t). simpl. now rewrite <- IH.
  - now exists "".
Qed.

Lemma has_char_lstrip c s :
  has_char c s = false -> has_char c (lstrip s) = false.
Proof.
  intros H. destruct (lstrip_suffix s) as [t Ht]. rewrite Ht in H.
  rewrite has_char_app in H. now apply orb_false_iff in H as [_ H].
Qed.

Lemma has_char_strip c s :
  has_char c s = false -> has_char c (strip s) = false.
Proof.
  intros H. unfold strip. apply has_char_lstrip. revert H.
  induction s as [|x s IH]; simpl; [auto|].
  intros H. apply orb_false_iff in H as [Hx Hs].
  destruct (rstrip s) as [|y r] eqn:E.
  - destruct (isspace x); simpl; [reflexivity | now rewrite Hx].
  - simpl. rewrite Hx. apply (IH Hs).
Qed.

(** The pieces of [split] hold no separator. *)
Lemma split_no_sep c (s w : string) :
  In w (split c s) -> has_char c w = false.
Proof.
  revert w. induction s as [|x s IH]; simpl; intros w H.
  - destruct H as [<-|[]]. reflexivity.
  - destruct (Ascii.eqb x c) eqn:Ex.
    + destruct H as [<-|H]; [reflexivity | now apply IH].
    + destruct (split c s) as [|w0 ws] eqn:E.
      * destruct H as [<-|[]]. simpl. now rewrite Ex.
      * destruct H as [<-|H].
        -- simpl. rewrite Ex. apply IH. now left.
        -- apply IH. now right.
Qed.

Lemma split_nonempty c (s : string) : split c s <> [].
Proof.
  destruct s as [|x s]; simpl; [discriminate|].
  destruct (Ascii.eqb x c); [discriminate|]. destruct (split c s); discriminate.
Qed.

(** [split] undoes [join] on lines without the separator. *)
Lemma split_join c (lines : list string) :
  lines <> [] -> Forall (fun l => has_char c l = false) lines ->
  split c (join c lines) = lines.
Proof.
  induction lines as [|l rest IH]; [congruence|].
  intros _ H. inversion H as [|? ? Hl Hrest]; subst.
  destruct rest as [|l2 rest].
  - simpl. now apply split_nosep.
  - change (join c (l :: l2 :: rest)) with (l ++ String c (join c (l2 :: rest)))%string.
    rewrite split_app_sep by assumption. f_equal. apply IH; [discriminate | assumption].
Qed.

Lemma map_chars_app f (a b : string) :
  map_chars f (a ++ b) = (map_chars f a ++ map_chars f b)%string.
Proof. induction a as [|x a IH]; simpl; [reflexivity | now rewrite IH]. Qed.

Lemma startswith_app (p b : string) : startswith p (p ++ b) = true.
Proof.
  induction p as [|x p IH]; simpl; [reflexivity|].
  now rewrite Ascii.eqb_refl, IH.
Qed.

Lemma contains_inside (p a b : string) : contains p (a ++ p ++ b) = true.
Proof.
  induction a as [|x a IH]; simpl.
  - destruct (p ++ b)%string eqn:E; simpl; rewrite <- ?E, startswith_app; reflexivity.
  - rewrite IH. apply orb_true_r.
Qed.

Lemma string_eqb_eq (a b : string) : String.eqb a b = true <-> a = b.
Proof. apply String.eqb_eq. Qed.

End TextFacts.

(** ** The result list: batches, the debounce timer, whole searches *)

Module ResultListFacts.
Import Search SearchView SearchThread.

Lemma load_more_prefix s :
  results_listbox s = firstn (displayed_count s) (all_search_results s) ->
  displayed_count s <= length (all_search_results s) ->
  results_listbox (load_more_results s)
  = firstn (displayed_count s + batch_size) (all_search_results s) /\
  displayed_count (load_more_results s)
  = Nat.min (displayed_count s + batch_size) (length (all_search_results s)) /\
  all_search_results (load_more_results s) = all_search_results s /\
  search_stack (load_more_results s) = search_stack s.
Proof.
  intros Hbox Hle. unfold load_more_results.
  destruct (Nat.leb_spec (length (all_search_results s)) (displayed_count s)) as [Hall|Hmore].
  - assert (Heq : displayed_count s = length (all_search_results s)) by lia.
    repeat split; [|lia].
    rewrite Hbox, Heq, !firstn_all2 by lia. reflexivity.
  - simpl. repeat split. rewrite Hbox.
    set (dc := displayed_count s) in *. set (l := all_search_results s) in *.
    rewrite take_take_drop.
    destruct (Nat.min_spec (dc + batch_size) (length l)) as [[Hlt ->]|[Hge ->]].
    + f_equal. lia.
    + replace (dc + (length l - dc)) with (length l) by lia.
      rewrite !firstn_all2 by lia. reflexivity.
Qed.

Lemma update_results_initial_prefix s :
  results_listbox (update_results_initial s)
  = firstn batch_size (all_search_results s) /\
  displayed_count (update_results_initial s)
  = Nat.min batch_size (length (all_search_results s)) /\
  all_search_results (update_results_initial s) = all_search_results s /\
  search_stack (update_results_initial s)
  = match all_search_results s with [] => no_results | _ :: _ => results end.
Proof.
  unfold update_results_initial. cbv zeta.
  match goal with |- context [match all_search_results ?t with _ => _ end] =>
    change (all_search_results t) with (all_search_results s) end.
  destruct (all_search_results s) as [|p l] eqn:E; [simpl; auto|].
  match goal with |- context [load_more_results ?t] => set (s1 := t) end.
  assert (Hl : all_search_results s1 = p :: l) by (subst s1; reflexivity).
  destruct (load_more_prefix s1) as (H1 & H2 & H3 & H4).
  - subst s1. reflexivity.
  - subst s1. simpl. lia.
  - rewrite H1, H2, H3, H4, Hl. subst s1. simpl. auto.
Qed.

Lemma scrolled_prefix s k :
  let s' := Nat.iter k (on_scroll_edge_reached BOTTOM) (update_results_initial s) in
  results_listbox s' = firstn (batch_size * S k) (all_search_results s) /\
  displayed_count s' = Nat.min (batch_size * S k) (length (all_search_results s)) /\
  all_search_results s' = all_search_results s /\
  search_stack s'
  = match all_search_results s with [] => no_results | _ :: _ => results end.
Proof.
  induction k as [|k IH].
  - simpl Nat.iter. cbv zeta.
    replace (batch_size * 1) with batch_size by lia.
    apply update_results_initial_prefix.
  - cbv zeta in *. simpl Nat.iter.
    set (s1 := Nat.iter k (on_scroll_edge_reached BOTTOM) (update_results_initial s)) in *.
    destruct IH as (H1 & H2 & H3 & H4).
    change (on_scroll_edge_reached BOTTOM s1) with (load_more_results s1).
    destruct (load_more_prefix s1) as (G1 & G2 & G3 & G4).
    + rewrite H1, H2, H3.
      destruct (Nat.min_spec (batch_size * S k) (length (all_search_results s)))
        as [[Hlt ->]|[Hge ->]]; [reflexivity|].
      rewrite !firstn_all2 by lia. reflexivity.
    + rewrite H2, H3. lia.
    + rewrite G1, G2, G3, G4, H2, H3, H4.
      set (l := all_search_results s) in *. set (n := length l).
      assert (Hn : n = length l) by reflexivity.
      repeat split.
      * destruct (Nat.min_spec (batch_size * S k) n) as [[Hlt ->]|[Hge ->]].
        -- f_equal. lia.
        -- rewrite !firstn_all2 by lia. reflexivity.
      * lia.
Qed.

(** X1: the result list is filled batch by batch. Once the results
    are in and the list has reached its bottom edge [k] times, the
    list box holds the first 30 (k + 1) results, in their order, each
    once; all of them when there are fewer; the other edges change
    nothing; and without results the page that says so is shown. *)
Theorem result_list_grows_by_batches s k :
  let s' := Nat.iter k (on_scroll_edge_reached BOTTOM) (update_results_initial s) in
  results_listbox s' = firstn (30 * (k + 1)) (all_search_results s) /\
  displayed_count s' = Nat.min (30 * (k + 1)) (length (all_search_results s)) /\
  all_search_results s' = all_search_results s /\
  search_stack s'
  = match all_search_results s with [] => no_results | _ :: _ => results end /\
  (length (all_search_results s) <= 30 * (k + 1) ->
   results_listbox s' = all_search_results s /\
   on_scroll_edge_reached BOTTOM s' = s') /\
  on_scroll_edge_reached TOP s' = s' /\
  on_scroll_edge_reached LEFT s' = s' /\
  on_scroll_edge_reached RIGHT s' = s'.
Proof.
  cbv zeta. destruct (scrolled_prefix s k) as (H1 & H2 & H3 & H4).
  replace (30 * (k + 1)) with (batch_size * S k) by (unfold batch_size; lia).
  repeat split; try assumption.
  - rewrite H1. apply firstn_all2. assumption.
  - change (on_scroll_edge_reached BOTTOM ?t) with (load_more_results t).
    unfold load_more_results. rewrite H2, H3.
    destruct (Nat.leb_spec (length (all_search_results s))
                (Nat.min (batch_size * S k) (length (all_search_results s))));
      [reflexivity | lia].
Qed.

(** **** The debounce timer *)

Lemma source_remove_only src x :
  source_remove src [(src, x)] = [].
Proof. unfold source_remove. simpl. now rewrite Nat.eqb_refl. Qed.

Lemma find_timeout_only src src' x y :
  find_timeout src [(src', x)] = Some y -> src = src' /\ y = x.
Proof.
  unfold find_timeout. simpl. destruct (Nat.eqb_spec src' src) as [->|]; simpl;
    [intros [= <-]; auto | discriminate].
Qed.

Lemma worker_step_timer tid w e s s' p :
  worker_step tid w e s = Some (s', p) ->
  timeouts s' = timeouts s /\ search_timer s' = search_timer s /\
  search_counter s' = search_counter s /\
  exists pc', workers s' = <[ tid := at_pc w pc' ]> (workers s).
Proof.
  unfold worker_step. intros H.
  destruct e; try discriminate; destruct (w_pc w); try discriminate.
  all: repeat match type of H with
         | context [match ?r with RunRaises => _ | _ => _ end] => destruct r
         | context [match ?r with UrlRaises => _ | _ => _ end] => destruct r
         | context [if ?b then _ else _] => destruct b eqn:?
         end;
       inversion H; subst; clear H; simpl; eauto.
Qed.

Lemma step_debounced s e s' p :
  debounced s -> step s e = Some (s', p) -> debounced s'.
Proof.
  intros Hd Hstep.
  destruct (event_tid e) as [t|] eqn:Et.
  - rewrite (SearchViewFacts.step_worker_event _ _ _ Et) in Hstep.
    destruct (workers s !! t) as [wt|]; [|discriminate].
    apply worker_step_timer in Hstep as (Ht & Hs & Hc & _).
    unfold debounced. rewrite Ht, Hs, Hc. exact Hd.
  - destruct e; simpl in *; try discriminate.
    + injection Hstep as <- <-. unfold on_search_changed.
      assert (Hclean :
        match search_timer s with
        | Some src => source_remove src (timeouts s)
        | None => timeouts s
        end = []).
      { destruct Hd as [-> | (src & q & -> & -> & _)].
        - destruct (search_timer s); reflexivity.
        - apply source_remove_only. }
      rewrite Hclean.
      destruct (Nat.ltb_spec (String.length (PyStr.strip text)) 2).
      * left. reflexivity.
      * right. exists (next_source s), (PyStr.strip text). simpl. auto.
    + injection Hstep as <- <-. exact Hd.
    + destruct (find_timeout src (timeouts s)) as [[q i]|] eqn:Ef; [|discriminate].
      injection Hstep as <- <-. left. simpl.
      destruct Hd as [Hd | (src' & q' & Hd & _)]; rewrite Hd in *.
      * discriminate Ef.
      * apply find_timeout_only in Ef as [-> _]. apply source_remove_only.
    + destruct (idle s); [discriminate|]. injection Hstep as <- <-.
      unfold debounced, update_results_initial, load_more_results. simpl.
      destruct (all_search_results s); SearchViewFacts.split_ifs; exact Hd.
    + injection Hstep as <- <-. unfold debounced, load_more_results.
      SearchViewFacts.split_ifs; exact Hd.
Qed.

Lemma run_debounced es : forall s s' ps,
  debounced s -> run s es = Some (s', ps) -> debounced s'.
Proof.
  induction es as [|e es IH]; intros s s' ps Hd H.
  - now injection H as <- _.
  - apply SearchViewFacts.run_cons_inv in H as (s1 & p & ps' & Hstep & Hrun).
    eauto using step_debounced.
Qed.

(** X2: the debounce timer. Along every run of the search view at
    most one time-out is armed; it is the one of the last key stroke:
    [search_timer] names it, it carries the current value of the
    counter and a stripped query of two characters or more. So when a
    time-out fires, the thread it starts searches for the latest query
    under the latest id, and no time-out is left. *)
Theorem one_timeout_for_the_latest_query es s pubs :
  run init es = Some (s, pubs) ->
  length (timeouts s) <= 1 /\
  (forall src q i, In (src, (q, i)) (timeouts s) ->
     i = search_counter s /\ search_timer s = Some src /\ 2 <= String.length q) /\
  (forall src s' p, step s (TimerFire src) = Some (s', p) ->
     exists q,
       timeouts s = [(src, (q, search_counter s))] /\
       workers s' = workers s ++ [Worker q (search_counter s) Entry] /\
       timeouts s' = [] /\ search_counter s' = search_counter s /\ p = None).
Proof.
  intros Hrun.
  assert (Hd : debounced s).
  { eapply run_debounced; [|exact Hrun]. left. reflexivity. }
  split; [|split].
  - destruct Hd as [-> | (src & q & -> & _)]; simpl; lia.
  - intros src q i Hin. destruct Hd as [Hd | (src' & q' & Hd & Ht & Hq)];
      rewrite Hd in Hin; [destruct Hin|].
    destruct Hin as [[= <- <- <-]|[]]. auto.
  - intros src s' p Hstep. simpl in Hstep.
    destruct (find_timeout src (timeouts s)) as [[q i]|] eqn:Ef; [|discriminate].
    injection Hstep as <- <-.
    destruct Hd as [Hd | (src' & q' & Hd & Ht & Hq)]; rewrite Hd in *;
      [discriminate Ef|].
    apply find_timeout_only in Ef as [-> [= -> ->]].
    exists q'. simpl. rewrite Hd, source_remove_only. auto.
Qed.

(** **** Key strokes and the searches in flight *)

Lemma stale_after_key_stroke s text tid w :
  ids_bounded s -> workers s !! tid = Some w ->
  workers (on_search_changed text s) !! tid = Some w /\
  w_search_id w <> search_counter (on_search_changed text s).
Proof.
  intros [Hb _] Hw. specialize (Hb _ _ Hw). unfold on_search_changed.
  destruct (_ <? _)%nat; simpl; split; try assumption; lia.
Qed.

(** X3: a key stroke supersedes every search in flight. Whatever the
    entry holds after it, a query or less than two characters, no
    thread that was started before the key stroke writes a result set
    after it: the publications that follow are all by later threads. *)
Theorem key_stroke_supersedes_searches es1 s1 pubs1 text es2 s2 pubs2 :
  run init es1 = Some (s1, pubs1) ->
  run s1 (SearchChanged text :: es2) = Some (s2, pubs2) ->
  Forall (fun q => length (workers s1) <= pub_tid q) pubs2.
Proof.
  intros H1 H2.
  pose proof (SearchViewFacts.run_ids_bounded _ _ _ _
                SearchViewFacts.ids_bounded_init H1) as Hb1.
  change (run s1 (SearchChanged text :: es2))
    with (match run (on_search_changed text s1) es2 with
          | Some (s2, ps) => Some (s2, ps)
          | None => None
          end) in H2.
  destruct (run (on_search_changed text s1) es2) as [[s2' ps]|] eqn:Hrun;
    [|discriminate].
  injection H2 as -> ->.
  assert (Hb1' : ids_bounded (on_search_changed text s1)).
  { apply (SearchViewFacts.step_ids_bounded s1 (SearchChanged text) _ None Hb1).
    reflexivity. }
  apply Forall_forall. intros q Hq.
  destruct (Nat.le_gt_cases (length (workers s1)) (pub_tid q)) as [Hle|Hlt];
    [assumption | exfalso].
  destruct (lookup_lt_is_Some_2 (workers s1) (pub_tid q) Hlt) as [w Hw].
  destruct (stale_after_key_stroke s1 text _ w Hb1 Hw) as [Hw' Hstale].
  destruct (SearchViewFacts.run_stale_silent _ _ _ _ _ _ Hb1' Hrun Hw' Hstale)
    as [Hall _].
  rewrite Forall_forall in Hall. now apply (Hall q Hq).
Qed.

(** X4: results that are waiting outlive a cleared query. When a
    result set has been written and its [update_results_initial] is
    still waiting in the main loop, and the user empties the entry (or
    leaves one character), the welcome page comes up with an empty
    list; then the waiting call runs and puts the result page back,
    with the first batch of the results of the query that was given
    up. *)
Theorem waiting_results_outlive_cleared_query s text :
  0 < idle s -> all_search_results s <> [] ->
  String.length (PyStr.strip text) < 2 ->
  exists s1 s2,
    step s (SearchChanged text) = Some (s1, None) /\
    search_stack s1 = welcome /\ results_listbox s1 = [] /\
    timeouts s1 = match search_timer s with
                  | Some src => source_remove src (timeouts s)
                  | None => timeouts s
                  end /\
    step s1 IdleRun = Some (s2, None) /\
    search_stack s2 = results /\
    results_listbox s2 = firstn 30 (all_search_results s).
Proof.
  intros Hidle Hres Hshort.
  set (s1 := on_search_changed text s).
  assert (Hs1 : search_stack s1 = welcome /\ results_listbox s1 = [] /\
                timeouts s1 = match search_timer s with
                              | Some src => source_remove src (timeouts s)
                              | None => timeouts s
                              end /\
                idle s1 = idle s /\ all_search_results s1 = all_search_results s).
  { subst s1. unfold on_search_changed.
    destruct (Nat.ltb_spec (String.length (PyStr.strip text)) 2) as [_|Hge]; [|lia].
    simpl. auto. }
  destruct Hs1 as (Ha & Hb & Hc & Hd & He).
  exists s1, (update_results_initial (pop_idle s1)).
  split; [reflexivity|]. split; [assumption|]. split; [assumption|].
  split; [assumption|].
  split.
  { simpl. rewrite Hd. destruct (idle s); [lia | reflexivity]. }
  destruct (update_results_initial_prefix (pop_idle s1)) as (H1 & _ & _ & H4).
  rewrite H1, H4.
  change (all_search_results (pop_idle s1)) with (all_search_results s1).
  rewrite He. destruct (all_search_results s); [congruence | auto].
Qed.

(** **** A search from start to end *)

Lemma run_cons_some s e es s1 p s2 ps :
  step s e = Some (s1, p) -> run s1 es = Some (s2, ps) ->
  run s (e :: es)
  = Some (s2, match p with Some x => x :: ps | None => ps end).
Proof. intros H1 H2. simpl. now rewrite H1, H2. Qed.

Lemma lookup_set_worker tid w w' s :
  workers s !! tid = Some w -> workers (set_worker tid w' s) !! tid = Some w'.
Proof.
  intros Hw. simpl. apply list_lookup_insert_eq. now apply lookup_lt_Some in Hw.
Qed.

(** X5: what an uninterrupted search publishes. A thread whose id is
    the counter, run from its entry to line 605 with no key stroke in
    between, writes the records of the local index followed by the AUR
    hits, and queues one [update_results_initial]. A lookup that
    raises contributes nothing and takes nothing away: without
    [pacman] the AUR hits are published alone, without the network the
    local records are; with the box not ticked the AUR is not asked. *)
Theorem uninterrupted_search_publishes_both s tid w r resp :
  workers s !! tid = Some w -> w_pc w = Entry ->
  w_search_id w = search_counter s ->
  let found :=
    if aur_check s then remote_records (w_query w) resp (local_records r)
    else local_records r in
  exists s',
    run s (uninterrupted tid (aur_check s) r resp)
    = Some (s', [Pub tid (search_counter s) found]) /\
    all_search_results s' = found /\ idle s' = S (idle s) /\
    search_counter s' = search_counter s /\
    local_records RunRaises = [] /\
    remote_records (w_query w) UrlRaises (local_records r) = local_records r.
Proof.
  intros Hw Hpc Hid found.
  destruct w as [q i pc0]. simpl in Hpc, Hid. subst pc0 i. simpl w_query in *.
  set (w0 := Worker q (search_counter s) Entry) in *.
  (* line 544 *)
  set (s1 := set_worker tid (at_pc w0 LocalLookup) s).
  assert (E1 : step s (WEnter tid) = Some (s1, None)).
  { simpl. rewrite Hw. unfold worker_step. simpl. now rewrite Nat.eqb_refl. }
  assert (Hw1 : workers s1 !! tid = Some (at_pc w0 LocalLookup))
    by (now apply (lookup_set_worker tid w0)).
  (* the local lookup *)
  set (s2 := set_worker tid (at_pc w0 (after_local (local_records r) s)) s1).
  assert (E2 : step s1 (WLocal tid r) = Some (s2, None)).
  { rewrite (SearchViewFacts.step_worker_event s1 (WLocal tid r) tid eq_refl), Hw1.
      unfold worker_step. simpl.
    rewrite Nat.eqb_refl. destruct r; reflexivity. }
  assert (Hw2 : workers s2 !! tid
                = Some (at_pc w0 (after_local (local_records r) s)))
    by (now apply (lookup_set_worker tid (at_pc w0 LocalLookup))).
  unfold uninterrupted, found, after_local in *. clear found.
  destruct (aur_check s) eqn:Eaur.
  - (* the AUR lookup *)
    set (fnd := remote_records q resp (local_records r)).
    set (s3 := set_worker tid (at_pc w0 (Publishing fnd)) s2).
    assert (E3 : step s2 (WRemote tid resp) = Some (s3, None)).
    { rewrite (SearchViewFacts.step_worker_event s2 (WRemote tid resp) tid eq_refl), Hw2.
      unfold worker_step. simpl.
      rewrite Nat.eqb_refl. destruct resp; reflexivity. }
    assert (Hw3 : workers s3 !! tid = Some (at_pc w0 (Publishing fnd)))
      by (now apply (lookup_set_worker tid (at_pc w0 (RemoteLookup (local_records r))))).
    set (s4 := set_worker tid (at_pc w0 Returned) (publish fnd s3)).
    assert (E4 : step s3 (WPublish tid)
                 = Some (s4, Some (Pub tid (search_counter s) fnd))).
    { rewrite (SearchViewFacts.step_worker_event s3 (WPublish tid) tid eq_refl), Hw3.
      unfold worker_step. simpl.
      now rewrite Nat.eqb_refl. }
    exists s4. split.
    { simpl app.
      rewrite (run_cons_some _ _ _ _ _ s4 [Pub tid (search_counter s) fnd] E1);
        [reflexivity|].
      rewrite (run_cons_some _ _ _ _ _ s4 [Pub tid (search_counter s) fnd] E2);
        [reflexivity|].
      rewrite (run_cons_some _ _ _ _ _ s4 [Pub tid (search_counter s) fnd] E3);
        [reflexivity|].
      rewrite (run_cons_some _ _ _ _ _ s4 [] E4); reflexivity. }
    repeat split.
  - set (fnd := local_records r).
    set (s4 := set_worker tid (at_pc w0 Returned) (publish fnd s2)).
    assert (E4 : step s2 (WPublish tid)
                 = Some (s4, Some (Pub tid (search_counter s) fnd))).
    { rewrite (SearchViewFacts.step_worker_event s2 (WPublish tid) tid eq_refl), Hw2.
      unfold worker_step. simpl.
      now rewrite Nat.eqb_refl. }
    exists s4. split.
    { simpl app.
      rewrite (run_cons_some _ _ _ _ _ s4 [Pub tid (search_counter s) fnd] E1);
        [reflexivity|].
      rewrite (run_cons_some _ _ _ _ _ s4 [Pub tid (search_counter s) fnd] E2);
        [reflexivity|].
      rewrite (run_cons_some _ _ _ _ _ s4 [] E4); reflexivity. }
    repeat split.
Qed.


(** **** Concrete runs *)

Lemma one_timeout_witness :
  let es := [SearchChanged "vi"; SearchChanged "vim"] in
  let s := (default (init, []) (run init es)).1 in
  run init es = Some (s, []) /\
  length (timeouts s) <= 1 /\ timeouts s = [(2, ("vim", 2))].
Proof.
  intros es s.
  assert (H : run init es = Some (s, [])) by (vm_compute; reflexivity).
  assert (Ht : timeouts s = [(2, ("vim", 2))]) by (vm_compute; reflexivity).
  destruct (one_timeout_for_the_latest_query es s [] H) as (Ha & _).
  exact (conj H (conj Ha Ht)).
Defined.

Lemma key_stroke_supersedes_witness :
  let es1 := [SearchChanged "vi"; TimerFire 1; WEnter 0] in
  let es2 := [WLocal 0 (Completed 0 "extra/vi 1:070224-6"); TimerFire 2;
              WEnter 1; WLocal 1 (Completed 0 demo_vim_stdout); WPublish 1] in
  let s1 := (default (init, []) (run init es1)).1 in
  let r2 := default (init, []) (run s1 (SearchChanged "vim" :: es2)) in
  run init es1 = Some (s1, []) /\
  run s1 (SearchChanged "vim" :: es2) = Some (r2.1, r2.2) /\
  length r2.2 = 1 /\
  Forall (fun q => length (workers s1) <= pub_tid q) r2.2.
Proof.
  intros es1 es2 s1 r2.
  assert (H1 : run init es1 = Some (s1, [])) by (vm_compute; reflexivity).
  assert (H2 : run s1 (SearchChanged "vim" :: es2) = Some (r2.1, r2.2))
    by (vm_compute; reflexivity).
  assert (H3 : length r2.2 = 1) by (vm_compute; reflexivity).
  exact (conj H1 (conj H2 (conj H3
           (key_stroke_supersedes_searches es1 s1 [] "vim" es2 r2.1 r2.2 H1 H2)))).
Defined.

Lemma waiting_results_witness :
  0 < idle demo_waiting /\ all_search_results demo_waiting <> [] /\
  String.length (PyStr.strip " ") < 2 /\
  exists s1 s2,
    step demo_waiting (SearchChanged " ") = Some (s1, None) /\
    search_stack s1 = welcome /\
    step s1 IdleRun = Some (s2, None) /\
    search_stack s2 = results /\
    results_listbox s2 = [Pkg "vi" "extra" "1:070224-6" false "" false].
Proof.
  assert (H1 : 0 < idle demo_waiting) by (vm_compute; lia).
  assert (H2 : all_search_results demo_waiting <> []) by (vm_compute; discriminate).
  assert (H3 : String.length (PyStr.strip " ") < 2) by (vm_compute; lia).
  assert (H4 : firstn 30 (all_search_results demo_waiting)
               = [Pkg "vi" "extra" "1:070224-6" false "" false])
    by (vm_compute; reflexivity).
  destruct (waiting_results_outlive_cleared_query demo_waiting " " H1 H2 H3)
    as (s1 & s2 & Ha & Hb & _ & _ & Hc & Hd & He).
  rewrite H4 in He.
  exact (conj H1 (conj H2 (conj H3
           (ex_intro _ s1 (ex_intro _ s2
              (conj Ha (conj Hb (conj Hc (conj Hd He))))))))).
Defined.

Lemma uninterrupted_search_witness :
  let s := (default (init, []) (run init [SearchChanged "vi"; TimerFire 1])).1 in
  let w := Worker "vi" 1 Entry in
  workers s !! 0 = Some w /\ w_search_id w = search_counter s /\
  exists s',
    run s (uninterrupted 0 (aur_check s) (Completed 0 "extra/vi 1:070224-6") UrlRaises)
    = Some (s', [Pub 0 (search_counter s)
                   [Pkg "vi" "extra" "1:070224-6" false "" false]]).
Proof.
  intros s w.
  assert (H1 : workers s !! 0 = Some w) by (vm_compute; reflexivity).
  assert (H2 : w_search_id w = search_counter s) by (vm_compute; reflexivity).
  assert (H3 : (if aur_check s
                then remote_records (w_query w) UrlRaises
                       (local_records (Completed 0 "extra/vi 1:070224-6"))
                else local_records (Completed 0 "extra/vi 1:070224-6"))
               = [Pkg "vi" "extra" "1:070224-6" false "" false])
    by (vm_compute; reflexivity).
  destruct (uninterrupted_search_publishes_both s 0 w
              (Completed 0 "extra/vi 1:070224-6") UrlRaises H1 eq_refl H2)
    as (s' & Hrun & _).
  rewrite H3 in Hrun.
  exact (conj H1 (conj H2 (ex_intro _ s' Hrun))).
Defined.

End ResultListFacts.

(** ** The local index and the AUR answer, in general *)

Module IndexFacts.
Import PyStr PyStrFacts TextFacts Search SearchFacts IndexText.

(** **** Reading back what the index prints *)

Lemma printable_fields p :
  printable p = true ->
  token (repo p) = true /\ token (name p) = true /\ token (version p) = true /\
  version p <> "" /\ strip (desc p) = desc p /\ has_char LF (desc p) = false /\
  is_aur p = false.
Proof.
  unfold printable. intros H.
  repeat (apply andb_true_iff in H as [H ?]).
  repeat split; try assumption.
  - destruct (version p); [discriminate | discriminate].
  - now apply String.eqb_eq.
  - now apply negb_true_iff.
  - now apply negb_true_iff.
Qed.

Lemma for_lines_indented x rest rs cur :
  for_lines (("    " ++ x)%string :: rest) rs cur
  = for_lines rest rs (option_map (set_desc (strip ("    " ++ x))) cur).
Proof. reflexivity. Qed.

(** The lines of one record move the loop on by one record. *)
Lemma for_lines_record p rest rs p0 :
  printable p = true ->
  for_lines (lines_of p ++ rest) rs (Some p0)
  = for_lines rest (rs ++ [p0]) (Some p).
Proof.
  intros H. destruct (printable_fields p H) as (Hr & Hn & Hv & Hne & Hd & _ & Ha).
  unfold lines_of. destruct p as [n r v i d a]. simpl in *. subst a.
  rewrite header_not_indented by assumption. simpl.
  rewrite parse_header_ok by assumption.
  destruct d as [|c d]; [reflexivity|].
  simpl app.
  change (String " " (String " " (String " " (String " " (String c d)))))
    with ("    " ++ String c d)%string.
  rewrite for_lines_indented, strip_indented by assumption. reflexivity.
Qed.

Lemma for_lines_records ps : forall rs p0,
  forallb printable ps = true ->
  exists rs' cur',
    for_lines (flat_map lines_of ps) rs (Some p0) = (rs', cur', None) /\
    flush rs' cur' = rs ++ p0 :: ps.
Proof.
  induction ps as [|p ps IH]; intros rs p0 H.
  - exists rs, (Some p0). split; reflexivity.
  - simpl in H. apply andb_true_iff in H as [Hp Hps].
    change (flat_map lines_of (p :: ps)) with (lines_of p ++ flat_map lines_of ps).
    rewrite for_lines_record by assumption.
    destruct (IH (rs ++ [p0]) p Hps) as (rs' & cur' & -> & Hf).
    exists rs', cur'. split; [reflexivity|]. rewrite Hf, <- app_assoc. reflexivity.
Qed.

Lemma for_lines_first_record p rest :
  printable p = true ->
  for_lines (lines_of p ++ rest) [] None = for_lines rest [] (Some p).
Proof.
  intros H. destruct (printable_fields p H) as (Hr & Hn & Hv & Hne & Hd & _ & Ha).
  unfold lines_of. destruct p as [n r v i d a]. simpl in *. subst a.
  rewrite header_not_indented by assumption. simpl.
  rewrite parse_header_ok by assumption.
  destruct d as [|c d]; [reflexivity|].
  simpl app.
  change (String " " (String " " (String " " (String " " (String c d)))))
    with ("    " ++ String c d)%string.
  rewrite for_lines_indented, strip_indented by assumption. reflexivity.
Qed.

Lemma parse_lines_records ps :
  forallb printable ps = true -> parse_lines (flat_map lines_of ps) = ps.
Proof.
  destruct ps as [|p ps]; [reflexivity|]. intros H.
  simpl in H. apply andb_true_iff in H as [Hp Hps].
  unfold parse_lines.
  change (flat_map lines_of (p :: ps)) with (lines_of p ++ flat_map lines_of ps).
  rewrite for_lines_first_record by assumption.
  destruct (for_lines_records ps [] p Hps) as (rs' & cur' & -> & Hf).
  exact Hf.
Qed.

Lemma header_tidy p : printable p = true ->
  tidy (header_line (repo p) (name p) (version p) (installed p)).
Proof.
  intros H. destruct (printable_fields p H) as (Hr & Hn & Hv & Hne & _).
  split; [now apply header_no_LF|]. split; [now apply rstrip_header0|].
  destruct (header_first_char (repo p) (name p) (version p) (installed p) Hr)
    as (c & rest & -> & _). discriminate.
Qed.

Lemma lines_of_tidy p : printable p = true -> Forall tidy (lines_of p).
Proof.
  intros H. constructor; [now apply header_tidy|].
  destruct (printable_fields p H) as (_ & _ & _ & _ & Hd & Hlf & _).
  destruct (desc p) as [|c d] eqn:E; constructor; [|constructor].
  split; [|split].
  - rewrite has_char_app, Hlf. reflexivity.
  - apply rstrip_app_fixed; [now apply strip_fixed_rstrip | discriminate].
  - discriminate.
Qed.

Lemma flat_map_tidy ps :
  forallb printable ps = true -> Forall tidy (flat_map lines_of ps).
Proof.
  induction ps as [|p ps IH]; [constructor|].
  intros H. simpl in H. apply andb_true_iff in H as [Hp Hps].
  change (flat_map lines_of (p :: ps)) with (lines_of p ++ flat_map lines_of ps).
  apply Forall_app. split; [now apply lines_of_tidy | now apply IH].
Qed.

Lemma rstrip_cons_fixed c (j : string) :
  rstrip j = j -> j <> "" -> rstrip (String c j) = String c j.
Proof.
  intros H Hne. simpl. rewrite H. destruct j; [congruence | reflexivity].
Qed.

Lemma rstrip_join lines :
  Forall tidy lines -> rstrip (join LF lines) = join LF lines.
Proof.
  induction lines as [|l rest IH]; [reflexivity|].
  intros H. inversion H as [|? ? Hl Hrest]; subst.
  destruct rest as [|l2 rest]; [apply Hl|].
  change (join LF (l :: l2 :: rest))
    with (l ++ String LF (join LF (l2 :: rest)))%string.
  specialize (IH Hrest).
  assert (Hne : join LF (l2 :: rest) <> "").
  { inversion Hrest as [|? ? (_ & _ & Hl2) _]; subst.
    destruct rest; simpl; [assumption|]. destruct l2; [congruence | discriminate]. }
  apply rstrip_app_fixed; [|discriminate].
  now apply rstrip_cons_fixed.
Qed.

Lemma join_first l rest : exists t, join LF (l :: rest) = (l ++ t)%string.
Proof.
  destruct rest; [exists ""; simpl; now rewrite append_nil_r|].
  eexists. reflexivity.
Qed.

Lemma text_of_cons p ps :
  exists t, text_of (p :: ps)
            = (header_line (repo p) (name p) (version p) (installed p) ++ t)%string.
Proof. unfold text_of. simpl flat_map. unfold lines_of at 1. simpl app. apply join_first. Qed.

Lemma split_text ps :
  ps <> [] -> forallb printable ps = true ->
  strip (text_of ps) = text_of ps /\
  split LF (text_of ps) = flat_map lines_of ps.
Proof.
  intros Hne H. pose proof (flat_map_tidy ps H) as Ht.
  split.
  - unfold strip. unfold text_of at 1. rewrite rstrip_join by assumption.
    fold (text_of ps).
    destruct ps as [|p ps]; [congruence|].
    simpl in H. apply andb_true_iff in H as [Hp _].
    destruct (printable_fields p Hp) as (Hr & _).
    destruct (text_of_cons p ps) as [t Heq]. rewrite Heq.
    now apply lstrip_header.
  - unfold text_of. apply split_join.
    + destruct ps as [|p ps]; [congruence|]. discriminate.
    + eapply Forall_impl; [exact Ht|]. intros l (Hl & _). exact Hl.
Qed.

Lemma text_of_truthy ps :
  ps <> [] -> forallb printable ps = true -> truthy (text_of ps) = true.
Proof.
  intros Hne H. destruct ps as [|p ps]; [congruence|].
  simpl in H. apply andb_true_iff in H as [Hp _].
  destruct (printable_fields p Hp) as (Hr & _).
  destruct (text_of_cons p ps) as [t ->]. now apply text_nonempty.
Qed.

(** X6: the parser reads back what the index prints. For every list
    of records that can be printed (repository, name and version are
    tokens, the version is not empty, the description is one line
    without white space around it), the output that lists them, each
    with its header and, if it has a description, the indented line
    under it, is parsed into exactly these records, in their order. *)
Theorem index_output_is_read_back ps :
  ps <> [] -> forallb printable ps = true ->
  local_records (Completed 0 (text_of ps)) = ps.
Proof.
  intros Hne H. unfold local_records.
  rewrite (text_of_truthy ps Hne H). simpl andb. cbv iota.
  unfold parse_stdout. destruct (split_text ps Hne H) as [-> ->].
  now apply parse_lines_records.
Qed.

Lemma index_output_witness :
  let ps := [Pkg "vim" "extra" "9.1.0-1" true "Vi Improved" false;
             Pkg "nano" "core" "8.2-1" false "" false;
             Pkg "vi" "extra" "1:070224-6" false "The original ex/vi" false] in
  ps <> [] /\ forallb printable ps = true /\
  text_of ps
  = ("extra/vim 9.1.0-1 [installed]" ++ nl ++ "    Vi Improved" ++ nl
     ++ "core/nano 8.2-1" ++ nl
     ++ "extra/vi 1:070224-6" ++ nl ++ "    The original ex/vi")%string /\
  local_records (Completed 0 (text_of ps)) = ps.
Proof.
  intros ps.
  assert (H1 : ps <> []) by discriminate.
  assert (H2 : forallb printable ps = true) by (vm_compute; reflexivity).
  assert (H3 : text_of ps
    = ("extra/vim 9.1.0-1 [installed]" ++ nl ++ "    Vi Improved" ++ nl
       ++ "core/nano 8.2-1" ++ nl
       ++ "extra/vi 1:070224-6" ++ nl ++ "    The original ex/vi")%string)
    by (vm_compute; reflexivity).
  exact (conj H1 (conj H2 (conj H3 (index_output_is_read_back ps H1 H2)))).
Defined.

(** **** Every record comes from a header line *)

Lemma split_keeps_absent c d (s w : string) :
  has_char d s = false -> In w (split c s) -> has_char d w = false.
Proof.
  revert w. induction s as [|x s IH]; simpl; intros w Hd H.
  - destruct H as [<-|[]]. reflexivity.
  - apply orb_false_iff in Hd as [Hx Hs].
    destruct (Ascii.eqb x c).
    + destruct H as [<-|H]; [reflexivity | now apply IH].
    + destruct (split c s) as [|w0 ws] eqn:E.
      * destruct H as [<-|[]]. simpl. now rewrite Hx.
      * destruct H as [<-|H].
        -- simpl. rewrite Hx. apply IH; [assumption | now left].
        -- apply IH; [assumption | now right].
Qed.

Lemma parse_header_shape line p :
  parse_header line = inr p ->
  desc p = "" /\ is_aur p = false /\
  has_char " " (name p) = false /\ has_char "/" (name p) = false /\
  has_char " " (version p) = false /\ has_char " " (repo p) = false /\
  installed p = contains "[installed]" line.
Proof.
  unfold parse_header.
  destruct (split " " line) as [|full_name [|ver more]] eqn:Es; try discriminate.
  assert (Hf : has_char " " full_name = false).
  { apply (split_no_sep " " line). rewrite Es. now left. }
  assert (Hv : has_char " " ver = false).
  { apply (split_no_sep " " line). rewrite Es. right. now left. }
  unfold split_full_name.
  destruct (has_char "/" full_name) eqn:Eslash.
  - destruct (split "/" full_name) as [|r [|n [|x more']]] eqn:Ef; try discriminate.
    intros [= <-]. simpl.
    assert (Hn : has_char "/" n = false).
    { apply (split_no_sep "/" full_name). rewrite Ef. right. now left. }
    assert (Hn' : has_char " " n = false).
    { apply (split_keeps_absent "/" " " full_name); [assumption|].
      rewrite Ef. right. now left. }
    assert (Hr' : has_char " " r = false).
    { apply (split_keeps_absent "/" " " full_name); [assumption|].
      rewrite Ef. now left. }
    auto 10.
  - intros [= <-]. simpl. auto 10.
Qed.

Lemma set_desc_twice d p : set_desc "" (set_desc d p) = set_desc "" p.
Proof. reflexivity. Qed.

Lemma for_lines_sourced all lines : forall rs cur rs' cur' e,
  incl lines all ->
  Forall (sourced all) rs -> (forall p, cur = Some p -> sourced all p) ->
  for_lines lines rs cur = (rs', cur', e) ->
  Forall (sourced all) rs' /\ (forall p, cur' = Some p -> sourced all p).
Proof.
  induction lines as [|line lines IH]; intros rs cur rs' cur' e Hin Hrs Hcur H.
  - injection H as <- <- <-. auto.
  - assert (Hin' : incl lines all) by (intros x Hx; apply Hin; now right).
    assert (Hflush : Forall (sourced all) (flush rs cur)).
    { destruct cur as [p|]; simpl; [|assumption].
      apply Forall_app. split; [assumption|]. constructor; [now apply Hcur | constructor]. }
    simpl in H. destruct (is_indented line) eqn:Ei; simpl in H.
    + apply (IH _ _ _ _ _ Hin' Hrs) in H; [assumption|].
      intros p Hp. destruct cur as [p1|]; [|discriminate].
      injection Hp as <-. destruct (Hcur p1 eq_refl) as (l & Hl & Hi & Hh).
      exists l. split; [assumption|]. split; [assumption|].
      now rewrite set_desc_twice.
    + destruct (parse_header line) as [x|p1] eqn:Eh.
      * injection H as <- <- <-. auto.
      * apply (IH _ _ _ _ _ Hin' Hflush) in H; [assumption|].
        intros p [= <-]. exists line. split; [apply Hin; now left|].
        split; [assumption|].
        destruct (parse_header_shape line p1 Eh) as (Hd & _).
        rewrite Eh. f_equal. destruct p1. simpl in Hd. now subst.
Qed.

Lemma parse_lines_sourced lines p :
  In p (parse_lines lines) -> sourced lines p.
Proof.
  unfold parse_lines. intros H.
  destruct (for_lines lines [] None) as [[rs cur] e] eqn:E.
  destruct (for_lines_sourced lines lines [] None rs cur e) as [Hrs Hcur];
    [apply incl_refl | constructor | discriminate | assumption |].
  assert (Hall : Forall (sourced lines) (flush rs cur)).
  { destruct cur as [q|]; simpl; [|assumption].
    apply Forall_app. split; [assumption|]. constructor; [now apply Hcur | constructor]. }
  rewrite Forall_forall in Hrs, Hall.
  destruct e; [apply Hrs | apply Hall]; now apply list_elem_of_In.
Qed.

(** X7: the parser invents nothing. Whatever the local lookup
    returns, every record that comes out of it was read from a header
    line of the output, a line that is not indented and that line 561
    to 573 take apart without raising, and then only if the exit code
    is 0; the record is not marked as an AUR hit, its name holds no
    space and no slash, its version and its repository hold no space,
    and it counts as installed exactly when that line contains
    [[installed]]. *)
Theorem records_come_from_header_lines rc stdout p :
  In p (local_records (Completed rc stdout)) ->
  rc = 0%Z /\
  exists line,
    In line (split LF (strip stdout)) /\
    is_indented line = false /\ parse_header line = inr (set_desc "" p) /\
    is_aur p = false /\
    has_char " " (name p) = false /\ has_char "/" (name p) = false /\
    has_char " " (version p) = false /\ has_char " " (repo p) = false /\
    installed p = contains "[installed]" line.
Proof.
  unfold local_records. destruct (Z.eqb_spec rc 0) as [->|]; [|intros []].
  destruct (truthy stdout); simpl; [|intros []].
  intros H. split; [reflexivity|].
  apply parse_lines_sourced in H as (line & Hl & Hi & Hh).
  exists line. split; [assumption|]. split; [assumption|]. split; [assumption|].
  destruct (parse_header_shape _ _ Hh) as (_ & Ha & Hb & Hc & Hd & He & Hf).
  auto 10.
Qed.

Lemma records_come_from_header_lines_witness :
  let p := Pkg "vim" "extra" "9.1.0-1" true
             "Vi Improved, a highly configurable text editor" false in
  In p (local_records (Completed 0 SearchView.demo_vim_stdout)) /\
  exists line,
    In line (split LF (strip SearchView.demo_vim_stdout)) /\
    parse_header line = inr (set_desc "" p).
Proof.
  intros p.
  assert (H : In p (local_records (Completed 0 SearchView.demo_vim_stdout)))
    by (vm_compute; left; reflexivity).
  destruct (records_come_from_header_lines 0 SearchView.demo_vim_stdout p H)
    as (_ & line & Hl & _ & Hh & _).
  exact (conj H (ex_intro _ line (conj Hl Hh))).
Defined.


(** **** Indented lines *)






(** **** The AUR answer *)

Lemma aur_loop_hits query items : forall rs,
  exists hits,
    aur_loop query items rs = rs ++ hits /\
    length hits <= length items /\
    Forall (fun p => exists item, In item items /\ hit_of query item p) hits.
Proof.
  induction items as [|item items IH]; intros rs.
  - exists []. simpl. rewrite app_nil_r. repeat split; [lia | constructor].
  - assert (Hnone : exists hits : list pkg,
              rs = rs ++ hits /\ length hits <= length (item :: items) /\
              Forall (fun p => exists i, In i (item :: items) /\ hit_of query i p) hits).
    { exists []. rewrite app_nil_r. repeat split; [simpl; lia | constructor]. }
    assert (Hweak : forall hits,
              Forall (fun p => exists i, In i items /\ hit_of query i p) hits ->
              Forall (fun p => exists i, In i (item :: items) /\ hit_of query i p) hits).
    { intros hits H. eapply Forall_impl; [exact H|].
      intros p (i & Hi & Hp). exists i. split; [now right | assumption]. }
    simpl. destruct (Name item) as [nm|] eqn:En; [|exact Hnone].
    destruct (contains (lower query) (lower nm)) eqn:Ec.
    + destruct (Version item) as [ver|] eqn:Ev; [|exact Hnone].
      match goal with |- context [rs ++ [?x]] => set (hit := x) end.
      destruct (IH (rs ++ [hit])) as (hits & -> & Hlen & Hall).
      exists (hit :: hits). rewrite <- app_assoc. split; [reflexivity|].
      split; [simpl; lia|]. constructor; [|now apply Hweak].
      exists item. split; [now left|]. subst hit. unfold hit_of. simpl.
      repeat split; assumption.
    + destruct (IH rs) as (hits & -> & Hlen & Hall).
      exists hits. split; [reflexivity|]. split; [simpl; lia | now apply Hweak].
Qed.

Lemma aur_records_cases query ty items rs :
  aur_records query ty items rs = rs \/
  exists l, items = Some l /\ ty <> Some "error" /\
            aur_records query ty items rs = aur_loop query l rs.
Proof.
  destruct items as [[|item rest]|].
  - left. destruct ty as [t|]; [|reflexivity].
    unfold aur_records.
    destruct t as [|[[] [] [] [] [] [] [] []] t]; try reflexivity.
    destruct t as [|[[] [] [] [] [] [] [] []] t]; try reflexivity.
    destruct t as [|[[] [] [] [] [] [] [] []] t]; try reflexivity.
    destruct t as [|[[] [] [] [] [] [] [] []] t]; try reflexivity.
    destruct t as [|[[] [] [] [] [] [] [] []] t]; try reflexivity.
    destruct t; reflexivity.
  - destruct ty as [t|].
    + assert (H : aur_records query (Some t) (Some (item :: rest)) rs = rs \/
                  (Some t <> Some "error" /\
                   aur_records query (Some t) (Some (item :: rest)) rs
                   = aur_loop query (item :: rest) rs)).
      { unfold aur_records.
        destruct t as [|[[] [] [] [] [] [] [] []] t];
          try (right; split; [discriminate | reflexivity]).
        destruct t as [|[[] [] [] [] [] [] [] []] t];
          try (right; split; [discriminate | reflexivity]).
        destruct t as [|[[] [] [] [] [] [] [] []] t];
          try (right; split; [discriminate | reflexivity]).
        destruct t as [|[[] [] [] [] [] [] [] []] t];
          try (right; split; [discriminate | reflexivity]).
        destruct t as [|[[] [] [] [] [] [] [] []] t];
          try (right; split; [discriminate | reflexivity]).
        destruct t; [left; reflexivity | right; split; [discriminate | reflexivity]]. }
      destruct H as [H | [Hne H]]; [now left|]. right. eauto.
    + right. exists (item :: rest). repeat split. discriminate.
  - left. destruct ty as [t|]; [|reflexivity].
    unfold aur_records.
    destruct t as [|[[] [] [] [] [] [] [] []] t]; try reflexivity.
    destruct t as [|[[] [] [] [] [] [] [] []] t]; try reflexivity.
    destruct t as [|[[] [] [] [] [] [] [] []] t]; try reflexivity.
    destruct t as [|[[] [] [] [] [] [] [] []] t]; try reflexivity.
    destruct t as [|[[] [] [] [] [] [] [] []] t]; try reflexivity.
    destruct t; reflexivity.
Qed.


Lemma aur_records_loop query ty item rest rs :
  ty <> Some "error" ->
  aur_records query ty (Some (item :: rest)) rs = aur_loop query (item :: rest) rs.
Proof.
  intros Hty. destruct ty as [t|]; [|reflexivity].
  unfold aur_records.
  destruct t as [|[[] [] [] [] [] [] [] []] t]; try reflexivity.
  destruct t as [|[[] [] [] [] [] [] [] []] t]; try reflexivity.
  destruct t as [|[[] [] [] [] [] [] [] []] t]; try reflexivity.
  destruct t as [|[[] [] [] [] [] [] [] []] t]; try reflexivity.
  destruct t as [|[[] [] [] [] [] [] [] []] t]; try reflexivity.
  destruct t; [exfalso; now apply Hty | reflexivity].
Qed.

(** X9: the AUR hits follow the local records. Whatever the AUR
    answers, the records found before are all still there, in their
    order, and what is added comes after them: at most one record for
    each item of the answer, each built from an item whose name
    contains the query when both are put in lower case, each marked as
    an AUR hit of the repository AUR and as not installed, with the
    description of the item or an empty one. An answer of type error
    adds nothing. *)
Theorem aur_hits_follow_the_local_records query ty items rs :
  exists hits,
    aur_records query ty items rs = rs ++ hits /\
    length hits <= length (default [] items) /\
    Forall (fun p => exists item, In item (default [] items) /\ hit_of query item p)
      hits /\
    (ty = Some "error" -> hits = []).
Proof.
  destruct (aur_records_cases query ty items rs) as [H | (l & -> & Hty & H)].
  - exists []. rewrite app_nil_r. repeat split; [assumption | simpl; lia | constructor].
  - destruct (aur_loop_hits query l rs) as (hits & Hl & Hlen & Hall).
    exists hits. rewrite H. repeat split; try assumption. intros Hty'. congruence.
Qed.

Lemma aur_loop_app query pre : forall post rs,
  forallb (fun item => negb (raises_key_error query item)) pre = true ->
  aur_loop query (pre ++ post) rs = aur_loop query post (aur_loop query pre rs).
Proof.
  induction pre as [|item pre IH]; intros post rs H; [reflexivity|].
  simpl in H. apply andb_true_iff in H as [Hi Hpre].
  unfold raises_key_error in Hi. simpl.
  destruct (Name item) as [nm|]; [|discriminate].
  destruct (contains (lower query) (lower nm)).
  - destruct (Version item); [|discriminate]. now apply IH.
  - now apply IH.
Qed.

(** X10: an item without a name ends the AUR lookup. When an item of
    the answer lacks its name, or matches the query and lacks its
    version, the loop raises there: the hits of the items before it are
    kept, the items after it are not looked at, whatever they hold. *)
Theorem incomplete_item_ends_the_aur_lookup query ty pre bad post rs :
  forallb (fun item => negb (raises_key_error query item)) pre = true ->
  raises_key_error query bad = true -> ty <> Some "error" ->
  aur_loop query (pre ++ bad :: post) rs = aur_loop query pre rs /\
  aur_records query ty (Some (pre ++ bad :: post)) rs = aur_loop query pre rs.
Proof.
  intros Hpre Hbad Hty.
  assert (Hloop : aur_loop query (pre ++ bad :: post) rs = aur_loop query pre rs).
  { rewrite aur_loop_app by assumption. unfold raises_key_error in Hbad. simpl.
    destruct (Name bad) as [nm|]; [|reflexivity].
    destruct (contains (lower query) (lower nm)); [|discriminate].
    destruct (Version bad); [discriminate | reflexivity]. }
  split; [exact Hloop|].
  rewrite <- Hloop.
  destruct (pre ++ bad :: post) as [|item rest] eqn:E;
    [destruct pre; discriminate E|].
  now apply aur_records_loop.
Qed.

Lemma incomplete_item_witness :
  let vim := AurItem (Some "vim-git") (Some "9.1.r1-1") (Some "Vi Improved") in
  let bad := AurItem None (Some "1.0") None in
  let neovim := AurItem (Some "neovim-git") (Some "0.10-1") None in
  aur_records "vim" (Some "search") (Some ([vim] ++ bad :: [neovim])) []
  = [Pkg "vim-git" "AUR" "9.1.r1-1" false "Vi Improved" true].
Proof.
  intros vim bad neovim.
  destruct (incomplete_item_ends_the_aur_lookup "vim" (Some "search") [vim] bad
              [neovim] []) as [_ H].
  - reflexivity.
  - reflexivity.
  - discriminate.
  - rewrite H. reflexivity.
Defined.

End IndexFacts.

(** ** The warning page: the saved preference and the store button *)

Module WarningFacts.
Import PyStr PyStrFacts TextFacts Config Warning.

Lemma dict_get_set key v fields :
  dict_get key (dict_set key v fields) = Some v.
Proof.
  induction fields as [|[k x] rest IH]; simpl.
  - now rewrite String.eqb_refl.
  - destruct (String.eqb k key) eqn:E; simpl; rewrite E; [reflexivity | exact IH].
Qed.

Lemma dict_get_set_other key k v fields :
  k <> key -> dict_get k (dict_set key v fields) = dict_get k fields.
Proof.
  intros Hne. induction fields as [|[k0 x] rest IH]; simpl.
  - destruct (String.eqb_spec key k); [congruence | reflexivity].
  - destruct (String.eqb_spec k0 key) as [->|Hk0]; simpl.
    + destruct (String.eqb_spec key k); [congruence | reflexivity].
    + destruct (String.eqb k0 k); [reflexivity | exact IH].
Qed.

Lemma dict_set_keys key v fields :
  map fst (dict_set key v fields)
  = if existsb (String.eqb key) (map fst fields) then map fst fields
    else map fst fields ++ [key].
Proof.
  induction fields as [|[k x] rest IH]; simpl; [reflexivity|].
  rewrite (String.eqb_sym key k).
  destruct (String.eqb k key) eqn:E; simpl; [reflexivity|].
  rewrite IH. destruct (existsb _ _); reflexivity.
Qed.

(** X11: the saved preference is read back. When the configuration
    file is absent or holds a dictionary, and the directory and the
    file can be written, [save_warning_preference] leaves a dictionary
    in which [show_warning] is the value given and every other key has
    the value it had, the keys in their old order; the next
    [should_show_warning] returns the value given. So after Continue
    with the box ticked the widget opens with the search page. *)
Theorem saved_preference_is_read_back v f fields :
  loaded f = Some (PyDict fields) ->
  let f' := save_warning_preference true Written v f in
  should_show_warning f' = v /\
  (exists fields',
      f' = Parsed (PyDict fields') /\
      dict_get "show_warning" fields' = Some v /\
      (forall k, k <> "show_warning" -> dict_get k fields' = dict_get k fields) /\
      map fst fields'
      = if existsb (String.eqb "show_warning") (map fst fields)
        then map fst fields else map fst fields ++ ["show_warning"]) /\
  first_page (on_warning_continue true true Written f).1 = Supervisor.search_view /\
  (on_warning_continue true true Written f).2 = Supervisor.search_view.
Proof.
  intros Hl. cbv zeta. unfold on_warning_continue, save_warning_preference.
  rewrite Hl. simpl fst. simpl snd.
  split; [|split; [|split; [|reflexivity]]].
  - simpl. now rewrite dict_get_set.
  - eexists. split; [reflexivity|]. split; [apply dict_get_set|].
    split; [intros k Hk; now apply dict_get_set_other | apply dict_set_keys].
  - unfold first_page, warning_shown. simpl. now rewrite dict_get_set.
Qed.

Lemma saved_preference_witness :
  let f := Parsed (PyDict [("theme", PyStr "dark"); ("show_warning", PyBool true)]) in
  loaded f = Some (PyDict [("theme", PyStr "dark"); ("show_warning", PyBool true)]) /\
  save_warning_preference true Written (PyBool false) f
  = Parsed (PyDict [("theme", PyStr "dark"); ("show_warning", PyBool false)]) /\
  should_show_warning (save_warning_preference true Written (PyBool false) f)
  = PyBool false.
Proof.
  intros f.
  destruct (saved_preference_is_read_back (PyBool false) f
              [("theme", PyStr "dark"); ("show_warning", PyBool true)] eq_refl)
    as (H & _).
  exact (conj eq_refl (conj eq_refl H)).
Defined.

(** X12: a configuration file that cannot be used is never repaired.
    When the file is there and cannot be read, or is not JSON, or holds
    a document that is not a dictionary, [save_warning_preference]
    leaves it as it is, whatever the value and whether or not the file
    could be written: the exception is caught before the file is
    opened for writing. The warning page then comes back at every
    start, box ticked or not. The same holds, for any file, when the
    directory cannot be made or the file cannot be opened for
    writing. *)
Theorem unusable_config_is_never_repaired f v makedirs_ok w tick :
  (forall fields, loaded f <> Some (PyDict fields)) ->
  save_warning_preference makedirs_ok w v f = f /\
  (on_warning_continue tick makedirs_ok w f).1 = f /\
  first_page (on_warning_continue tick makedirs_ok w f).1 = Supervisor.warning_view /\
  (forall g, save_warning_preference false w v g = g) /\
  (forall g, save_warning_preference makedirs_ok OpenRaises v g = g).
Proof.
  intros Hbad.
  assert (Hsave : forall v', save_warning_preference makedirs_ok w v' f = f).
  { intros v'. unfold save_warning_preference. destruct makedirs_ok; [|reflexivity].
    destruct (loaded f) as [[]|] eqn:E; try reflexivity.
    exfalso. now apply (Hbad fields). }
  split; [apply Hsave|]. split; [|split; [|split]].
  - unfold on_warning_continue. simpl. destruct tick; [apply Hsave | reflexivity].
  - unfold on_warning_continue. simpl.
    replace (if tick then save_warning_preference makedirs_ok w (PyBool false) f else f)
      with f by (destruct tick; [now rewrite Hsave | reflexivity]).
    unfold first_page, warning_shown.
    destruct f as [| | |[]]; try reflexivity.
    exfalso. now apply (Hbad fields).
  - reflexivity.
  - intros g. unfold save_warning_preference. destruct makedirs_ok; [|reflexivity].
    destruct (loaded g) as [[]|]; reflexivity.
Qed.

Lemma unusable_config_witness :
  (forall fields, loaded Invalid <> Some (PyDict fields)) /\
  save_warning_preference true Written (PyBool false) Invalid = Invalid /\
  first_page (on_warning_continue true true Written Invalid).1
  = Supervisor.warning_view.
Proof.
  assert (H : forall fields, loaded Invalid <> Some (PyDict fields))
    by (intros fields; discriminate).
  destruct (unusable_config_is_never_repaired Invalid (PyBool false) true Written true H)
    as (Ha & _ & Hb & _).
  exact (conj H (conj Ha Hb)).
Defined.

(** **** The store button *)

Section Store.
Variable gettext : string -> string.

Lemma upper_inside (a w b : string) :
  upper (a ++ w ++ b) = (upper a ++ upper w ++ upper b)%string.
Proof. unfold upper. now rewrite !map_chars_app. Qed.

(** X13: the desktop decides the store, installed or not. When
    [XDG_CURRENT_DESKTOP] contains GNOME in any mix of upper and lower
    case, the store button starts [gnome-software]; when it contains
    KDE so, and not GNOME, the button starts [plasma-discover]. In both
    cases [which] is not asked: the answer is the same whether the
    store is installed, is missing, or [which] itself cannot be run.
    Only on other desktops the first store that [which] finds is taken,
    GNOME Software first, and there is no button when it finds
    none. *)
Theorem desktop_decides_the_store environ which a w b :
  environ !! "XDG_CURRENT_DESKTOP" = Some (a ++ w ++ b)%string ->
  (upper w = "GNOME" ->
   get_app_store_info gettext environ which
   = inr (Some ("gnome-software", gettext "Open GNOME Software instead"))) /\
  (upper w = "KDE" -> contains "GNOME" (upper (a ++ w ++ b)) = false ->
   get_app_store_info gettext environ which
   = inr (Some ("plasma-discover", gettext "Open Discover instead"))) /\
  (contains "GNOME" (upper (a ++ w ++ b)) = false ->
   contains "KDE" (upper (a ++ w ++ b)) = false ->
   get_app_store_info gettext environ which
   = match which "gnome-software" with
     | None => inl FileNotFoundError
     | Some 0%Z =>
         inr (Some ("gnome-software", gettext "Open GNOME Software instead"))
     | Some _ =>
         match which "plasma-discover" with
         | None => inl FileNotFoundError
         | Some 0%Z =>
             inr (Some ("plasma-discover", gettext "Open Discover instead"))
         | Some _ => inr None
         end
     end).
Proof.
  intros Henv. unfold get_app_store_info. rewrite Henv. simpl default.
  split; [|split].
  - intros Hw. rewrite upper_inside, Hw, contains_inside. reflexivity.
  - intros Hw Hg. rewrite Hg. rewrite upper_inside, Hw, contains_inside. reflexivity.
  - intros Hg Hk. rewrite Hg, Hk. unfold command_exists.
    destruct (which "gnome-software") as [[| |]|]; try reflexivity;
      destruct (which "plasma-discover") as [[| |]|]; reflexivity.
Qed.

End Store.

Lemma desktop_decides_witness :
  let environ : gmap string string := {[ "XDG_CURRENT_DESKTOP" := "ubuntu:Gnome" ]} in
  environ !! "XDG_CURRENT_DESKTOP" = Some ("ubuntu:" ++ "Gnome" ++ "")%string /\
  upper "Gnome" = "GNOME" /\
  get_app_store_info Supervisor.no_catalogue environ (fun _ => None)
  = inr (Some ("gnome-software", "Open GNOME Software instead")).
Proof.
  intros environ.
  assert (H1 : environ !! "XDG_CURRENT_DESKTOP"
               = Some ("ubuntu:" ++ "Gnome" ++ "")%string)
    by (vm_compute; reflexivity).
  assert (H2 : upper "Gnome" = "GNOME") by (vm_compute; reflexivity).
  destruct (desktop_decides_the_store Supervisor.no_catalogue environ (fun _ => None)
              "ubuntu:" "Gnome" "" H1) as (Ha & _).
  exact (conj H1 (conj H2 (Ha H2))).
Defined.

End WarningFacts.

(** ** Icons: the application ids and the name of the icon *)

Module IconFacts.
Import PyStr PyStrFacts TextFacts IndexText Icons.

(** **** The list of application ids *)

Lemma split_app c (a b : string) :
  split c (a ++ String c b) = split c a ++ split c b.
Proof.
  induction a as [|x a IH]; simpl.
  - now rewrite Ascii.eqb_refl.
  - destruct (Ascii.eqb x c); [now rewrite IH|].
    rewrite IH. destruct (split c a) as [|w ws] eqn:E; [|reflexivity].
    now apply split_nonempty in E.
Qed.

Lemma flatpak_ids_lines (lines : list string) :
  Forall is_id lines ->
  map strip (List.filter (fun line => truthy (strip line)) lines) = lines.
Proof.
  induction 1 as [|l lines (Hne & Hs & _) _ IH]; [reflexivity|].
  simpl. rewrite Hs. destruct l; [congruence|]. simpl. now rewrite Hs, IH.
Qed.

Lemma filter_app_blank (lines : list string) :
  List.filter (fun line => truthy (strip line)) (lines ++ [""])
  = List.filter (fun line => truthy (strip line)) lines.
Proof. rewrite List.filter_app. simpl. apply app_nil_r. Qed.

(** X14: the application ids are the lines of the output, stripped,
    the blank ones left out. After [load_all_flatpak_ids] the list is
    the old one when [flatpak] could not be run or ended with an exit
    code other than 0; otherwise every id in it is a line of the
    output without the white space around it, is not empty and holds
    no line feed. And the list that [flatpak] prints, one id on each
    line, is read back as it is. *)
Theorem flatpak_ids_are_the_stripped_lines old :
  load_all_flatpak_ids Search.RunRaises old = old /\
  (forall rc stdout, rc <> 0%Z ->
     load_all_flatpak_ids (Search.Completed rc stdout) old = old) /\
  (forall stdout id,
     In id (load_all_flatpak_ids (Search.Completed 0 stdout) old) ->
     is_id id /\ exists line, In line (split LF stdout) /\ id = strip line) /\
  (forall ids, Forall is_id ids ->
     load_all_flatpak_ids (Search.Completed 0 (join LF ids ++ nl)) old = ids).
Proof.
  split; [reflexivity|]. split; [|split].
  - intros rc stdout Hrc. simpl. destruct (Z.eqb_spec rc 0); [congruence | reflexivity].
  - intros stdout id Hin. simpl in Hin. unfold flatpak_ids in Hin.
    apply in_map_iff in Hin as (line & <- & Hl).
    apply filter_In in Hl as [Hl Ht].
    split; [|exists line; auto]. repeat split.
    + intros E. rewrite E in Ht. discriminate.
    + apply strip_idem.
    + apply has_char_strip. now apply (split_no_sep LF stdout).
  - intros ids Hids. simpl. unfold flatpak_ids.
    change (join LF ids ++ nl)%string with (join LF ids ++ String LF "")%string.
    rewrite split_app. simpl (split LF ""). rewrite filter_app_blank.
    destruct ids as [|id ids]; [reflexivity|].
    rewrite split_join.
    + now apply flatpak_ids_lines.
    + discriminate.
    + eapply Forall_impl; [exact Hids|]. intros l (_ & _ & Hl). exact Hl.
Qed.

(** **** The name without its variant *)

Lemma hyphens_app (a b : string) : hyphens (a ++ b) = hyphens a + hyphens b.
Proof. induction a as [|x a IH]; simpl; [reflexivity | rewrite IH; lia]. Qed.

Lemma after_prefix_spec p : forall s r,
  after_prefix p s = Some r -> s = (p ++ r)%string.
Proof.
  induction p as [|a p IH]; intros s r H; simpl in H.
  - now injection H as <-.
  - destruct s as [|b s]; [discriminate|].
    destruct (Ascii.eqb_spec a b) as [<-|]; [|discriminate].
    simpl. f_equal. now apply IH.
Qed.

Lemma match_group_spec alts ok s r :
  match_group alts ok s = Some r ->
  exists a, In a alts /\ s = (a ++ r)%string /\ ok r = true.
Proof.
  induction alts as [|a alts IH]; simpl; [discriminate|].
  destruct (after_prefix a s) as [r'|] eqn:E.
  - destruct (ok r') eqn:Eok.
    + intros [= <-]. exists a. split; [now left|].
      split; [now apply after_prefix_spec | assumption].
    + intros H. destruct (IH H) as (a' & Ha & Hs). exists a'. split; [now right | assumption].
  - intros H. destruct (IH H) as (a' & Ha & Hs). exists a'. split; [now right | assumption].
Qed.

Lemma variant_shape a :
  In a variants -> hyphens a = 1 /\ exists t, a = String "-" t.
Proof.
  intros [<-|[<-|[<-|[<-|[<-|[]]]]]]; (split; [reflexivity | eexists; reflexivity]).
Qed.

Lemma at_end_hyphens r : at_end r = true -> hyphens r = 0.
Proof.
  unfold at_end. intros H. apply orb_true_iff in H as [H|H];
    apply String.eqb_eq in H; subst; reflexivity.
Qed.

(** Behind a character, the second branch matches nothing before the
    variant at the end is reached. *)
Lemma no_match_inside x (b a : string) :
  In a variants -> match_group variants at_end (String x (b ++ a)) = None.
Proof.
  intros Ha. destruct (match_group variants at_end (String x (b ++ a))) as [r|] eqn:E;
    [exfalso | reflexivity].
  apply match_group_spec in E as (v & Hv & Hs & Hr).
  destruct (variant_shape v Hv) as (Hv1 & t & ->).
  destruct (variant_shape a Ha) as (Ha1 & _).
  apply at_end_hyphens in Hr.
  assert (Hc : hyphens (String x (b ++ a)) = hyphens (String "-" t ++ r))
    by now rewrite Hs.
  injection Hs as -> _.
  change (String "-" (b ++ a)) with ("-" ++ b ++ a)%string in Hc.
  rewrite !hyphens_app, Hv1, Ha1, Hr in Hc. simpl in Hc. lia.
Qed.

Lemma sub_from_variant (b a : string) :
  In a variants -> sub_from (b ++ a) = b.
Proof.
  intros Ha. induction b as [|x b IH].
  - destruct Ha as [<-|[<-|[<-|[<-|[<-|[]]]]]]; reflexivity.
  - change (sub_from (String x b ++ a))
      with (match match_group variants at_end (String x (b ++ a)) with
            | Some r => r
            | None => String x (sub_from (b ++ a))
            end).
    now rewrite no_match_inside, IH.
Qed.

Lemma no_match_at_start x (s : string) :
  Ascii.eqb "-" x = false ->
  match_group variants (fun _ => true) (String x s) = None.
Proof. intros H. simpl. rewrite H. reflexivity. Qed.

Lemma clean_name_variant (b a : string) :
  In a variants -> startswith "-" b = false -> clean_name (b ++ a) = b.
Proof.
  intros Ha Hb. unfold clean_name. destruct b as [|x b].
  - destruct Ha as [<-|[<-|[<-|[<-|[<-|[]]]]]]; reflexivity.
  - simpl in Hb. rewrite andb_true_r in Hb.
    change (String x b ++ a)%string with (String x (b ++ a)).
    rewrite no_match_at_start by assumption.
    now apply (sub_from_variant (String x b)).
Qed.

Lemma length_append (a b : string) :
  String.length (a ++ b) = String.length a + String.length b.
Proof. induction a as [|x a IH]; simpl; [reflexivity | now rewrite IH]. Qed.

Lemma append_not_fixed (b a : string) : a <> "" -> (b ++ a)%string <> b.
Proof.
  intros Ha H. apply Ha.
  assert (Hl : String.length (b ++ a) = String.length b) by now rewrite H.
  rewrite length_append in Hl. destruct a; [reflexivity | simpl in Hl; lia].
Qed.

(** X15: a variant of a package takes the icon of the package. When
    the name is a base name followed by one of [-bin], [-git],
    [-nightly], [-stable], [-beta], the base name does not start with a
    hyphen, and the theme has an icon for the base name and none for
    the full name, the icon is the one of the base name. One variant is
    taken off, the last: what stands before it stays, hyphens and
    other variants included. *)
Theorem variant_takes_the_icon_of_its_base has_icon ids b a :
  In a variants -> startswith "-" b = false ->
  has_icon (b ++ a)%string = false -> has_icon b = true ->
  clean_name (b ++ a) = b /\
  resolve_icon_name has_icon ids (b ++ a) = b.
Proof.
  intros Ha Hb Hfull Hbase.
  pose proof (clean_name_variant b a Ha Hb) as Hclean.
  split; [assumption|].
  unfold resolve_icon_name. rewrite Hfull, Hclean, Hbase.
  destruct (String.eqb_spec b (b ++ a)) as [E|_]; [|reflexivity].
  exfalso. symmetry in E. revert E. apply append_not_fixed.
  destruct (variant_shape a Ha) as (_ & t & ->). discriminate.
Qed.

Lemma variant_icon_witness :
  let has_icon := String.eqb "visual-studio-code" in
  In "-bin" variants /\ startswith "-" "visual-studio-code" = false /\
  resolve_icon_name has_icon [] "visual-studio-code-bin" = "visual-studio-code" /\
  clean_name "firefox-nightly-git" = "firefox-nightly".
Proof.
  intros has_icon.
  assert (H1 : In "-bin" variants) by (left; reflexivity).
  assert (H2 : In "-git" variants) by (right; left; reflexivity).
  destruct (variant_takes_the_icon_of_its_base has_icon [] "visual-studio-code" "-bin"
              H1 eq_refl eq_refl eq_refl) as [_ Ha].
  destruct (variant_takes_the_icon_of_its_base (fun s => String.eqb s "firefox-nightly")
              [] "firefox-nightly" "-git" H2 eq_refl eq_refl eq_refl) as [Hb _].
  exact (conj H1 (conj eq_refl (conj Ha Hb))).
Defined.

(** **** The icon that is returned *)

Lemma mapping_in key d icon :
  mapping key d = Some icon -> In icon (map snd d).
Proof.
  induction d as [|[k v] d IH]; simpl; [discriminate|].
  destruct (String.eqb k key); [intros [= <-]; now left | right; now apply IH].
Qed.

(** X16: the icon is one the theme has, or a fallback. The name that
    [resolve_icon_name] returns is the package name, the cleaned name
    or one of the application ids that match it, and then the theme
    has an icon of that name; or it is one of the six icons of
    [known_mappings] or [package-x-generic], which are returned without
    asking the theme. The package name itself comes first: when the
    theme has it, it is returned whatever the ids are; and in a theme
    that has no icon at all the result is the entry of
    [known_mappings] for the package name, or [package-x-generic]. *)
Theorem icon_is_in_the_theme_or_a_fallback has_icon ids package_name :
  let icon := resolve_icon_name has_icon ids package_name in
  ((has_icon icon = true /\
    (icon = package_name \/ icon = clean_name package_name \/
     (In icon ids /\ id_matches (lower (clean_name package_name)) icon = true)))
   \/ In icon fallback_icons) /\
  (has_icon package_name = true -> icon = package_name) /\
  ((forall x, has_icon x = false) ->
   icon = default "package-x-generic" (mapping package_name known_mappings)).
Proof.
  cbv zeta. unfold resolve_icon_name. split; [|split].
  - destruct (has_icon package_name) eqn:E1; [left; auto|].
    destruct (negb _ && has_icon (clean_name package_name)) eqn:E2.
    + apply andb_true_iff in E2 as [_ E2]. left. auto.
    + destruct (List.find _ _) as [fid|] eqn:E3.
      * apply find_some in E3 as [Hin Hicon]. apply filter_In in Hin as [Hin Hm].
        left. auto.
      * right. unfold fallback_icons. apply in_or_app.
        destruct (mapping package_name known_mappings) as [icon|] eqn:E4.
        -- left. now apply (mapping_in package_name).
        -- right. now left.
  - intros ->. reflexivity.
  - intros Hno. rewrite !Hno, andb_false_r.
    destruct (List.find _ _) as [fid|] eqn:E3.
    + apply find_some in E3 as [_ Hicon]. rewrite Hno in Hicon. discriminate.
    + destruct (mapping package_name known_mappings); reflexivity.
Qed.

End IconFacts.

(** ** The supervisor: the log, the details button, the review *)

Module JournalFacts.
Import PyStr PyStrFacts Supervisor SupervisorFacts Journal.

Section Journal.
Variable gettext : string -> string.

(** **** The log *)

Lemma queued_text_app q1 q2 :
  queued_text (q1 ++ q2) = (queued_text q1 ++ queued_text q2)%string.
Proof.
  induction q1 as [|c q1 IH]; [reflexivity|].
  destruct c; simpl; rewrite IH; [now rewrite append_assoc' | reflexivity..].
Qed.

Lemma step_log s e s' :
  Forall (fun c => is_log c = true) (idle_queue s) ->
  reads_or_idles e = true -> step gettext s e = Some s' ->
  (output_buffer s' ++ queued_text (idle_queue s'))%string
  = (output_buffer s ++ queued_text (idle_queue s) ++ lines_read [e])%string /\
  Forall (fun c => is_log c = true) (idle_queue s').
Proof.
  intros Hq He Hstep. unfold step in Hstep.
  destruct (enabled s e); [|discriminate].
  destruct e; try discriminate; simpl in Hstep.
  - (* an idle call *)
    destruct (idle_queue s) as [|c rest] eqn:Eq; [discriminate|].
    injection Hstep as <-. inversion Hq as [|? ? Hc Hrest]; subst.
    destruct c; try discriminate. simpl.
    rewrite append_nil_r, append_assoc'. auto.
  - (* a line of output *)
    destruct (threads s !! tid) as [t|]; [|discriminate].
    destruct t; try discriminate. simpl in Hstep.
    destruct (truthy line); [|discriminate]. injection Hstep as <-. simpl.
    rewrite queued_text_app. simpl. rewrite !append_nil_r. split; [reflexivity|].
    apply Forall_app. split; [assumption | repeat constructor].
Qed.

Lemma lines_read_cons e es :
  lines_read (e :: es) = (lines_read [e] ++ lines_read es)%string.
Proof. destruct e; simpl; rewrite ?append_nil_r; reflexivity. Qed.

(** X17: the log shows the output in the order it was read. While a
    worker reads the output of its child and the main loop runs the
    [append_log] calls, in any interleaving, the text in the log
    followed by the text still waiting in the idle queue is the text
    that was there followed by the lines read, in the order they were
    read: no line is lost, none comes twice, none overtakes another.
    Once the queue is empty the log holds all of it. *)
Theorem log_shows_the_output_in_order s es s' :
  Forall (fun c => is_log c = true) (idle_queue s) ->
  forallb reads_or_idles es = true ->
  run gettext s es = Some s' ->
  (output_buffer s' ++ queued_text (idle_queue s'))%string
  = (output_buffer s ++ queued_text (idle_queue s) ++ lines_read es)%string /\
  (idle_queue s' = [] ->
   output_buffer s'
   = (output_buffer s ++ queued_text (idle_queue s) ++ lines_read es)%string).
Proof.
  intros Hq Hes Hrun.
  assert (H : (output_buffer s' ++ queued_text (idle_queue s'))%string
              = (output_buffer s ++ queued_text (idle_queue s) ++ lines_read es)%string).
  { revert s Hq Hes Hrun. induction es as [|e es IH]; intros s Hq Hes Hrun.
    - injection Hrun as <-. simpl. now rewrite append_nil_r.
    - simpl in Hes. apply andb_true_iff in Hes as [He Hes]. simpl in Hrun.
      destruct (step gettext s e) as [s1|] eqn:Hstep; [|discriminate].
      destruct (step_log s e s1 Hq He Hstep) as [H1 Hq1].
      rewrite (IH s1 Hq1 Hes Hrun), lines_read_cons.
      rewrite <- !append_assoc'. rewrite <- append_assoc' in H1. now rewrite H1. }
  split; [exact H|]. intros Hempty. rewrite Hempty in H. simpl in H.
  now rewrite append_nil_r in H.
Qed.

(** **** The details button *)

Ltac looks :=
  repeat match goal with
    | |- context [<[ ?k := _ ]> _ !! ?k] => rewrite lookup_insert_eq
    | |- context [<[ ?k := _ ]> _ !! ?k'] =>
        rewrite (lookup_insert_ne _ k k') by discriminate
    end.

Lemma details_kept s s' :
  labels s' !! "btn_details" = labels s !! "btn_details" ->
  shown s' !! "revealer_details" = shown s !! "revealer_details" ->
  details_label_fits gettext s -> details_label_fits gettext s'.
Proof. intros Hl Hs (b & H1 & H2). exists b. now rewrite Hl, Hs. Qed.

Lemma details_run_transaction n s :
  details_label_fits gettext (run_transaction gettext n s).
Proof.
  exists false. unfold run_transaction.
  destruct (action_type _) as [[]|]; simpl; looks; split; reflexivity.
Qed.

Lemma details_run_aur_build s :
  details_label_fits gettext (run_aur_build gettext s).
Proof. exists false. unfold run_aur_build. simpl. looks. split; reflexivity. Qed.

Lemma details_toggle s :
  forall b : bool,
  shown s !! "revealer_details" = Some b ->
  shown (on_toggle_details gettext s) !! "revealer_details" = Some (negb b) /\
  labels (on_toggle_details gettext s) !! "btn_details"
  = Some (if negb b then gettext "Hide Details" else gettext "Show Details").
Proof.
  intros b Hb. unfold on_toggle_details. rewrite Hb.
  destruct b; simpl; looks; split; reflexivity.
Qed.

Lemma details_callback c s :
  details_label_fits gettext s -> details_label_fits gettext (run_callback gettext c s).
Proof.
  intros H. destruct c; simpl.
  - revert H. apply details_kept; reflexivity.
  - unfold on_process_finished. destruct success.
    + revert H. apply details_kept;
        destruct (pulse_timer_id _), (aur_temp_dir _) as [d|];
        try destruct (path_exists d _); try destruct (action_type _) as [[]|];
        simpl; looks; reflexivity.
    + exists true.
      destruct (pulse_timer_id _), (aur_temp_dir _) as [d|];
        try destruct (path_exists d _); simpl; looks; split; reflexivity.
  - revert H. apply details_kept; simpl; looks; reflexivity.
  - revert H. apply details_kept; reflexivity.
Qed.

Lemma details_thread tid t e s s' :
  thread_step tid t e s = Some s' ->
  labels s' = labels s /\ shown s' = shown s.
Proof.
  unfold thread_step, execute_shell_failed, clone_task_failed.
  destruct e, t; try discriminate; intros H;
    try (destruct (current_process s) as [h|];
         [unfold wait in H; destruct (procs s !! h) as [p|];
          [destruct (returncode p)|]|]);
    repeat match type of H with
      | context [match ?x with _ => _ end] => destruct x
      end;
    try discriminate; injection H as <-; split; reflexivity.
Qed.

Lemma handle_details s e s' :
  details_label_fits gettext s -> handle gettext s e = Some s' ->
  details_label_fits gettext s'.
Proof.
  intros Hfit. destruct e; unfold handle;
    try (destruct (threads s !! tid) as [t|]; [|discriminate];
         intros H; apply details_thread in H as [Hl Hs];
         revert Hfit; apply details_kept; congruence).
  - intros [= <-]. unfold initiate_install.
    destruct (Search.is_aur p).
    + revert Hfit. apply details_kept; simpl; looks; reflexivity.
    + destruct (negb _); [|apply details_run_transaction].
      revert Hfit. apply details_kept; reflexivity.
  - intros [= <-]. unfold initiate_remove.
    destruct (negb _); [|apply details_run_transaction].
    revert Hfit. apply details_kept; reflexivity.
  - destruct (dialogs s) as [|d ds]; [discriminate|]. intros [= <-].
    unfold on_response.
    destruct (String.eqb response "unlock"), (truthy entry_text);
      try (revert Hfit; apply details_kept; reflexivity).
    destruct (callback_success d); unfold call_continuation.
    + pose proof (details_run_transaction package_name
                    (set_user_password (Some entry_text) s)) as Hx.
      revert Hx. generalize (run_transaction gettext package_name
                               (set_user_password (Some entry_text) s)).
      intros x. apply details_kept; reflexivity.
    + pose proof (details_run_aur_build (set_user_password (Some entry_text) s))
        as Hx.
      revert Hx. generalize (run_aur_build gettext
                               (set_user_password (Some entry_text) s)).
      intros x. apply details_kept; reflexivity.
  - intros [= <-]. revert Hfit. unfold on_pkgbuild_cancel.
    apply details_kept;
      destruct (aur_temp_dir s) as [d|]; try destruct (path_exists d s); reflexivity.
  - intros [= <-]. unfold on_pkgbuild_proceed.
    destruct (negb _); [|apply details_run_aur_build].
    revert Hfit. apply details_kept; reflexivity.
  - intros [= <-]. revert Hfit. unfold on_cancel_clicked, send_signal.
    apply details_kept;
      destruct (current_process s) as [h|]; simpl; try reflexivity;
      destruct (procs s !! h) as [p|]; try destruct (returncode p); reflexivity.
  - intros [= <-]. revert Hfit. apply details_kept; reflexivity.
  - intros [= <-]. exists true. unfold on_view_log_clicked.
    destruct (action_type _) as [[]|]; simpl; looks; split; reflexivity.
  - intros [= <-]. destruct Hfit as (b & H1 & _).
    exists (negb b). now apply details_toggle.
  - destruct (idle_queue s) as [|c rest]; [discriminate|]. intros [= <-].
    apply details_callback. revert Hfit. apply details_kept; reflexivity.
Qed.

(** X18: the details button says what it does. Whatever the user and
    the children do, in any order, with or without the pages that gate
    the buttons, the revealer of the log is either open or closed and
    the label of the button under it fits: Hide Details while the log
    is open, Show Details while it is closed; and a click on the
    button turns both over. *)
Theorem details_button_says_what_it_does environ mask files0 dirs0 es s :
  run_handlers gettext (boot gettext environ mask files0 dirs0) es = Some s ->
  exists b : bool,
    shown s !! "revealer_details" = Some b /\
    labels s !! "btn_details"
    = Some (if b then gettext "Hide Details" else gettext "Show Details") /\
    shown (on_toggle_details gettext s) !! "revealer_details" = Some (negb b) /\
    labels (on_toggle_details gettext s) !! "btn_details"
    = Some (if negb b then gettext "Hide Details" else gettext "Show Details").
Proof.
  intros Hrun.
  assert (Hfit : details_label_fits gettext s).
  { assert (H0 : details_label_fits gettext (boot gettext environ mask files0 dirs0)).
    { exists false. split; vm_compute; reflexivity. }
    revert H0 Hrun. generalize (boot gettext environ mask files0 dirs0).
    induction es as [|e es IH]; intros s0 H0 Hrun; simpl in Hrun.
    - now injection Hrun as <-.
    - destruct (handle gettext s0 e) as [s1|] eqn:Hh; [|discriminate].
      eauto using handle_details. }
  destruct Hfit as (b & H1 & H2). exists b.
  destruct (details_toggle s b H1) as [H3 H4]. auto.
Qed.

End Journal.

Lemma details_button_witness :
  let es := [ClickRemove "vim"; Respond "unlock" "hunter2"; ToggleDetails;
             PopenOk 0 4711; Eof 0 1; IdleRun; ToggleDetails] in
  let s := default demo_boot (run_handlers no_catalogue demo_boot es) in
  run_handlers no_catalogue demo_boot es = Some s /\
  shown s !! "revealer_details" = Some false /\
  labels s !! "btn_details" = Some "Show Details".
Proof.
  intros es s.
  assert (H1 : run_handlers no_catalogue demo_boot es = Some s)
    by (vm_compute; reflexivity).
  assert (H2 : shown s !! "revealer_details" = Some false)
    by (vm_compute; reflexivity).
  destruct (details_button_says_what_it_does no_catalogue ∅ 18 ∅ ∅ es s H1)
    as (b & Hb & Hl & _).
  rewrite H2 in Hb. injection Hb as <-.
  exact (conj H1 (conj H2 Hl)).
Defined.

Lemma log_in_order_witness :
  let es := [ReadLine 0 "checking dependencies..."; ReadLine 0 "removing vim...";
             IdleRun; ReadLine 0 "done"; IdleRun; IdleRun] in
  let s' := default demo_boot (run no_catalogue demo_child_running es) in
  Forall (fun c => is_log c = true) (idle_queue demo_child_running) /\
  forallb reads_or_idles es = true /\
  run no_catalogue demo_child_running es = Some s' /\
  output_buffer s' = "checking dependencies...removing vim...done".
Proof.
  intros es s'.
  assert (H1 : Forall (fun c => is_log c = true) (idle_queue demo_child_running)).
  { assert (E : idle_queue demo_child_running = []) by (vm_compute; reflexivity).
    rewrite E. constructor. }
  assert (H2 : forallb reads_or_idles es = true) by reflexivity.
  assert (H3 : run no_catalogue demo_child_running es = Some s')
    by (vm_compute; reflexivity).
  assert (H4 : idle_queue s' = []) by (vm_compute; reflexivity).
  assert (H5 : (output_buffer demo_child_running
                ++ queued_text (idle_queue demo_child_running) ++ lines_read es)%string
               = "checking dependencies...removing vim...done")
    by (vm_compute; reflexivity).
  destruct (log_shows_the_output_in_order no_catalogue demo_child_running es s'
              H1 H2 H3) as [_ Hb].
  specialize (Hb H4). rewrite H5 in Hb.
  exact (conj H1 (conj H2 (conj H3 Hb))).
Defined.

End JournalFacts.

(** ** The review of the build script comes before the build *)

Module ReviewFacts.
Import PyStr PyStrFacts Supervisor SupervisorFacts Journal.

Lemma in_list_insert {A} (l : list A) i x y :
  In y (<[ i := x ]> l) -> y = x \/ In y l.
Proof.
  revert i. induction l as [|a l IH]; intros i H; [destruct H|].
  destruct i as [|i]; simpl in H.
  - destruct H as [<-|H]; [now left | right; now right].
  - destruct H as [<-|H]; [right; now left|].
    destruct (IH i H) as [->|Hin]; [now left | right; now right].
Qed.

Lemma in_lookup {A} (l : list A) i x : l !! i = Some x -> In x l.
Proof.
  revert i. induction l as [|a l IH]; intros i H; [discriminate|].
  destruct i as [|i]; simpl in H; [injection H as <-; now left | right; eauto].
Qed.

Ltac split_cases :=
  repeat match goal with
    | |- context [match ?x with _ => _ end] =>
        match type of x with
        | bool => destruct x
        | option _ => destruct x
        | action => destruct x
        | _ => fail 1
        end
    end.

Section Review.
Variable gettext : string -> string.

(** What a step may add without starting a build: dialogs that do not
    lead to one, and threads that do not start one. *)
Lemma underway_framed s s' ds ts :
  dialogs s' = dialogs s ++ ds ->
  Forall (fun d => callback_success d <> then_run_aur_build) ds ->
  threads s' = threads s ++ ts ->
  Forall (fun t => starts_build t = false) ts ->
  procs s' = procs s ->
  build_underway s' -> build_underway s.
Proof.
  intros Hd Hds Ht Hts Hp [(d & Hin & Hk) | [(t & Hin & Hb) | (p & c & Hin & H)]].
  - rewrite Hd in Hin. apply in_app_or in Hin as [Hin|Hin].
    + left. eauto.
    + rewrite Forall_forall in Hds. exfalso.
      apply (Hds d); [now apply list_elem_of_In | assumption].
  - rewrite Ht in Hin. apply in_app_or in Hin as [Hin|Hin].
    + right. left. eauto.
    + rewrite Forall_forall in Hts.
      rewrite (Hts t) in Hb by (now apply list_elem_of_In). discriminate.
  - right. right. rewrite Hp in Hin. eauto.
Qed.

Lemma underway_same s s' :
  dialogs s' = dialogs s -> threads s' = threads s -> procs s' = procs s ->
  build_underway s' -> build_underway s.
Proof.
  intros Hd Ht Hp. apply (underway_framed s s' [] []);
    rewrite ?app_nil_r; auto; constructor.
Qed.

Lemma run_transaction_frame n s :
  exists command,
    is_build command = false /\
    threads (run_transaction gettext n s) = threads s ++ [ExecStart command n] /\
    procs (run_transaction gettext n s) = procs s /\
    dialogs (run_transaction gettext n s) = dialogs s.
Proof.
  unfold run_transaction. destruct (action_type _) as [[]|]; simpl;
    (eexists; split; [|split; [reflexivity|split; reflexivity]]); reflexivity.
Qed.

Lemma underway_run_transaction n s :
  build_underway (run_transaction gettext n s) -> build_underway s.
Proof.
  destruct (run_transaction_frame n s) as (c & Hc & Ht & Hp & Hd).
  apply (underway_framed _ _ [] [ExecStart c n]);
    rewrite ?app_nil_r; auto; repeat constructor; exact Hc.
Qed.

Lemma underway_prompt k s :
  k <> then_run_aur_build ->
  build_underway (prompt_for_password gettext k s) -> build_underway s.
Proof.
  intros Hk. unfold prompt_for_password.
  eapply (underway_framed _ _ [_] []); [reflexivity | | | constructor | reflexivity].
  - constructor; [exact Hk | constructor].
  - simpl. now rewrite app_nil_r.
Qed.

Lemma underway_callback c s :
  build_underway (run_callback gettext c s) -> build_underway s.
Proof.
  apply underway_same; destruct c; simpl; unfold on_process_finished;
    split_cases; reflexivity.
Qed.

Lemma wait_procs h rc s :
  dialogs (wait h rc s).2 = dialogs s /\ threads (wait h rc s).2 = threads s /\
  idle_queue (wait h rc s).2 = idle_queue s /\
  (procs (wait h rc s).2 = procs s \/
   exists p, procs s !! h = Some p /\
     procs (wait h rc s).2
     = <[ h := Popen (pid p) (args p) (shell p) (env p) (Some rc) ]> (procs s)).
Proof.
  unfold wait. destruct (procs s !! h) as [p|] eqn:E; [destruct (returncode p)|];
    simpl; repeat split; auto.
  right. exists p. auto.
Qed.

Lemma underway_waited h rc s s' :
  dialogs s' = dialogs (wait h rc s).2 ->
  (exists tid t, threads s' = <[ tid := t ]> (threads (wait h rc s).2) /\
                 starts_build t = false) ->
  procs s' = procs (wait h rc s).2 ->
  build_underway s' -> build_underway s.
Proof.
  destruct (wait_procs h rc s) as (Hd & Ht & _ & Hp).
  intros Hd' (tid & t & Ht' & Hb) Hp'. rewrite Hd in Hd'. rewrite Ht in Ht'.
  intros [(d & Hin & Hk) | [(t' & Hin & Hb') | (p & c & Hin & Hs & Ha & Hc)]].
  - left. rewrite Hd' in Hin. eauto.
  - rewrite Ht' in Hin. apply in_list_insert in Hin as [->|Hin]; [congruence|].
    right. left. eauto.
  - right. right. rewrite Hp' in Hin.
    destruct Hp as [Hp | (p0 & Hp0 & Hp)]; rewrite Hp in Hin.
    { exists p, c. auto. }
    apply in_list_insert in Hin as [->|Hin]; [|exists p, c; auto].
    exists p0, c. simpl in Hs, Ha. split; [now apply (in_lookup _ h)|]. auto.
Qed.

Lemma underway_thread tid t e s s' :
  threads s !! tid = Some t -> thread_step tid t e s = Some s' ->
  build_underway s' -> build_underway s.
Proof.
  intros Htid. unfold thread_step.
  assert (Hfail : forall err n,
            build_underway (execute_shell_failed tid err n s) -> build_underway s).
  { intros err n [(d & Hin & Hk) | [(t' & Hin & Hb') | (p & c & Hin & H)]].
    - left. eauto.
    - simpl in Hin. apply in_list_insert in Hin as [->|Hin]; [discriminate|].
      right. left. eauto.
    - right. right. exists p, c. auto. }
  assert (Hcfail : forall err,
            build_underway (clone_task_failed tid err s) -> build_underway s).
  { intros err [(d & Hin & Hk) | [(t' & Hin & Hb') | (p & c & Hin & H)]].
    - left. eauto.
    - simpl in Hin. apply in_list_insert in Hin as [->|Hin]; [discriminate|].
      right. left. eauto.
    - right. right. exists p, c. auto. }
  destruct e, t; try discriminate.
  - (* Popen for a command line *)
    intros [= <-] [(d & Hin & Hk) | [(t' & Hin & Hb') | (p & c & Hin & Hs & Ha & Hc)]].
    + left. eauto.
    + simpl in Hin. apply in_list_insert in Hin as [->|Hin]; [discriminate|].
      right. left. eauto.
    + simpl in Hin. apply in_app_or in Hin as [Hin|[<-|[]]].
      * right. right. exists p, c. auto.
      * simpl in Ha. injection Ha as <-.
        right. left. exists (ExecStart command pkg_name).
        split; [now apply (in_lookup _ tid) | assumption].
  - (* Popen for the clone *)
    intros [= <-] [(d & Hin & Hk) | [(t' & Hin & Hb') | (p & c & Hin & Hs & Ha & Hc)]].
    + left. eauto.
    + simpl in Hin. apply in_list_insert in Hin as [->|Hin]; [discriminate|].
      right. left. eauto.
    + simpl in Hin. apply in_app_or in Hin as [Hin|[<-|[]]]; [|discriminate Hs].
      right. right. exists p, c. auto.
  - intros [= <-]. apply Hfail.
  - intros [= <-]. apply Hcfail.
  - destruct (truthy line); [|discriminate]. intros [= <-].
    apply underway_same; reflexivity.
  - intros [= <-]. apply Hfail.
  - destruct (current_process s) as [h|]; [|intros [= <-]; apply Hfail].
    destruct (wait h rc s) as [z s0] eqn:Ew. intros [= <-].
    assert (Es0 : s0 = (wait h rc s).2) by now rewrite Ew.
    apply (underway_waited h rc); rewrite <- Es0; try reflexivity.
    exists tid, Finished. split; reflexivity.
  - destruct (current_process s) as [h|]; [|intros [= <-]; apply Hcfail].
    destruct (wait h rc s) as [z s0] eqn:Ew. intros [= <-].
    assert (Es0 : s0 = (wait h rc s).2) by now rewrite Ew.
    apply (underway_waited h rc); rewrite <- Es0.
    + destruct pkgbuild, (z =? 0)%Z; reflexivity.
    + exists tid, Finished. split; [|reflexivity].
      destruct pkgbuild, (z =? 0)%Z; reflexivity.
    + destruct pkgbuild, (z =? 0)%Z; reflexivity.
Qed.

Lemma underway_response d ds response entry_text s :
  dialogs s = d :: ds ->
  build_underway (on_response gettext d response entry_text s) ->
  build_underway s.
Proof.
  intros Hd. unfold on_response.
  assert (Htail : forall x, dialogs x = dialogs s -> threads x = threads s ->
            procs x = procs s ->
            build_underway (set_dialogs (tail (dialogs x)) x) -> build_underway s).
  { intros x Hxd Hxt Hxp [(d' & Hin & Hk) | [(t & Hin & Hb) | (p & c & Hin & H)]].
    - left. exists d'. split; [|assumption]. simpl in Hin. rewrite Hxd, Hd in Hin.
      rewrite Hd. now right.
    - right. left. simpl in Hin. rewrite Hxt in Hin. eauto.
    - right. right. simpl in Hin. rewrite Hxp in Hin. exists p, c. auto. }
  destruct (String.eqb response "unlock"); [|now apply Htail].
  destruct (truthy entry_text); [|now apply Htail].
  destruct (callback_success d) eqn:Ek; unfold call_continuation.
  - (* a transaction: its worker starts no build *)
    destruct (run_transaction_frame package_name
                (set_user_password (Some entry_text) s)) as (c & Hc & Ht & Hp & Hdl).
    revert Ht Hp Hdl.
    generalize (run_transaction gettext package_name
                  (set_user_password (Some entry_text) s)).
    intros x Ht Hp Hdl [(d' & Hin & Hk) | [(t & Hin & Hb) | (p & c' & Hin & H)]].
    + left. exists d'. split; [|assumption]. simpl in Hin. rewrite Hdl in Hin.
      simpl in Hin. rewrite Hd in Hin |- *. now right.
    + simpl in Hin. rewrite Ht in Hin. simpl in Hin.
      apply in_app_or in Hin as [Hin|[<-|[]]]; [right; left; eauto|].
      simpl in Hb. congruence.
    + right. right. simpl in Hin. rewrite Hp in Hin. exists p, c'. auto.
  - (* the build: it was asked for behind this dialog *)
    intros _. left. exists d. split; [rewrite Hd; now left | assumption].
Qed.

Lemma handle_underway s e s' :
  handle gettext s e = Some s' -> build_underway s' ->
  build_underway s \/ e = PkgbuildProceed.
Proof.
  destruct e; unfold handle;
    try (destruct (threads s !! tid) as [t|] eqn:Et; [|discriminate];
         intros H Hu; left; eapply underway_thread; eauto).
  - intros [= <-]. left. revert H. unfold initiate_install.
    destruct (Search.is_aur p).
    + apply (underway_framed _ _ [] [CloneStart (Search.name p)]);
        rewrite ?app_nil_r; try reflexivity; repeat constructor.
    + destruct (negb _).
      * intros H. apply underway_prompt in H; [|discriminate].
        revert H. apply underway_same; reflexivity.
      * intros H. apply underway_run_transaction in H.
        revert H. apply underway_same; reflexivity.
  - intros [= <-]. left. revert H. unfold initiate_remove.
    destruct (negb _).
    + intros H. apply underway_prompt in H; [|discriminate].
      revert H. apply underway_same; reflexivity.
    + intros H. apply underway_run_transaction in H.
      revert H. apply underway_same; reflexivity.
  - destruct (dialogs s) as [|d ds] eqn:Hd; [discriminate|]. intros [= <-].
    left. now apply (underway_response d ds response entry_text).
  - intros [= <-]. left. revert H. unfold on_pkgbuild_cancel.
    apply underway_same;
      destruct (aur_temp_dir s) as [d|]; try destruct (path_exists d s); reflexivity.
  - right. reflexivity.
  - intros [= <-]. left. revert H. unfold on_cancel_clicked, send_signal.
    apply underway_same;
      destruct (current_process s) as [h|]; simpl; try reflexivity;
      destruct (procs s !! h) as [p|]; try destruct (returncode p); reflexivity.
  - intros [= <-]. left. revert H. apply underway_same; reflexivity.
  - intros [= <-]. left. revert H. unfold on_view_log_clicked.
    apply underway_same; destruct (action_type _) as [[]|]; reflexivity.
  - intros [= <-]. left. revert H. unfold on_toggle_details.
    apply underway_same; destruct (shown s !! "revealer_details") as [[]|];
      reflexivity.
  - destruct (idle_queue s) as [|c rest]; [discriminate|]. intros [= <-].
    left. apply underway_callback in H. revert H. apply underway_same; reflexivity.
Qed.

Lemma run_app es1 : forall s es2,
  run gettext s (es1 ++ es2)
  = match run gettext s es1 with
    | Some s1 => run gettext s1 es2
    | None => None
    end.
Proof.
  induction es1 as [|e es1 IH]; intros s es2; [reflexivity|].
  simpl. destruct (step gettext s e); [apply IH | reflexivity].
Qed.

Lemma run_underway es : forall s s',
  run gettext s es = Some s' -> build_underway s' ->
  build_underway s \/ In PkgbuildProceed es.
Proof.
  induction es as [|e es IH]; intros s s' Hrun Hu; simpl in Hrun.
  - injection Hrun as <-. now left.
  - destruct (step gettext s e) as [s1|] eqn:Hstep; [|discriminate].
    destruct (IH s1 s' Hrun Hu) as [H1 | Hin]; [|right; now right].
    unfold step in Hstep. destruct (enabled s e); [|discriminate].
    destruct (handle_underway s e s1 Hstep H1) as [H | ->]; [now left|].
    right. now left.
Qed.

(** X19: no build without the review. Along every run that the user
    interface lets through, whenever a build of an AUR package is under
    way (asked for behind the password dialog, waiting in its worker,
    or started as a child of the shell), the Proceed button of the
    review page was clicked before, and at that moment the review page
    was the visible page and no dialog was open. *)
Theorem no_build_without_the_review environ mask files0 dirs0 es s :
  run gettext (boot gettext environ mask files0 dirs0) es = Some s ->
  build_underway s ->
  exists es1 es2 s1,
    es = es1 ++ PkgbuildProceed :: es2 /\
    run gettext (boot gettext environ mask files0 dirs0) es1 = Some s1 /\
    content_stack s1 = pkgbuild_view /\ dialogs s1 = [] /\
    exists s2, step gettext s1 PkgbuildProceed = Some s2 /\
               run gettext s2 es2 = Some s.
Proof.
  intros Hrun Hu.
  destruct (run_underway es _ s Hrun Hu) as [H0 | Hin].
  { exfalso.
    destruct H0 as [(d & Hin & _) | [(t & Hin & _) | (p & c & Hin & _)]];
      destruct Hin. }
  apply in_split in Hin as (es1 & es2 & ->).
  rewrite run_app in Hrun.
  destruct (run gettext (boot gettext environ mask files0 dirs0) es1) as [s1|] eqn:H1;
    [|discriminate].
  exists es1, es2, s1. split; [reflexivity|]. split; [exact H1|].
  change (run gettext s1 (PkgbuildProceed :: es2))
    with (match step gettext s1 PkgbuildProceed with
          | Some s2 => run gettext s2 es2
          | None => None
          end) in Hrun.
  destruct (step gettext s1 PkgbuildProceed) as [s2|] eqn:Hstep; [|discriminate].
  assert (En : enabled s1 PkgbuildProceed = true).
  { unfold step in Hstep. destruct (enabled s1 PkgbuildProceed); [reflexivity | discriminate]. }
  simpl in En. apply andb_true_iff in En as [Hv Hd].
  apply showing_true in Hv. apply no_dialog_true in Hd.
  split; [assumption|]. split; [assumption|]. exists s2. auto.
Qed.

End Review.

Lemma no_build_without_review_witness :
  let es := [ClickInstall demo_aur_pkg "/tmp/linpama_aur_k3x9"; PopenOk 0 4242;
             CloneExit 0 0 (Some "pkgname=yay"); IdleRun; PkgbuildProceed;
             Respond "unlock" "hunter2"; PopenOk 1 4243] in
  let s := default demo_boot (run no_catalogue demo_boot es) in
  run no_catalogue demo_boot es = Some s /\
  (args <$> procs s) !! 1
  = Some ["cd /tmp/linpama_aur_k3x9 && export SUDO_ASKPASS='/tmp/linpama-askpass.sh' && makepkg -si --noconfirm"] /\
  build_underway s /\
  exists es1 es2 s1,
    es = es1 ++ PkgbuildProceed :: es2 /\ content_stack s1 = pkgbuild_view.
Proof.
  intros es s.
  assert (H1 : run no_catalogue demo_boot es = Some s) by (vm_compute; reflexivity).
  assert (H2 : (args <$> procs s) !! 1
    = Some ["cd /tmp/linpama_aur_k3x9 && export SUDO_ASKPASS='/tmp/linpama-askpass.sh' && makepkg -si --noconfirm"])
    by (vm_compute; reflexivity).
  assert (H3 : build_underway s).
  { right. right.
    exists (default (Popen 0 [] false None None) (procs s !! 1)),
      "cd /tmp/linpama_aur_k3x9 && export SUDO_ASKPASS='/tmp/linpama-askpass.sh' && makepkg -si --noconfirm".
    assert (Hp : procs s !! 1
                 = Some (default (Popen 0 [] false None None) (procs s !! 1)))
      by (vm_compute; reflexivity).
    split; [exact (in_lookup _ 1 _ Hp)|].
    split; [vm_compute; reflexivity|].
    split; vm_compute; reflexivity. }
  destruct (no_build_without_the_review no_catalogue ∅ 18 ∅ ∅ es s H1 H3)
    as (es1 & es2 & s1 & Ha & _ & Hb & _).
  exact (conj H1 (conj H2 (conj H3
           (ex_intro _ es1 (ex_intro _ es2 (ex_intro _ s1 (conj Ha Hb))))))).
Defined.

End ReviewFacts.

(** ** The rows of the result list and what their buttons run *)

Module RowFacts.
Import PyStr Search Supervisor SupervisorFacts Rows.

Section Row.
Variable gettext : string -> string.
Variable has_icon : string -> bool.
Variable available_flatpak_ids : list string.

Lemma initiate_remove_prompts n s :
  password_given s = false ->
  initiate_remove gettext n s
  = prompt_for_password gettext (then_run_transaction n)
      (set_action_type (Some remove) s).
Proof.
  intros Hpw. unfold initiate_remove.
  change (password_given (set_action_type (Some remove) s)) with (password_given s).
  now rewrite Hpw.
Qed.

Lemma initiate_install_prompts p tmp s :
  password_given s = false -> is_aur p = false ->
  initiate_install gettext p tmp s
  = prompt_for_password gettext (then_run_transaction (name p))
      (set_action_type (Some install) s).
Proof.
  intros Hpw Haur. unfold initiate_install. rewrite Haur.
  change (password_given (set_action_type (Some install) s)) with (password_given s).
  now rewrite Hpw.
Qed.

Lemma action_type_run_transaction n s :
  action_type (run_transaction gettext n s) = action_type s.
Proof.
  unfold run_transaction. cbv zeta.
  match goal with
  | |- context [match action_type ?x with _ => _ end] =>
      change (action_type x) with (action_type s)
  end.
  destruct (action_type s) as [[]|] eqn:E; simpl; exact E.
Qed.

(** X20: the button of a row runs what it says. The row of a record
    shows its name, its description and its version with the
    repository, and the AUR badge exactly when the record is an AUR
    hit. For an installed package the button says Remove and a click
    removes it: [pacman -Rns --noconfirm] with the name, through the
    sudo wrapper, once the password is there, and the password dialog
    before. For any other package the button says Install; a click on
    an AUR hit makes the directory and starts the clone, with no
    password asked and no [pacman] run; a click on any other record
    runs [pacman -S --noconfirm --needed] with the name, behind the
    same dialog. *)
Theorem row_button_runs_what_it_says p tmp s :
  let row := create_package_row gettext has_icon available_flatpak_ids p in
  let s' := on_clicked gettext row tmp s in
  title row = name p /\ subtitle row = desc p /\
  ver_text row = (version p ++ " (" ++ repo p ++ ")")%string /\
  aur_badge row = is_aur p /\
  action_label row = (if installed p then gettext "Remove" else gettext "Install") /\
  action_type s' = Some (if installed p then remove else install) /\
  (if negb (installed p) && is_aur p then
     threads s' = threads s ++ [CloneStart (name p)] /\
     dialogs s' = dialogs s /\ aur_temp_dir s' = Some tmp /\ tmp ∈ dirs s'
   else if password_given s then
     threads s'
     = threads s ++
       [ExecStart
          (sudo_wrapper
           ++ (if installed p then " pacman -Rns --noconfirm "
               else " pacman -S --noconfirm --needed ")
           ++ name p) (name p)] /\
     dialogs s' = dialogs s /\ aur_temp_dir s' = aur_temp_dir s
   else
     threads s' = threads s /\
     (exists text,
        dialogs s' = dialogs s ++ [Dialog text (then_run_transaction (name p))]) /\
     aur_temp_dir s' = aur_temp_dir s).
Proof.
  cbv zeta. unfold on_clicked, create_package_row. simpl clicked.
  do 5 (split; [reflexivity|]).
  destruct (installed p) eqn:Ei; simpl negb; simpl andb; cbv iota.
  - (* Remove *)
    destruct (password_given s) eqn:Hpw.
    + split.
      { unfold initiate_remove.
        change (password_given (set_action_type (Some remove) s))
          with (password_given s).
        rewrite Hpw. simpl negb. cbv iota. now rewrite action_type_run_transaction. }
      split; [now apply initiate_remove_starts_worker|].
      unfold initiate_remove.
      change (password_given (set_action_type (Some remove) s))
        with (password_given s).
      rewrite Hpw. simpl negb. cbv iota.
      split; [now rewrite dialogs_run_transaction|].
      unfold run_transaction. destruct (action_type _) as [[]|]; reflexivity.
    + rewrite initiate_remove_prompts by assumption.
      split; [reflexivity|]. split; [reflexivity|].
      split; [eexists; reflexivity | reflexivity].
  - (* Install *)
    destruct (is_aur p) eqn:Ea.
    + unfold initiate_install. rewrite Ea.
      split; [reflexivity|]. split; [reflexivity|]. split; [reflexivity|].
      split; [reflexivity|]. simpl. set_solver.
    + destruct (password_given s) eqn:Hpw.
      * split.
        { unfold initiate_install. rewrite Ea.
          change (password_given (set_action_type (Some install) s))
            with (password_given s).
          rewrite Hpw. simpl negb. cbv iota.
          now rewrite action_type_run_transaction. }
        split; [now apply initiate_install_starts_worker|].
        unfold initiate_install. rewrite Ea.
        change (password_given (set_action_type (Some install) s))
          with (password_given s).
        rewrite Hpw. simpl negb. cbv iota.
        split; [now rewrite dialogs_run_transaction|].
        unfold run_transaction. destruct (action_type _) as [[]|]; reflexivity.
      * rewrite initiate_install_prompts by assumption.
        split; [reflexivity|]. split; [reflexivity|].
        split; [eexists; reflexivity | reflexivity].
Qed.

End Row.
End RowFacts.

(** ** Where the password goes *)

Module SecrecyFacts.
Import PyStr Supervisor SupervisorFacts Secrecy.

Lemma state_ext (s s' : state) :
  user_password s = user_password s' ->
  process_in_progress s = process_in_progress s' ->
  pulse_timer_id s = pulse_timer_id s' ->
  current_package_name s = current_package_name s' ->
  current_process s = current_process s' ->
  action_type s = action_type s' ->
  aur_temp_dir s = aur_temp_dir s' ->
  aur_pkg_name s = aur_pkg_name s' ->
  content_stack s = content_stack s' ->
  output_buffer s = output_buffer s' ->
  btn_back_sensitive s = btn_back_sensitive s' ->
  btn_cancel_visible s = btn_cancel_visible s' ->
  labels s = labels s' -> shown s = shown s' ->
  files s = files s' -> dirs s = dirs s' ->
  procs s = procs s' -> os_calls s = os_calls s' ->
  os_environ s = os_environ s' -> umask s = umask s' ->
  threads s = threads s' -> idle_queue s = idle_queue s' ->
  dialogs s = dialogs s' -> next_source s = next_source s' ->
  s = s'.
Proof. destruct s, s'; simpl; intros; subst; reflexivity. Qed.

Lemma without_secret_twice p : without_secret (without_secret p) = without_secret p.
Proof.
  destruct p as [i a sh [e|] rc]; unfold without_secret; simpl; [|reflexivity].
  now rewrite delete_delete_eq.
Qed.

Lemma map_without_secret_twice ps :
  map without_secret (map without_secret ps) = map without_secret ps.
Proof. rewrite map_map. apply map_ext. intros p. apply without_secret_twice. Qed.

Lemma password_given_public s : password_given (public s) = password_given s.
Proof.
  unfold public, password_given. simpl. destruct (user_password s) as [pw|]; [|reflexivity].
  destruct (truthy pw); reflexivity.
Qed.

Lemma public_twice s : public (public s) = public s.
Proof.
  unfold public at 1 3. rewrite password_given_public.
  apply state_ext; try reflexivity. simpl. apply map_without_secret_twice.
Qed.

Lemma without_secret_returncode p : returncode (without_secret p) = returncode p.
Proof. reflexivity. Qed.

Lemma child_env_hidden s :
  delete env_var_name (child_env s) = delete env_var_name (os_environ s).
Proof.
  unfold child_env. destruct (user_password s) as [pw|]; [|reflexivity].
  destruct (truthy pw); [|reflexivity]. apply delete_insert_eq.
Qed.

Lemma child_env_public s :
  delete env_var_name (child_env (public s)) = delete env_var_name (child_env s).
Proof. now rewrite !child_env_hidden. Qed.

(** Typing a password leaves behind only that one was typed. *)
Lemma typed_password_public t s :
  truthy t = true ->
  public (set_user_password (Some t) s)
  = public (set_user_password (Some "*") (public s)).
Proof.
  intros Ht. unfold public at 1 2.
  change (password_given (set_user_password (Some t) s)) with (truthy t).
  rewrite Ht. apply state_ext; try reflexivity.
  simpl. symmetry. apply map_without_secret_twice.
Qed.

Lemma wait_public h rc s :
  wait h rc (public s) = (fst (wait h rc s), public (snd (wait h rc s))).
Proof.
  unfold wait. change (procs (public s)) with (map without_secret (procs s)).
  change (map without_secret (procs s) !! h) with ((without_secret <$> procs s) !! h).
  rewrite list_lookup_fmap. destruct (procs s !! h) as [p|]; [|reflexivity].
  simpl. destruct (returncode p) as [r|]; [reflexivity|]. simpl. f_equal.
  apply state_ext; try reflexivity. simpl.
  change (map without_secret) with (fmap (M:=list) without_secret).
  now rewrite list_fmap_insert.
Qed.

Lemma procs_public_length s : length (procs (public s)) = length (procs s).
Proof. apply length_map. Qed.

Lemma popen_ok_public new_pid argv sh e e' s :
  (delete env_var_name <$> e) = (delete env_var_name <$> e') ->
  public (popen_ok new_pid argv sh e s) = public (popen_ok new_pid argv sh e' (public s)).
Proof.
  intros He. unfold public at 1 2.
  change (password_given (popen_ok new_pid argv sh e s)) with (password_given s).
  change (password_given (popen_ok new_pid argv sh e' (public s)))
    with (password_given (public s)).
  rewrite password_given_public.
  apply state_ext; try reflexivity.
  - simpl. now rewrite length_map.
  - simpl. rewrite !map_app, map_without_secret_twice. simpl. unfold without_secret.
    simpl. now rewrite He.
Qed.

Section Secrecy.
Variable gettext : string -> string.

Ltac scrut f s :=
  repeat match goal with
  | |- context [f ?x] =>
      lazymatch x with s => fail | _ => change (f x) with (f s) end
  end.

Lemma run_transaction_public n s :
  public (run_transaction gettext n s) = run_transaction gettext n (public s).
Proof.
  unfold run_transaction. cbv zeta. scrut action_type s.
  destruct (action_type s) as [[]|]; reflexivity.
Qed.

Lemma run_aur_build_public s :
  public (run_aur_build gettext s) = run_aur_build gettext (public s).
Proof. reflexivity. Qed.

Lemma prompt_for_password_public k s :
  public (prompt_for_password gettext k s) = prompt_for_password gettext k (public s).
Proof. reflexivity. Qed.

Lemma call_continuation_public k s :
  public (call_continuation gettext k s) = call_continuation gettext k (public s).
Proof. destruct k; [apply run_transaction_public | apply run_aur_build_public]. Qed.

Lemma start_aur_review_process_public n tmp s :
  public (start_aur_review_process gettext n tmp s)
  = start_aur_review_process gettext n tmp (public s).
Proof. reflexivity. Qed.

Lemma initiate_install_public p tmp s :
  public (initiate_install gettext p tmp s) = initiate_install gettext p tmp (public s).
Proof.
  unfold initiate_install. cbv zeta.
  change (password_given (set_action_type (Some install) (public s)))
    with (password_given (public s)).
  change (password_given (set_action_type (Some install) s)) with (password_given s).
  rewrite password_given_public.
  destruct (Search.is_aur p); [apply start_aur_review_process_public|].
  destruct (password_given s); simpl negb; cbv iota.
  - apply (run_transaction_public _ (set_action_type (Some install) s)).
  - apply (prompt_for_password_public _ (set_action_type (Some install) s)).
Qed.

Lemma initiate_remove_public n s :
  public (initiate_remove gettext n s) = initiate_remove gettext n (public s).
Proof.
  unfold initiate_remove. cbv zeta.
  change (password_given (set_action_type (Some remove) (public s)))
    with (password_given (public s)).
  change (password_given (set_action_type (Some remove) s)) with (password_given s).
  rewrite password_given_public.
  destruct (password_given s); simpl negb; cbv iota.
  - apply (run_transaction_public _ (set_action_type (Some remove) s)).
  - apply (prompt_for_password_public _ (set_action_type (Some remove) s)).
Qed.

Lemma on_pkgbuild_proceed_public s :
  public (on_pkgbuild_proceed gettext s) = on_pkgbuild_proceed gettext (public s).
Proof.
  unfold on_pkgbuild_proceed. rewrite password_given_public.
  destruct (password_given s); simpl negb; cbv iota.
  - apply run_aur_build_public.
  - apply prompt_for_password_public.
Qed.

Lemma on_pkgbuild_cancel_public s :
  public (on_pkgbuild_cancel s) = on_pkgbuild_cancel (public s).
Proof.
  unfold on_pkgbuild_cancel. cbv zeta. scrut aur_temp_dir s.
  destruct (aur_temp_dir s) as [d|]; [|reflexivity].
  change (path_exists d (public s)) with (path_exists d s).
  destruct (path_exists d s); reflexivity.
Qed.

Lemma on_toggle_details_public s :
  public (on_toggle_details gettext s) = on_toggle_details gettext (public s).
Proof.
  unfold on_toggle_details. scrut shown s.
  destruct (shown s !! "revealer_details") as [[]|]; reflexivity.
Qed.

Lemma on_view_log_clicked_public s :
  public (on_view_log_clicked gettext s) = on_view_log_clicked gettext (public s).
Proof.
  unfold on_view_log_clicked. cbv zeta. scrut action_type s.
  destruct (action_type s) as [[]|]; reflexivity.
Qed.

Lemma on_cancel_clicked_public s :
  public (on_cancel_clicked gettext s) = on_cancel_clicked gettext (public s).
Proof.
  unfold on_cancel_clicked. cbv zeta. scrut current_process s.
  destruct (current_process s) as [h|]; [|reflexivity].
  unfold send_signal.
  match goal with
  | |- context [procs (append_log ?t (public s))] =>
      change (procs (append_log t (public s)))
        with (fmap (M:=list) without_secret (procs s));
      change (procs (append_log t s)) with (procs s)
  end.
  rewrite list_lookup_fmap. destruct (procs s !! h) as [p|]; [|reflexivity].
  simpl. destruct (returncode p); reflexivity.
Qed.

Lemma on_process_finished_public b n s :
  public (on_process_finished gettext b n s) = on_process_finished gettext b n (public s).
Proof.
  unfold on_process_finished. cbv zeta. scrut pulse_timer_id s.
  destruct (pulse_timer_id s); scrut aur_temp_dir s;
    (destruct (aur_temp_dir s) as [d|];
     [ repeat match goal with
       | |- context [path_exists d ?x] =>
           lazymatch x with s => fail | _ => change (path_exists d x) with (path_exists d s) end
       end; destruct (path_exists d s) | ]);
    (destruct b; [scrut action_type s; destruct (action_type s) as [[]|]|]);
    reflexivity.
Qed.

Lemma run_callback_public c s :
  public (run_callback gettext c s) = run_callback gettext c (public s).
Proof. destruct c; [reflexivity | apply on_process_finished_public | reflexivity | reflexivity]. Qed.

Lemma on_response_public d response t s :
  public (on_response gettext d response t s)
  = public (on_response gettext d response (if truthy t then "*" else "") (public s)).
Proof.
  assert (Hdrop : forall u, public (set_dialogs (tail (dialogs u)) u)
                            = set_dialogs (tail (dialogs (public u))) (public u))
    by reflexivity.
  unfold on_response. cbv zeta.
  destruct (String.eqb response "unlock");
    [destruct (truthy t) eqn:Ht; [change (truthy "*") with true; cbv iota|
       change (truthy "") with false; cbv iota]|];
    rewrite !Hdrop; try now rewrite public_twice.
  rewrite !call_continuation_public. now rewrite (typed_password_public t s Ht).
Qed.

Lemma thread_step_public tid t e s :
  option_map public (thread_step tid t e s)
  = option_map public (thread_step tid t e (public s)).
Proof.
  assert (Hset : forall T u, public (set_thread tid T u) = set_thread tid T (public u))
    by reflexivity.
  assert (Hidle : forall c u, public (idle_add c u) = idle_add c (public u))
    by reflexivity.
  assert (Hfail : forall err n u, public (execute_shell_failed tid err n u)
                    = execute_shell_failed tid err n (public u)) by reflexivity.
  assert (Hclone : forall err u, public (clone_task_failed tid err u)
                    = clone_task_failed tid err (public u)) by reflexivity.
  destruct e, t; try reflexivity; unfold thread_step.
  - (* the child of [execute_shell] is started *)
    cbv zeta. unfold option_map. f_equal. rewrite procs_public_length, !Hset.
    f_equal. apply popen_ok_public. cbn [fmap option_fmap option_map].
    now rewrite child_env_public.
  - (* the clone is started *)
    unfold option_map. f_equal. rewrite !Hset. f_equal.
    change (aur_temp_dir (public s)) with (aur_temp_dir s).
    now apply popen_ok_public.
  - unfold option_map. f_equal. now rewrite !Hfail, public_twice.
  - unfold option_map. f_equal. now rewrite !Hclone, public_twice.
  - destruct (truthy line); [|reflexivity].
    unfold option_map. f_equal. now rewrite !Hidle, public_twice.
  - unfold option_map. f_equal. now rewrite !Hfail, public_twice.
  - (* the output has ended *)
    change (current_process (public s)) with (current_process s).
    destruct (current_process s) as [h|].
    + rewrite wait_public. destruct (wait h rc s) as [r u].
      cbn [fst snd option_map]. f_equal. now rewrite !Hset, !Hidle, public_twice.
    + unfold option_map. f_equal. now rewrite !Hfail, public_twice.
  - (* the clone has ended *)
    change (current_process (public s)) with (current_process s).
    destruct (current_process s) as [h|].
    + rewrite wait_public. destruct (wait h rc s) as [r u].
      cbn [fst snd]. cbv zeta.
      assert (Hend : forall c c' X X', c = c' -> public X = public X' ->
                option_map public (Some (set_thread tid Finished (idle_add c X)))
                = option_map public (Some (set_thread tid Finished (idle_add c' X')))).
      { intros c c' X X' -> HX. unfold option_map. f_equal.
        now rewrite !Hset, !Hidle, HX. }
      destruct pkgbuild as [text|]; [destruct (r =? 0)%Z|];
        (apply Hend; [reflexivity|]); try now rewrite public_twice.
      assert (Hfiles : forall m x, public (set_files m x) = set_files m (public x))
        by reflexivity.
      rewrite !Hfiles. now rewrite public_twice.
    + unfold option_map. f_equal. now rewrite !Hclone, public_twice.
Qed.

Lemma enabled_public s e : enabled (public s) (entry_hidden e) = enabled s e.
Proof. destruct e; reflexivity. Qed.

Lemma handle_public s e :
  option_map public (handle gettext s e)
  = option_map public (handle gettext (public s) (entry_hidden e)).
Proof.
  destruct e; unfold handle, entry_hidden.
  - unfold option_map. f_equal. now rewrite !initiate_install_public, public_twice.
  - unfold option_map. f_equal. now rewrite !initiate_remove_public, public_twice.
  - change (dialogs (public s)) with (dialogs s). destruct (dialogs s) as [|d ds]; [reflexivity|].
    unfold option_map. f_equal. apply on_response_public.
  - unfold option_map. f_equal. now rewrite !on_pkgbuild_cancel_public, public_twice.
  - unfold option_map. f_equal. now rewrite !on_pkgbuild_proceed_public, public_twice.
  - unfold option_map. f_equal. now rewrite !on_cancel_clicked_public, public_twice.
  - unfold option_map. f_equal.
    change (public (on_back_clicked (public s))) with (on_back_clicked (public (public s))).
    now rewrite public_twice.
  - unfold option_map. f_equal. now rewrite !on_view_log_clicked_public, public_twice.
  - unfold option_map. f_equal. now rewrite !on_toggle_details_public, public_twice.
  - change (idle_queue (public s)) with (idle_queue s).
    destruct (idle_queue s) as [|c rest]; [reflexivity|].
    unfold option_map. f_equal. rewrite !run_callback_public.
    change (public (set_idle_queue rest s)) with (set_idle_queue rest (public s)).
    change (public (set_idle_queue rest (public s)))
      with (set_idle_queue rest (public (public s))).
    now rewrite public_twice.
  - change (threads (public s)) with (threads s).
    destruct (threads s !! tid); [apply thread_step_public | reflexivity].
  - change (threads (public s)) with (threads s).
    destruct (threads s !! tid); [apply thread_step_public | reflexivity].
  - change (threads (public s)) with (threads s).
    destruct (threads s !! tid); [apply thread_step_public | reflexivity].
  - change (threads (public s)) with (threads s).
    destruct (threads s !! tid); [apply thread_step_public | reflexivity].
  - change (threads (public s)) with (threads s).
    destruct (threads s !! tid); [apply thread_step_public | reflexivity].
  - change (threads (public s)) with (threads s).
    destruct (threads s !! tid); [apply thread_step_public | reflexivity].
Qed.

Lemma step_public s e :
  option_map public (step gettext s e)
  = option_map public (step gettext (public s) (entry_hidden e)).
Proof.
  unfold step. rewrite enabled_public.
  destruct (enabled s e); [apply handle_public | reflexivity].
Qed.

Lemma step_alike s s' e e' :
  public s = public s' -> entry_hidden e = entry_hidden e' ->
  option_map public (step gettext s e) = option_map public (step gettext s' e').
Proof.
  intros Hs He. now rewrite (step_public s e), (step_public s' e'), Hs, He.
Qed.

(** X21: the password reaches nothing but one variable in the
    environment of the children. Take two states of the widget that
    differ at most in the cached password and in the value of the
    password variable in the environments of the children, and two
    sequences of events that differ at most in the non-empty texts
    typed into the password dialog. Then both runs are refused or both
    go through, and the states they reach differ again at most in
    these two places: the files, the labels, the log, the command
    lines of the threads and of the children, the signals sent and
    the dialogs are the same. *)
Theorem password_reaches_only_the_child_environment es : forall es' s s',
  public s = public s' ->
  map entry_hidden es = map entry_hidden es' ->
  option_map public (run gettext s es) = option_map public (run gettext s' es').
Proof.
  induction es as [|e es IH]; intros [|e' es'] s s' Hs Hes; try discriminate Hes.
  - cbn [run option_map]. f_equal. exact Hs.
  - injection Hes as He Hes. cbn [run].
    pose proof (step_alike s s' e e' Hs He) as Hstep.
    destruct (step gettext s e) as [t|], (step gettext s' e') as [t'|];
      try discriminate Hstep; [|reflexivity].
    cbn [option_map] in Hstep. apply (inj Some) in Hstep. exact (IH es' t t' Hstep Hes).
Qed.

End Secrecy.

Lemma password_reaches_witness :
  public demo_boot = public demo_boot /\
  map entry_hidden (demo_typed "hunter2") = map entry_hidden (demo_typed "letmein") /\
  option_map public (run no_catalogue demo_boot (demo_typed "hunter2"))
  = option_map public (run no_catalogue demo_boot (demo_typed "letmein")).
Proof.
  split; [reflexivity|]. split; [reflexivity|].
  apply (password_reaches_only_the_child_environment no_catalogue
           (demo_typed "hunter2") (demo_typed "letmein") demo_boot demo_boot);
    reflexivity.
Defined.

End SecrecyFacts.
